(** * Backend-Quickstart: the project generator

    A shallow embedding of the generator of the scaffolding tool
    ([generateProject], [copyTemplate], [processTemplateFile]), of
    [validateProjectPath], and of the part of the [mustache] package that
    [processTemplateFile] calls ([Mustache.render]: tokenizer, nesting and
    renderer), with the properties of the specification stated over them;
    then of [sanitizeProjectName], of [collectProjectInfo], of the action of
    the command line and of [validateTemplate] of the template check, with
    further properties of the code.

    Text is a [string] of 8-bit characters; offsets are [nat]; a JavaScript
    object used as a dictionary is a [gmap]. *)

From Stdlib Require Import Ascii DecimalString.
From stdpp Require Import gmap strings list.

Local Open Scope stdpp_scope.

(** ** JavaScript string primitives *)

Module Js.

(** [s.startsWith(p)] *)
Fixpoint startsWith (s p : string) {struct p} : bool :=
  match p with
  | EmptyString => true
  | String b p' =>
      match s with
      | EmptyString => false
      | String a s' => Ascii.eqb a b && startsWith s' p'
      end
  end.

(** [s.endsWith(suf)]: some tail of [s] is [suf]. *)
Fixpoint endsWith (s suf : string) : bool :=
  String.eqb s suf ||
  match s with
  | EmptyString => false
  | String _ s' => endsWith s' suf
  end.

(** [s.substring(n)] *)
Fixpoint drop (n : nat) (s : string) : string :=
  match n, s with
  | S n', String _ s' => drop n' s'
  | _, _ => s
  end.

(** [s.substring(0, n)] *)
Fixpoint take (n : nat) (s : string) : string :=
  match n, s with
  | S n', String c s' => String c (take n' s')
  | _, _ => EmptyString
  end.

(** [s.replace(pat, rep)] with a string pattern: the first occurrence only. *)
Fixpoint replace (s pat rep : string) : string :=
  if startsWith s pat then rep +:+ drop (String.length pat) s
  else match s with
       | EmptyString => EmptyString
       | String c s' => String c (replace s' pat rep)
       end.

(** [s.replace(/lit$/, rep)] for a literal [lit]: the pattern is anchored at
    the end of the input, so at most the final [lit] is rewritten. *)
Fixpoint replaceAtEnd (s lit rep : string) : string :=
  if String.eqb s lit then rep
  else match s with
       | EmptyString => EmptyString
       | String c s' => String c (replaceAtEnd s' lit rep)
       end.

(** [s.replace(/^c/, rep)] for one literal character [c]. *)
Definition replaceAtStart (s : string) (c : ascii) (rep : string) : string :=
  match s with
  | String c' s' => if Ascii.eqb c' c then rep +:+ s' else s
  | EmptyString => s
  end.

(** [s.includes(sub)] *)
Fixpoint includes (s sub : string) : bool :=
  startsWith s sub ||
  match s with
  | EmptyString => false
  | String _ s' => includes s' sub
  end.

(** Every character of [s] satisfies [ok]. *)
Fixpoint allChars (ok : ascii -> bool) (s : string) : bool :=
  match s with
  | EmptyString => true
  | String c s' => ok c && allChars ok s'
  end.

(** [s.repeat(n)] *)
Fixpoint repeat (n : nat) (s : string) : string :=
  match n with
  | 0 => EmptyString
  | S n' => s +:+ repeat n' s
  end.

(** [String(n)] for a non-negative integer. *)
Definition ofNat (n : nat) : string := NilEmpty.string_of_uint (Nat.to_uint n).

(** [l.join(sep)] *)
Fixpoint join (sep : string) (l : list string) : string :=
  match l with
  | [] => EmptyString
  | [x] => x
  | x :: l' => x +:+ sep +:+ join sep l'
  end.

(** The characters matched by [\s] among the 8-bit ones: tab, line feed,
    vertical tab, form feed, carriage return, space, no-break space. *)
Definition isSpace (c : ascii) : bool :=
  match c with
  | ("009" | "010" | "011" | "012" | "013" | " " | "160")%char => true
  | _ => false
  end.

End Js.

(** A bare identifier, the form of a flag name: letters, digits, [_], [$]. *)
Definition identChar (c : ascii) : bool :=
  let n := nat_of_ascii c in
  ((48 <=? n) && (n <=? 57)) || ((65 <=? n) && (n <=? 90))
  || ((97 <=? n) && (n <=? 122)) || (n =? 95) || (n =? 36).

Definition identifier (s : string) : bool :=
  negb (String.eqb s "") && Js.allChars identChar s.

(** The double quote, as a character. *)
Definition dquote : ascii := "034"%char.

(** ** Values of a template context

    The fields of [ProjectConfig] are strings, booleans and one array of
    strings ([features]); [undefined] is what reading an absent key gives. *)

Inductive value :=
| VUndefined
| VBool (b : bool)
| VStr (s : string)
| VList (l : list string).

(** JavaScript truthiness ([if (v)], [!v]): arrays are objects, hence truthy. *)
Definition truthy (v : value) : bool :=
  match v with
  | VUndefined => false
  | VBool b => b
  | VStr s => negb (String.eqb s "")
  | VList _ => true
  end.

(** [String(v)]; an array prints its elements separated by commas. *)
Definition toString (v : value) : string :=
  match v with
  | VUndefined => "undefined"
  | VBool true => "true"
  | VBool false => "false"
  | VStr s => s
  | VList l => Js.join "," l
  end.

(** [TemplateContext]: the fields of the configuration and any other key. *)
Abbreviation TemplateContext := (gmap string value) (only parsing).

(** [obj[key]] on a plain object: the own property, else [undefined]. *)
Definition get (obj : gmap string value) (key : string) : value :=
  default VUndefined (obj !! key).

(** ** Path derivation (the first half of [processTemplateFile]) *)

(** Lines 61-80: the name of the output file for a source file name. *)
Definition targetFileName (fileName : string) (context : TemplateContext) : string :=
  let targetFileName := fileName in
  let targetFileName :=
    if Js.endsWith fileName ".mustache" then
      let targetFileName := Js.replace fileName ".mustache" "" in
      if truthy (get context "typescript")
      then Js.replaceAtEnd targetFileName ".js" ".ts"
      else Js.replaceAtEnd targetFileName ".ts" ".js"
    else targetFileName in
  if Js.startsWith targetFileName "_"
  then Js.replaceAtStart targetFileName "_"%char "."
  else targetFileName.

(** ** Errors and outcomes

    A call returns, throws a JavaScript error, or leaves the fragment of
    JavaScript and of Mustache that is modelled here ([Unmodelled]: nothing is
    claimed about such a call). *)

Inductive JsError :=
| Error (message : string)                      (* [new Error(message)] *)
| SystemError (code : string) (path : list string). (* an error of the [fs] layer *)

Inductive Outcome (A : Type) :=
| Returns (a : A)
| Throws (e : JsError)
| Unmodelled.
Arguments Returns {A} a.
Arguments Throws {A} e.
Arguments Unmodelled {A}.

(** ** The template engine: [Mustache.render] of the [mustache] package

    [processTemplateFile] renders through [Mustache.render(template, view)];
    the definitions below follow mustache.js (4.x): [Scanner],
    [parseTemplate], [squashTokens], [nestTokens], [Context.lookup] and
    [Writer.renderTokens]. Not modelled: the set-delimiter tag, dotted names,
    the implicit iterator on the top-level view, and names the view inherits
    from [Object.prototype]; partials are parsed and, since [render] is called
    without partials, render nothing. *)

Module Mustache.

(** The regular expressions the tokenizer uses, for the default tags. *)
Inductive RegExp :=
| LitSpaces (lit : string)   (* a literal, then [\s*] *)
| SpacesLit (lit : string)   (* [\s*], then a literal that starts with no space *)
| Spaces                     (* [\s*] *)
| TagKind.                   (* one of # ^ / > { & = ! *)

Definition openingTagRe := LitSpaces "{{".
Definition closingTagRe := SpacesLit "}}".
Definition closingCurlyRe := SpacesLit "}}}".
Definition curlyRe := SpacesLit "}".
Definition whiteRe := Spaces.
Definition tagRe := TagKind.

(** The longest run of white space at the start of [s] (a greedy [\s*]). *)
Fixpoint spaceRun (s : string) : string :=
  match s with
  | String c s' => if Js.isSpace c then String c (spaceRun s') else EmptyString
  | EmptyString => EmptyString
  end.

Definition isTagKind (c : ascii) : bool :=
  match c with
  | ("#" | "^" | "/" | ">" | "{" | "&" | "=" | "!")%char => true
  | _ => false
  end.

(** The match of [re] that starts at the first character of [s], if any. *)
Definition matchAt (re : RegExp) (s : string) : option string :=
  match re with
  | LitSpaces lit =>
      if Js.startsWith s lit
      then Some (lit +:+ spaceRun (Js.drop (String.length lit) s)) else None
  | SpacesLit lit =>
      let w := spaceRun s in
      if Js.startsWith (Js.drop (String.length w) s) lit
      then Some (w +:+ lit) else None
  | Spaces => Some (spaceRun s)
  | TagKind =>
      match s with
      | String c _ => if isTagKind c then Some (String c EmptyString) else None
      | EmptyString => None
      end
  end.

(** [s.match(re)]: index and text of the leftmost match. *)
Fixpoint exec (re : RegExp) (s : string) : option (nat * string) :=
  match matchAt re s with
  | Some m => Some (0, m)
  | None =>
      match s with
      | String _ s' => prod_map S id <$> exec re s'
      | EmptyString => None
      end
  end.

(** *** Scanner *)

Record Scanner := mkScanner { tail : string; pos : nat }.

Definition eos (sc : Scanner) : bool := String.eqb (tail sc) "".

(** [Scanner.prototype.scan]: the match only if it starts at the current
    position; the empty string otherwise. *)
Definition scan (re : RegExp) (sc : Scanner) : string * Scanner :=
  match exec re (tail sc) with
  | Some (0, m) =>
      (m, {| tail := Js.drop (String.length m) (tail sc);
             pos := pos sc + String.length m |})
  | _ => ("", sc)
  end.

(** [Scanner.prototype.scanUntil]: skips to the next match, returning the
    skipped text; to the end of the input when there is no match. *)
Definition scanUntil (re : RegExp) (sc : Scanner) : string * Scanner :=
  match exec re (tail sc) with
  | None => (tail sc, {| tail := ""; pos := pos sc + String.length (tail sc) |})
  | Some (0, _) => ("", sc)
  | Some (index, _) =>
      (Js.take index (tail sc),
       {| tail := Js.drop index (tail sc); pos := pos sc + index |})
  end.

(** *** Tokens *)

Inductive Kind :=
| KText | KName | KSection | KInverted | KClose
| KPartial | KUnescaped | KComment.

Definition Kind_eqb (a b : Kind) : bool :=
  match a, b with
  | KText, KText | KName, KName | KSection, KSection | KInverted, KInverted
  | KClose, KClose | KPartial, KPartial | KUnescaped, KUnescaped
  | KComment, KComment => true
  | _, _ => false
  end.

(** A token [[type, value, start, end]]. *)
Record Token := mkToken { tkind : Kind; tvalue : string; tstart : nat; tend : nat }.

(** A nested token: a section carries its sub-tokens ([token[4]]) and the
    offset of its closing tag ([token[5]]). *)
#[warnings="-register-all"]
Inductive NToken :=
| Plain (t : Token)
| Block (t : Token) (children : list NToken) (closeAt : nat).

(** *** [parseTemplate] *)

(** The mutable variables of [parseTemplate]. [tokens] has holes where
    [stripSpace] deleted an entry; the top of [sections] is its head. *)
Record Parser := mkParser {
  scanner : Scanner;
  tokens : list (option Token);
  spaces : list nat;
  hasTag : bool;
  nonSpace : bool;
  sections : list Token
}.

Definition setScanner (sc : Scanner) (p : Parser) : Parser :=
  mkParser sc (tokens p) (spaces p) (hasTag p) (nonSpace p) (sections p).

Definition pushToken (t : Token) (p : Parser) : Parser :=
  mkParser (scanner p) (tokens p ++ [Some t]) (spaces p) (hasTag p) (nonSpace p)
           (sections p).

(** [stripSpace]: on a line that held a tag and otherwise only white space,
    the white-space tokens of the line are deleted. *)
Definition stripSpace (p : Parser) : Parser :=
  let tokens' :=
    if hasTag p && negb (nonSpace p)
    then foldr (fun i ts => <[i := None]> ts) (tokens p) (spaces p)
    else tokens p in
  mkParser (scanner p) tokens' [] false false (sections p).

(** The loop over the characters of the text between two tags. *)
Fixpoint pushText (value : string) (start : nat) (p : Parser) : nat * Parser :=
  match value with
  | EmptyString => (start, p)
  | String chr rest =>
      let p :=
        if Js.isSpace chr
        then mkParser (scanner p) (tokens p) (spaces p ++ [length (tokens p)])
                      (hasTag p) (nonSpace p) (sections p)
        else mkParser (scanner p) (tokens p) (spaces p) (hasTag p) true
                      (sections p) in
      let p := pushToken (mkToken KText (String chr "") start (start + 1)) p in
      let start := start + 1 in
      let p := if Ascii.eqb chr "010" then stripSpace p else p in
      pushText rest start p
  end.

Definition quoted (s : string) : string :=
  String dquote s +:+ String dquote "".

(** The end of the loop body: the token is pushed and, by its kind, opens a
    section, closes the innermost one, or marks the line as not blank. *)
Definition registerToken (token : Token) (p : Parser) : Outcome Parser :=
  let p := pushToken token p in
  match tkind token with
  | KSection | KInverted =>
      Returns (mkParser (scanner p) (tokens p) (spaces p) (hasTag p)
                        (nonSpace p) (token :: sections p))
  | KClose =>
      match sections p with
      | [] =>
          Throws (Error ("Unopened section " +:+ quoted (tvalue token) +:+ " at "
                         +:+ Js.ofNat (tstart token)))
      | openSection :: sections' =>
          if String.eqb (tvalue openSection) (tvalue token)
          then Returns (mkParser (scanner p) (tokens p) (spaces p) (hasTag p)
                                 (nonSpace p) sections')
          else Throws (Error ("Unclosed section "
                              +:+ quoted (tvalue openSection) +:+ " at "
                              +:+ Js.ofNat (tstart token)))
      end
  | KName | KUnescaped =>
      Returns (mkParser (scanner p) (tokens p) (spaces p) (hasTag p) true
                        (sections p))
  | _ => Returns p
  end.

(** The kind of tag for the character matched by [tagRe] (none: a name). *)
Definition kindOf (type : string) : Kind :=
  if String.eqb type "#" then KSection
  else if String.eqb type "^" then KInverted
  else if String.eqb type "/" then KClose
  else if String.eqb type ">" then KPartial
  else if String.eqb type "&" then KUnescaped
  else if String.eqb type "!" then KComment
  else KName.

(** The body of the loop once an opening tag was matched at [start]. *)
Definition parseTag (start : nat) (p : Parser) : Outcome Parser :=
  let p := mkParser (scanner p) (tokens p) (spaces p) true (nonSpace p)
                    (sections p) in
  let '(type, sc) := scan tagRe (scanner p) in
  let '(_, sc) := scan whiteRe sc in
  if String.eqb type "=" then Unmodelled else
  let '(kind, value, sc) :=
    if String.eqb type "{" then
      let '(value, sc) := scanUntil closingCurlyRe sc in
      let '(_, sc) := scan curlyRe sc in
      let '(_, sc) := scanUntil closingTagRe sc in
      (KUnescaped, value, sc)
    else
      let '(value, sc) := scanUntil closingTagRe sc in
      (kindOf type, value, sc) in
  let '(closing, sc') := scan closingTagRe sc in
  if String.eqb closing "" then
    Throws (Error ("Unclosed tag at " +:+ Js.ofNat (pos sc)))
  else
    registerToken (mkToken kind value start (pos sc')) (setScanner sc' p).

(** The [while (!scanner.eos())] loop; [None] only when [fuel] runs out,
    which [S (length template)] rules out ([parseTemplate_fuel] below). *)
Fixpoint parseLoop (fuel : nat) (p : Parser) : option (Outcome Parser) :=
  if eos (scanner p) then Some (Returns p)
  else match fuel with
       | 0 => None
       | S fuel =>
           let start := pos (scanner p) in
           let '(value, sc) := scanUntil openingTagRe (scanner p) in
           let '(start, p) := pushText value start (setScanner sc p) in
           let '(opening, sc) := scan openingTagRe (scanner p) in
           if String.eqb opening "" then Some (Returns p)
           else match parseTag start (setScanner sc p) with
                | Returns p' => parseLoop fuel p'
                | Throws e => Some (Throws e)
                | Unmodelled => Some Unmodelled
                end
       end.

(** [squashTokens]: drops the holes and merges consecutive text tokens.
    The accumulator is the result so far, last token first. *)
Definition squashStep (acc : list Token) (token : option Token) : list Token :=
  match token with
  | None => acc
  | Some t =>
      match acc with
      | lastToken :: acc' =>
          if Kind_eqb (tkind t) KText && Kind_eqb (tkind lastToken) KText
          then mkToken KText (tvalue lastToken +:+ tvalue t)
                       (tstart lastToken) (tend t) :: acc'
          else t :: acc
      | [] => [t]
      end
  end.

Definition squashTokens (tokens : list (option Token)) : list Token :=
  rev (fold_left squashStep tokens []).

(** [nestTokens]: [collector] is the list being filled (last token first);
    the stack holds each open section with the collector it was pushed to.
    [parseTemplate] has checked that sections are balanced, so a closing tag
    always finds its section and none stays open at the end. *)
Definition nestStep (st : list NToken * list (Token * list NToken)) (token : Token)
  : list NToken * list (Token * list NToken) :=
  let '(collector, stack) := st in
  match tkind token with
  | KSection | KInverted => ([], (token, collector) :: stack)
  | KClose =>
      match stack with
      | (section, outer) :: stack' =>
          (Block section (rev collector) (tstart token) :: outer, stack')
      | [] => (collector, [])
      end
  | _ => (Plain token :: collector, stack)
  end.

Definition nestTokens (tokens : list Token) : list NToken :=
  let '(collector, stack) := fold_left nestStep tokens ([], []) in
  rev (fold_left (fun inner '(section, outer) =>
                    Block section (rev inner) 0 :: outer) stack collector).

Definition initialParser (template : string) : Parser :=
  mkParser (mkScanner template 0) [] [] false false [].

Definition parseTemplate (template : string) : Outcome (list NToken) :=
  if String.eqb template "" then Returns []
  else match parseLoop (S (String.length template)) (initialParser template) with
       | None => Unmodelled
       | Some (Returns p) =>
           let p := stripSpace p in
           match sections p with
           | openSection :: _ =>
               Throws (Error ("Unclosed section " +:+ quoted (tvalue openSection)
                              +:+ " at " +:+ Js.ofNat (pos (scanner p))))
           | [] => Returns (nestTokens (squashTokens (tokens p)))
           end
       | Some (Throws e) => Throws e
       | Some Unmodelled => Unmodelled
       end.

(** *** [Context] and [Writer] *)

(** A view is the object given to [render], or a string pushed by a section. *)
Inductive View :=
| ViewObject (o : gmap string value)
| ViewString (s : string).

(** A [Context] with its chain of parents, innermost view first. *)
Definition Context := list View.

(** The members a plain object inherits from [Object.prototype]: the [in]
    operator of [hasProperty] finds them although they are no keys. *)
Definition objectPrototype : list string :=
  [ "constructor"; "__defineGetter__"; "__defineSetter__"; "hasOwnProperty";
    "__lookupGetter__"; "__lookupSetter__"; "isPrototypeOf";
    "propertyIsEnumerable"; "toString"; "valueOf"; "__proto__";
    "toLocaleString" ].

Definition inherited (name : string) : bool :=
  bool_decide (name ∈ objectPrototype).

(** [name.indexOf('.') > 0]: a dot after the first character. *)
Definition dotted (name : string) : bool :=
  match name with
  | String _ rest => Js.includes rest "."
  | EmptyString => false
  end.

(** A flag name: a bare identifier that is not inherited from the prototype. *)
Definition flagName (name : string) : bool :=
  identifier name && negb (inherited name).

(** The [while (context)] loop of [Context.prototype.lookup] for a name
    without dots: [hasProperty] is false on a string view, so the search
    moves to the parent. [None] when the name is found on the prototype. *)
Fixpoint lookupChain (context : Context) (name : string) : option value :=
  match context with
  | [] => Some VUndefined
  | ViewString _ :: parent => lookupChain parent name
  | ViewObject o :: parent =>
      match o !! name with
      | Some v => Some v
      | None => if inherited name then None else lookupChain parent name
      end
  end.

(** [Context.prototype.lookup]; the cache initially maps ["."] to the view. *)
Definition lookup (context : Context) (name : string) : option value :=
  if String.eqb name "." then
    match context with
    | ViewString s :: _ => Some (VStr s)
    | _ => None
    end
  else if dotted name then None
  else lookupChain context name.

(** [escapeHtml] with its [entityMap]. *)
Definition entity (c : ascii) : string :=
  if Ascii.eqb c "&" then "&amp;"
  else if Ascii.eqb c "<" then "&lt;"
  else if Ascii.eqb c ">" then "&gt;"
  else if Ascii.eqb c dquote then "&quot;"
  else if Ascii.eqb c "'" then "&#39;"
  else if Ascii.eqb c "/" then "&#x2F;"
  else if Ascii.eqb c "`" then "&#x60;"
  else if Ascii.eqb c "=" then "&#x3D;"
  else String c "".

Fixpoint escapeHtml (s : string) : string :=
  match s with
  | EmptyString => EmptyString
  | String c s' => entity c +:+ escapeHtml s'
  end.

(** [v != null] *)
Definition notNull (v : value) : bool :=
  match v with VUndefined => false | _ => true end.

(** [Writer.prototype.renderTokens], with [renderSection], [renderInverted],
    [escapedValue], [unescapedValue] and [rawValue] in its branches. *)
Fixpoint renderToken (token : NToken) (context : Context) {struct token}
  : option string :=
  match token with
  | Plain t =>
      match tkind t with
      | KText => Some (tvalue t)
      | KName =>
          v ← lookup context (tvalue t);
          Some (if notNull v then escapeHtml (toString v) else "")
      | KUnescaped =>
          v ← lookup context (tvalue t);
          Some (if notNull v then toString v else "")
      | _ => Some ""
      end
  | Block t children _ =>
      let renderTokens :=
        fix renderTokens (tokens : list NToken) (context : Context) : option string :=
          match tokens with
          | [] => Some ""
          | token :: tokens' =>
              v ← renderToken token context;
              buffer ← renderTokens tokens' context;
              Some (v +:+ buffer)
          end in
      v ← lookup context (tvalue t);
      match tkind t with
      | KSection =>
          if negb (truthy v) then Some ""
          else match v with
               | VList l =>
                   (fix each (l : list string) : option string :=
                      match l with
                      | [] => Some ""
                      | x :: l' =>
                          b ← renderTokens children (ViewString x :: context);
                          buffer ← each l';
                          Some (b +:+ buffer)
                      end) l
               | VStr s => renderTokens children (ViewString s :: context)
               | _ => renderTokens children context
               end
      | KInverted =>
          if negb (truthy v) || match v with VList [] => true | _ => false end
          then renderTokens children context
          else Some ""
      | _ => Some ""
      end
  end.

Fixpoint renderTokens (tokens : list NToken) (context : Context) : option string :=
  match tokens with
  | [] => Some ""
  | token :: tokens' =>
      v ← renderToken token context;
      buffer ← renderTokens tokens' context;
      Some (v +:+ buffer)
  end.

(** [Mustache.render(template, view)] *)
Definition render (template : string) (view : gmap string value) : Outcome string :=
  match parseTemplate template with
  | Returns tokens =>
      match renderTokens tokens [ViewObject view] with
      | Some s => Returns s
      | None => Unmodelled
      end
  | Throws e => Throws e
  | Unmodelled => Unmodelled
  end.

End Mustache.


(** ** The file system and the console

    Paths are absolute and normalized: the list of their segments. The file
    system is a finite map from paths to entries; the root always exists.
    The packaged template tree is a separate, read-only input (the target
    directory is assumed to lie outside it): a [TemplateNode]. *)

Inductive Entry :=
| File (data : string)
| Dir.

Record World := mkWorld {
  files : gmap (list string) Entry;
  stderr : list string     (* the lines written by [console.error] *)
}.

(** A source node: a directory with its entries in [readdir] order, or a
    file with its content ([None]: the file cannot be read). *)
#[warnings="-register-all"]
Inductive TemplateNode :=
| Leaf (data : option string)
| Directory (items : list (string * TemplateNode)).

(** The rendering of a path in messages. *)
Definition showPath (p : list string) : string :=
  match p with
  | [] => "/"
  | _ => String.concat "" (map (fun seg => "/" +:+ seg) p)
  end.

(** [path.join(dir, name)] for a single segment [name]. *)
Definition pathJoin (dir : list string) (name : string) : list string :=
  if String.eqb name "" || String.eqb name "." then dir
  else if String.eqb name ".." then removelast dir
  else dir ++ [name].

(** [path.basename(p)] *)
Definition basename (p : list string) : string := default "" (last p).

(** [path.dirname(p)] *)
Definition dirname (p : list string) : list string := removelast p.

(** Asynchronous code, made sequential: a computation reads and updates
    the world and returns, throws, or is not modelled. *)
Definition M (A : Type) : Type := World -> Outcome A * World.

Definition ret {A} (a : A) : M A := fun w => (Returns a, w).
Definition throw {A} (e : JsError) : M A := fun w => (Throws e, w).

Definition bind {A B} (m : M A) (k : A -> M B) : M B :=
  fun w =>
    match m w with
    | (Returns a, w') => k a w'
    | (Throws e, w') => (Throws e, w')
    | (Unmodelled, w') => (Unmodelled, w')
    end.

(** [try { m } catch (error) { handler(error) }] *)
Definition tryCatch {A} (m : M A) (handler : JsError -> M A) : M A :=
  fun w =>
    match m w with
    | (Throws e, w') => handler e w'
    | r => r
    end.

#[global] Instance M_ret : MRet M := @ret.
#[global] Instance M_bind : MBind M := fun A B k m => bind m k.

Module Fs.

Definition entryAt (w : World) (p : list string) : option Entry :=
  match p with
  | [] => Some Dir
  | _ => files w !! p
  end.

Definition isDirectory (w : World) (p : list string) : bool :=
  match entryAt w p with Some Dir => true | _ => false end.

Definition setFiles (fs : gmap (list string) Entry) (w : World) : World :=
  mkWorld fs (stderr w).

(** [fs.pathExists(p)], [fs.existsSync(p)] *)
Definition pathExists (p : list string) : M bool :=
  fun w => (Returns (bool_decide (is_Some (entryAt w p))), w).

(** The world without the entry at [p] and everything below it. *)
Definition without (p : list string) (w : World) : World :=
  setFiles (filter (fun kv => ¬ p `prefix_of` kv.1) (files w)) w.

(** [fs.remove(p)]: no error when [p] is absent. *)
Definition remove (p : list string) : M unit :=
  fun w => (Returns (), without p w).

(** [mkdir -p]: every missing directory on the way is created; a file on
    the way is an error. [base] is the part of the path already walked. *)
Fixpoint mkdirs (base rest : list string) (fs : gmap (list string) Entry)
  : Outcome (gmap (list string) Entry) :=
  match rest with
  | [] => Returns fs
  | seg :: rest' =>
      let q := base ++ [seg] in
      match fs !! q with
      | Some (File _) =>
          Throws (SystemError (match rest' with [] => "EEXIST" | _ => "ENOTDIR" end)
                              (base ++ rest))
      | _ => mkdirs q rest' (<[q := Dir]> fs)
      end
  end.

(** [fs.ensureDir(p)] *)
Definition ensureDir (p : list string) : M unit :=
  fun w =>
    match mkdirs [] p (files w) with
    | Returns fs => (Returns (), setFiles fs w)
    | Throws e => (Throws e, w)
    | Unmodelled => (Unmodelled, w)
    end.

(** What opening [p] for writing answers: the error, if any. *)
Definition openForWrite (w : World) (p : list string) : option JsError :=
  match entryAt w p with
  | Some Dir => Some (SystemError "EISDIR" p)
  | _ =>
      match entryAt w (dirname p) with
      | Some Dir => None
      | Some (File _) => Some (SystemError "ENOTDIR" p)
      | None => Some (SystemError "ENOENT" p)
      end
  end.

(** [fs.writeFile(p, data)] *)
Definition writeFile (p : list string) (data : string) : M unit :=
  fun w =>
    match openForWrite w p with
    | Some e => (Throws e, w)
    | None => (Returns (), setFiles (<[p := File data]> (files w)) w)
    end.

(** [fs.readFile(src, 'utf-8')] on a file of the template tree. *)
Definition readFile (src : list string) (data : option string) : M string :=
  match data with
  | Some content => ret content
  | None => throw (SystemError "EACCES" src)
  end.

(** [fs.copy(src, dest)] of fs-extra for a source file: refuses a directory
    at [dest], creates the missing parent directories, then copies the
    content over whatever file is at [dest]. *)
Definition copy (src : list string) (data : option string) (dest : list string) : M unit :=
  fun w =>
    if isDirectory w dest then
      (Throws (Error ("Cannot overwrite directory '" +:+ showPath dest
                      +:+ "' with non-directory '" +:+ showPath src +:+ "'.")), w)
    else
      ((if bool_decide (is_Some (entryAt w (dirname dest)))
        then ret () else ensureDir (dirname dest));;
       content ← readFile src data;
       writeFile dest content) w.

(** [fs.readdirSync(p)]: the names of the entries directly below [p]. *)
Definition readdir (w : World) (p : list string) : list string :=
  omap (fun q => if bool_decide (dirname q = p) then last q else None)
       (map fst (map_to_list (files w))).

End Fs.

(** ** The configuration and the template context (src/types/index.ts) *)

Inductive Database := postgresql | mysql | sqlite | mongodb.

Definition Database_eqb (a b : Database) : bool :=
  match a, b with
  | postgresql, postgresql | mysql, mysql | sqlite, sqlite | mongodb, mongodb => true
  | _, _ => false
  end.

(** The string a [Database] value is in JavaScript. *)
Definition databaseName (d : Database) : string :=
  match d with
  | postgresql => "postgresql"
  | mysql => "mysql"
  | sqlite => "sqlite"
  | mongodb => "mongodb"
  end.

Record ProjectConfig := mkProjectConfig {
  name : string;
  description : string;
  author : string;
  version : string;
  license : string;
  typescript : bool;
  database : Database;
  authentication : bool;
  swagger : bool;
  testing : bool;
  docker : bool;
  redis : bool;
  websockets : bool;
  backgroundJobs : bool;
  cors : bool;
  rateLimit : bool;
  monitoring : bool;
  features : list string
}.

Record GeneratorOptions := mkGeneratorOptions {
  projectPath : list string;
  config : ProjectConfig;
  overwrite : option bool     (* [overwrite?: boolean] *)
}.

(** The object [{...config}]. *)
Definition configObject (config : ProjectConfig) : gmap string value :=
  list_to_map
    [ ("name", VStr (name config)); ("description", VStr (description config));
      ("author", VStr (author config)); ("version", VStr (version config));
      ("license", VStr (license config)); ("typescript", VBool (typescript config));
      ("database", VStr (databaseName (database config)));
      ("authentication", VBool (authentication config));
      ("swagger", VBool (swagger config)); ("testing", VBool (testing config));
      ("docker", VBool (docker config)); ("redis", VBool (redis config));
      ("websockets", VBool (websockets config));
      ("backgroundJobs", VBool (backgroundJobs config));
      ("cors", VBool (cors config)); ("rateLimit", VBool (rateLimit config));
      ("monitoring", VBool (monitoring config));
      ("features", VList (features config)) ].

(** Case mapping, on the letters a to z; other characters are kept as they
    are (the mapping of JavaScript for the other letters is not modelled). *)
Definition lowerChar (c : ascii) : ascii :=
  let n := nat_of_ascii c in
  if (65 <=? n) && (n <=? 90) then ascii_of_nat (n + 32) else c.

Definition upperChar (c : ascii) : ascii :=
  let n := nat_of_ascii c in
  if (97 <=? n) && (n <=? 122) then ascii_of_nat (n - 32) else c.

Fixpoint toLowerCase (s : string) : string :=
  match s with
  | EmptyString => EmptyString
  | String c s' => String (lowerChar c) (toLowerCase s')
  end.

(** [s.replace(/\s+/g, '-')]; [inRun] tells that the previous character
    belonged to the run being replaced. *)
Fixpoint hyphenate (inRun : bool) (s : string) : string :=
  match s with
  | EmptyString => EmptyString
  | String c s' =>
      if Js.isSpace c
      then (if inRun then hyphenate true s' else String "-" (hyphenate true s'))
      else String c (hyphenate false s')
  end.

(** [s.replace(/[-\s]+(.)?/g, (_, c) => (c ? c.toUpperCase() : ''))];
    [afterRun] tells that a run of separators ends just before [s]. *)
Fixpoint camelize (afterRun : bool) (s : string) : string :=
  match s with
  | EmptyString => EmptyString
  | String c s' =>
      if Js.isSpace c || Ascii.eqb c "-" then camelize true s'
      else String (if afterRun then upperChar c else c) (camelize false s')
  end.

(** [s.replace(/^./, c => c.toUpperCase())]; the dot matches no line end. *)
Definition capitalize (s : string) : string :=
  match s with
  | String c s' =>
      if Ascii.eqb c "010" || Ascii.eqb c "013" then s else String (upperChar c) s'
  | EmptyString => s
  end.

(** Lines 18-29 of [generateProject]; [year] is [new Date().getFullYear()]. *)
Definition templateContext (config : ProjectConfig) (year : nat) : TemplateContext :=
  <["mongodb" := VBool (Database_eqb (database config) mongodb)]>
  (<["sqlite" := VBool (Database_eqb (database config) sqlite)]>
  (<["mysql" := VBool (Database_eqb (database config) mysql)]>
  (<["postgresql" := VBool (Database_eqb (database config) postgresql)]>
  (<["pascalCase" := VStr (capitalize (camelize false (name config)))]>
  (<["camelCase" := VStr (camelize false (name config))]>
  (<["kebabCase" := VStr (hyphenate false (toLowerCase (name config)))]>
  (<["currentYear" := VStr (Js.ofNat year)]>
  (configObject config)))))))).

(** ** The generator (src/generators) *)

(** [processTemplateFile], lines 56-96. [data] is the content of
    [sourceFile] in the template tree. *)
Definition processTemplateFile (sourceFile : list string) (data : option string)
    (targetDir : list string) (context : TemplateContext) : M unit :=
  let fileName := basename sourceFile in
  let targetFile := pathJoin targetDir (targetFileName fileName context) in
  if Js.endsWith fileName ".mustache" then
    tryCatch
      (templateContent ← Fs.readFile sourceFile data;
       renderedContent ← (fun w => (Mustache.render templateContent context, w));
       Fs.writeFile targetFile renderedContent)
      (fun error =>
         (fun w => (Returns (),
                    mkWorld (files w)
                            (stderr w ++ ["Error processing template: "
                                          +:+ showPath sourceFile])));;
         throw error)
  else Fs.copy sourceFile data targetFile.

(** The body of the loop of [copyTemplate], lines 43-52, for the entry
    [item] of the directory being copied, [node] being what [fs.stat] finds
    at [itemPath]. The inner loop is [copyTemplate] on the sub-directory
    ([copyItem_Directory] below). *)
Fixpoint copyItem (itemPath : list string) (item : string) (node : TemplateNode)
    (targetDir : list string) (context : TemplateContext) {struct node} : M unit :=
  match node with
  | Directory subitems =>
      let targetItemDir := pathJoin targetDir item in
      Fs.ensureDir targetItemDir;;
      (fix copyTemplate (templatesDir : list string)
           (items : list (string * TemplateNode)) (targetDir : list string) : M unit :=
         match items with
         | [] => ret ()
         | (item, node) :: rest =>
             copyItem (pathJoin templatesDir item) item node targetDir context;;
             copyTemplate templatesDir rest targetDir
         end) itemPath subitems targetItemDir
  | Leaf data => processTemplateFile itemPath data targetDir context
  end.

(** [copyTemplate], lines 35-54, on the entries [items] of [templatesDir]. *)
Fixpoint copyTemplate (templatesDir : list string)
    (items : list (string * TemplateNode))
    (targetDir : list string) (context : TemplateContext) : M unit :=
  match items with
  | [] => ret ()
  | (item, node) :: rest =>
      copyItem (pathJoin templatesDir item) item node targetDir context;;
      copyTemplate templatesDir rest targetDir context
  end.

Definition directoryExists (projectPath : list string) : JsError :=
  Error ("Directory " +:+ showPath projectPath
         +:+ " already exists. Use --force to overwrite.").

(** Lines 9-16 of [generateProject]: an existing target is refused, or
    removed when [overwrite] is set; then the target directory is created. *)
Definition prepareTarget (projectPath : list string) (overwrite : bool) : M unit :=
  (exists_ ← Fs.pathExists projectPath;
   if exists_ : bool then
     (if negb overwrite then throw (directoryExists projectPath) else ret ());;
     Fs.remove projectPath
   else ret ());;
  Fs.ensureDir projectPath.

(** [generateProject], lines 6-33. [templatesDir] is the packaged template
    root and [templates] its entries; [year] the current year. *)
Definition generateProject (templatesDir : list string)
    (templates : list (string * TemplateNode)) (year : nat)
    (options : GeneratorOptions) : M unit :=
  let projectPath := projectPath options in
  let config := config options in
  let overwrite := default false (overwrite options) in
  prepareTarget projectPath overwrite;;
  let templateContext := templateContext config year in
  copyTemplate templatesDir templates projectPath templateContext.

(** ** Path validation (src/utils/validation.ts) *)

Record Validation := mkValidation { valid : bool; error : option string }.

(** [validateProjectPath], for an absolute normalized path. *)
Definition validateProjectPath (projectPath : list string) (w : World) : Validation :=
  let absolutePath := projectPath in
  match Fs.entryAt w absolutePath with
  | Some (File _) =>
      mkValidation false (Some "Path exists and is a file, not a directory")
  | Some Dir =>
      if 0 <? length (Fs.readdir w absolutePath)
      then mkValidation false (Some "Directory is not empty")
      else mkValidation true None
  | None => mkValidation true None
  end.

(** ** Notions used in the statements *)

#[global] Instance Database_eq_dec : EqDecision Database.
Proof. solve_decision. Defined.

(** The configuration the command line builds for [--yes]
    (src/cli/index.ts, lines 27-46). *)
Definition defaultConfig (projectName : string) : ProjectConfig :=
  {| name := projectName;
     description := "A production-ready backend API";
     author := "";
     version := "1.0.0";
     license := "MIT";
     typescript := true;
     database := postgresql;
     authentication := true;
     swagger := true;
     testing := true;
     docker := true;
     redis := true;
     websockets := false;
     backgroundJobs := true;
     cors := true;
     rateLimit := true;
     monitoring := true;
     features := [ "authentication"; "swagger"; "testing"; "docker"; "redis";
                   "backgroundJobs"; "cors"; "rateLimit"; "monitoring" ] |}.

Import Mustache.

(** The tokenizer loop with the fuel its input calls for. *)
Definition parseAll (p : Parser) : option (Outcome Parser) :=
  parseLoop (S (String.length (tail (scanner p)))) p.

(** The parser once [hasTag] is set. *)
Definition tagged (p : Parser) : Parser :=
  mkParser (scanner p) (tokens p) (spaces p) true (nonSpace p) (sections p).

Definition noBrace (c : ascii) : bool := negb (Ascii.eqb c "{").

(** The messages of the tokenizer all start with the letter U. *)
Definition tokenizerError (e : JsError) : Prop :=
  exists m, e = Error (String "U" m).

(** The tokens [pushText] pushes for [s], one per character. *)
Fixpoint charTokens (s : string) (start : nat) : list (option Token) :=
  match s with
  | EmptyString => []
  | String c s' =>
      Some (mkToken KText (String c "") start (start + 1))
      :: charTokens s' (start + 1)
  end.

(** No line read so far holds a tag and, besides it, only white space:
    [stripSpace] deletes nothing. *)
Definition quiet (p : Parser) : Prop := hasTag p = false \/ nonSpace p = true.

(** The squashed form of a run of text: nothing, or one text token. *)
Definition isText (s : string) (ts : list Token) : Prop :=
  (s = "" /\ ts = []) \/ (exists a b, ts = [mkToken KText s a b]).

Definition headNotText (acc : list Token) : Prop :=
  match acc with
  | t :: _ => Kind_eqb (tkind t) KText = false
  | [] => True
  end.

(** Tokens that open or close no section nest to themselves. *)
Definition flat (t : Token) : bool :=
  match tkind t with
  | KSection | KInverted | KClose => false
  | _ => true
  end.

(** Whether a value is an array. *)
Definition isList (v : value) : bool :=
  match v with VList _ => true | _ => false end.

(** How often a section on [v] renders its body: once per element of a
    list, once for another truthy value, never for a falsy one. *)
Definition sectionTimes (v : value) : nat :=
  match v with
  | VList l => length l
  | _ => if truthy v then 1 else 0
  end.

(** [w'] keeps every entry of [w] in existence, and every directory a
    directory. *)
Definition extends (w w' : World) : Prop :=
  forall q, (is_Some (files w !! q) -> is_Some (files w' !! q))
            /\ (files w !! q = Some Dir -> files w' !! q = Some Dir).

(** The errors of the libraries: a system error, or a message that starts
    with U (mustache) or C (fs-extra). *)
Definition libraryError (e : JsError) : Prop :=
  match e with
  | SystemError _ _ => True
  | Error (String c _) => c = "U"%char \/ c = "C"%char
  | Error EmptyString => False
  end.

(** A computation that only adds to the file system and throws only
    library errors. *)
Definition conservative {A} (m : M A) : Prop :=
  forall w, extends w (m w).2 /\ forall e, (m w).1 = Throws e -> libraryError e.

(** Induction on template trees, through the entries of a directory. *)
Section TemplateNode_nested_ind.
Variable P : TemplateNode -> Prop.
Hypothesis HLeaf : forall data, P (Leaf data).
Hypothesis HDirectory :
  forall items, Forall (fun entry => P entry.2) items -> P (Directory items).

Fixpoint TemplateNode_nested_ind (node : TemplateNode) : P node :=
  match node with
  | Leaf data => HLeaf data
  | Directory items =>
      HDirectory items
        ((fix each (l : list (string * TemplateNode))
            : Forall (fun entry => P entry.2) l :=
            match l with
            | [] => @List.Forall_nil _ _
            | entry :: l' =>
                @List.Forall_cons _ _ entry l'
                  (TemplateNode_nested_ind entry.2) (each l')
            end) items)
  end.
End TemplateNode_nested_ind.

(** Worlds and trees of the examples. *)
Definition emptyWorld : World := mkWorld ∅ [].

Definition homeWorld : World :=
  mkWorld {[ ["home"] := Dir; ["home"; "app"] := Dir;
             ["home"; "app"; "notes.txt"] := File "keep me" ]} [].

Definition emptyDirWorld : World :=
  mkWorld {[ ["home"] := Dir; ["home"; "app"] := Dir ]} [].

Definition brokenTree : list (string * TemplateNode) :=
  [ ("README.md", Leaf (Some "hello"));
    ("bad.mustache", Leaf (Some "{{#a}}X{{/b}}"));
    ("later.txt", Leaf (Some "never copied")) ].

Definition packageDir : list string := ["pkg"; "templates"].

Definition appOptions (overwrite : option bool) : GeneratorOptions :=
  mkGeneratorOptions ["home"; "app"] (defaultConfig "demo") overwrite.

(** The message of the tokenizer for a section left open. *)
Definition unclosedSection (flag : string) (offset : nat) : JsError :=
  Error ("Unclosed section " +:+ quoted flag +:+ " at " +:+ Js.ofNat offset).

(** ** Project names (src/utils/validation.ts, [sanitizeProjectName]) *)

(** [s.replace(re, rep)] for a regular expression [re] with the flag [g]
    and a replacement string. [re atStart rest] is the length of the match
    of [re] that begins where [rest] begins ([atStart]: at offset 0), if
    there is one. The matches are looked for from left to right, each
    search starting where the previous match ended, and after an empty
    match one character is copied; [skip] counts the characters of the
    current match that are still to be passed. *)
Fixpoint replaceAll (re : bool -> string -> option nat) (rep : string)
    (skip : nat) (atStart : bool) (s : string) {struct s} : string :=
  match skip, s with
  | S skip', String _ s' => replaceAll re rep skip' false s'
  | S _, EmptyString => EmptyString
  | 0, _ =>
      match re atStart s, s with
      | Some (S skip'), String _ s' => rep +:+ replaceAll re rep skip' false s'
      | Some 0, String c s' => rep +:+ String c (replaceAll re rep 0 false s')
      | Some _, EmptyString => rep
      | None, String c s' => String c (replaceAll re rep 0 false s')
      | None, EmptyString => EmptyString
      end
  end.

(** The length of the longest run of characters of a class at the start of
    [s] (a greedy [[...]+]). *)
Fixpoint runLength (class : ascii -> bool) (s : string) : nat :=
  match s with
  | String c s' => if class c then S (runLength class s') else 0
  | EmptyString => 0
  end.

(** The class [[a-z0-9-_.]]: the hyphen after the range [0-9] is literal. *)
Definition nameChar (c : ascii) : bool :=
  let n := nat_of_ascii c in
  ((97 <=? n) && (n <=? 122)) || ((48 <=? n) && (n <=? 57))
  || Ascii.eqb c "-" || Ascii.eqb c "_" || Ascii.eqb c ".".

(** The class [[-.]]. *)
Definition dashOrDot (c : ascii) : bool := Ascii.eqb c "-" || Ascii.eqb c ".".

(** [/[^a-z0-9-_.]/g] *)
Definition invalidCharRe (atStart : bool) (rest : string) : option nat :=
  match rest with
  | String c _ => if nameChar c then None else Some 1
  | EmptyString => None
  end.

(** [/^[-.]+|[-.]+$/g]: the first alternative matches a run at offset 0, the
    second one a run that reaches the end of the input. *)
Definition edgeRunRe (atStart : bool) (rest : string) : option nat :=
  let n := runLength dashOrDot rest in
  if atStart && (0 <? n) then Some n
  else if (0 <? n) && (n =? String.length rest) then Some n
  else None.

(** [/[-.]{2,}/g] *)
Definition longRunRe (atStart : bool) (rest : string) : option nat :=
  let n := runLength dashOrDot rest in
  if 2 <=? n then Some n else None.

(** [sanitizeProjectName], lines 52-58. On 8-bit text a character outside
    ASCII is no character of the class in either case, so that only the
    case mapping of the letters A to Z matters. *)
Definition sanitizeProjectName (name : string) : string :=
  replaceAll longRunRe "-" 0 true
    (replaceAll edgeRunRe "" 0 true
       (replaceAll invalidCharRe "-" 0 true (toLowerCase name))).

(** ** The prompts (src/cli/prompts.ts) *)

Module Prompts.

(** What [inquirer.prompt] resolves to in [collectProjectInfo]: the answer
    to each of the sixteen questions. *)
Record Answers := mkAnswers {
  name : string;
  description : string;
  author : string;
  license : string;
  typescript : bool;
  database : Database;
  authentication : bool;
  swagger : bool;
  testing : bool;
  docker : bool;
  redis : bool;
  websockets : bool;
  backgroundJobs : bool;
  cors : bool;
  rateLimit : bool;
  monitoring : bool
}.

End Prompts.

(** [if (cond) features.push(item)] *)
Definition pushIf (cond : bool) (item : string) (features : list string)
  : list string :=
  if cond then features ++ [item] else features.

(** [collectProjectInfo], lines 124-140: the configuration made of the
    answers. *)
Definition collectProjectInfo (answers : Prompts.Answers) : ProjectConfig :=
  let features := [] in
  let features := pushIf (Prompts.authentication answers) "authentication" features in
  let features := pushIf (Prompts.swagger answers) "swagger" features in
  let features := pushIf (Prompts.testing answers) "testing" features in
  let features := pushIf (Prompts.docker answers) "docker" features in
  let features := pushIf (Prompts.redis answers) "redis" features in
  let features := pushIf (Prompts.websockets answers) "websockets" features in
  let features := pushIf (Prompts.backgroundJobs answers) "backgroundJobs" features in
  let features := pushIf (Prompts.cors answers) "cors" features in
  let features := pushIf (Prompts.rateLimit answers) "rateLimit" features in
  let features := pushIf (Prompts.monitoring answers) "monitoring" features in
  {| name := Prompts.name answers;
     description := Prompts.description answers;
     author := Prompts.author answers;
     version := "1.0.0";
     license := Prompts.license answers;
     typescript := Prompts.typescript answers;
     database := Prompts.database answers;
     authentication := Prompts.authentication answers;
     swagger := Prompts.swagger answers;
     testing := Prompts.testing answers;
     docker := Prompts.docker answers;
     redis := Prompts.redis answers;
     websockets := Prompts.websockets answers;
     backgroundJobs := Prompts.backgroundJobs answers;
     cors := Prompts.cors answers;
     rateLimit := Prompts.rateLimit answers;
     monitoring := Prompts.monitoring answers;
     features := features |}.

(** ** The command line (src/cli/index.ts)

    What the action of the command does to the file system and how the
    process ends. The prompts are taken to resolve, [answers] and [confirm]
    being what the user answers; what is written to the standard output, and
    the spinner, are left out. *)

(** [s.split(sep)] for a separator of one character. *)
Fixpoint split (sep : ascii) (s : string) : list string :=
  match s with
  | EmptyString => [EmptyString]
  | String c s' =>
      if Ascii.eqb c sep then EmptyString :: split sep s'
      else match split sep s' with
           | piece :: pieces => String c piece :: pieces
           | [] => [String c EmptyString]
           end
  end.

(** [path.resolve(p)] of POSIX, [cwd] being the working directory. *)
Definition resolve (cwd : list string) (p : string) : list string :=
  fold_left pathJoin (split "/" p) (if Js.startsWith p "/" then [] else cwd).

(** The options of the command; a flag that is not given is [undefined]. *)
Record CliOptions := mkCliOptions {
  dir : option string;
  force : bool;
  yes : bool
}.

(** The process around the action: its working directory, [chalk.red], and
    the message of a system error. *)
Record Terminal := mkTerminal {
  cwd : list string;
  red : string -> string;
  systemMessage : string -> list string -> string
}.

(** [error.message] *)
Definition messageOf (terminal : Terminal) (e : JsError) : string :=
  match e with
  | Error message => message
  | SystemError code path => systemMessage terminal code path
  end.

(** How the action ends: [process.exit(code)], or by returning. *)
Inductive Ending :=
| Exit (code : nat)
| Finished.

(** [console.error(line)] *)
Definition consoleError (line : string) (w : World) : World :=
  mkWorld (files w) (stderr w ++ [line]).

(** Lines 26-50: the configuration. *)
Definition chosenConfig (answers : Prompts.Answers) (projectName : option string)
    (options : CliOptions) : ProjectConfig :=
  if yes options && negb (String.eqb (default "" projectName) "")
  then defaultConfig (default "" projectName)
  else collectProjectInfo answers.

(** Lines 52-53: [path.resolve(options.dir || config.name)]. *)
Definition chosenPath (terminal : Terminal) (config : ProjectConfig)
    (options : CliOptions) : list string :=
  let targetDir :=
    if negb (String.eqb (default "" (dir options)) "")
    then default "" (dir options) else name config in
  resolve (cwd terminal) targetDir.

(** The action of the command, lines 22-107. *)
Definition action (terminal : Terminal) (templatesDir : list string)
    (templates : list (string * TemplateNode)) (year : nat)
    (answers : Prompts.Answers) (confirm : bool)
    (projectName : option string) (options : CliOptions) : M Ending :=
  fun w =>
    let config := chosenConfig answers projectName options in
    let projectPath := chosenPath terminal config options in
    let pathValidation := validateProjectPath projectPath w in
    if negb (force options) && negb (valid pathValidation) then
      (Returns (Exit 1),
       consoleError (red terminal ("Error: " +:+ default "undefined"
                                                   (error pathValidation))) w)
    else if negb (yes options) && negb confirm then (Returns (Exit 0), w)
    else
      match generateProject templatesDir templates year
              (mkGeneratorOptions projectPath config
                 (if force options then Some true else None)) w with
      | (Returns _, w') => (Returns Finished, w')
      | (Throws e, w') =>
          (Returns (Exit 1), consoleError (red terminal (messageOf terminal e)) w')
      | (Unmodelled, w') => (Unmodelled, w')
      end.

(** ** The template check (validate-templates.js) *)

Module ValidateTemplates.

Record Result := mkResult {
  valid : bool;
  rendered : option nat;
  error : option string;
  position : option string
}.

End ValidateTemplates.

(** [validateTemplate], lines 46-64; [data] is the content of the file at
    [templatePath]. The errors thrown have no [index], so the position
    reported is [unknown]. *)
Definition validateTemplate (message : JsError -> string)
    (templatePath : list string) (data : option string)
    (config : gmap string value) : Outcome ValidateTemplates.Result :=
  let caught (e : JsError) :=
    Returns (ValidateTemplates.mkResult false None (Some (message e))
                                        (Some "unknown")) in
  match data with
  | None => caught (SystemError "EACCES" templatePath)
  | Some content =>
      match parseTemplate content with
      | Throws e => caught e
      | Unmodelled => Unmodelled
      | Returns _ =>
          match render content config with
          | Returns rendered =>
              Returns (ValidateTemplates.mkResult
                         true (Some (String.length rendered)) None None)
          | Throws e => caught e
          | Unmodelled => Unmodelled
          end
      end
  end.

(** ** Notions used in the further statements *)

(** The first, the last character of [s] is a hyphen or a dot. *)
Definition firstSep (s : string) : bool :=
  match s with
  | String c _ => dashOrDot c
  | EmptyString => false
  end.

Fixpoint lastSep (s : string) : bool :=
  match s with
  | EmptyString => false
  | String c EmptyString => dashOrDot c
  | String _ s' => lastSep s'
  end.

(** No hyphen or dot is next to another one. *)
Fixpoint noDouble (s : string) : bool :=
  match s with
  | String c s' => negb (dashOrDot c && firstSep s') && noDouble s'
  | EmptyString => true
  end.

(** The names [sanitizeProjectName] leaves alone: lower-case letters,
    digits, hyphens, underscores and dots, no hyphen or dot at either end
    and no two of them in a row. *)
Definition cleanName (s : string) : bool :=
  Js.allChars nameChar s && negb (firstSep s) && negb (lastSep s) && noDouble s.

(** A letter, a digit or the underscore, whatever the case of the letter. *)
Definition wordChar (c : ascii) : bool :=
  nameChar (lowerChar c) && negb (dashOrDot c).

(** [s] with [f] applied to each of its characters. *)
Fixpoint mapChars (f : ascii -> ascii) (s : string) : string :=
  match s with
  | String c s' => String (f c) (mapChars f s')
  | EmptyString => EmptyString
  end.

(** What the first replacement makes of a character. *)
Definition hyphenated (c : ascii) : ascii := if nameChar c then c else "-"%char.

(** [s] without the run of hyphens and dots it starts with, ends in. *)
Definition stripStart (s : string) : string := Js.drop (runLength dashOrDot s) s.

Fixpoint stripEnd (s : string) : string :=
  match s with
  | EmptyString => EmptyString
  | String c s' => if Js.allChars dashOrDot s then EmptyString else String c (stripEnd s')
  end.

(** The features the prompts ask for, in the order of the questions. *)
Definition featureNames : list string :=
  [ "authentication"; "swagger"; "testing"; "docker"; "redis"; "websockets";
    "backgroundJobs"; "cors"; "rateLimit"; "monitoring" ].

(** The answers of a user who accepts the default of every question after
    answering [name] to the first one. *)
Definition defaultAnswers (name : string) : Prompts.Answers :=
  {| Prompts.name := name;
     Prompts.description := "A production-ready backend API";
     Prompts.author := "";
     Prompts.license := "MIT";
     Prompts.typescript := true;
     Prompts.database := postgresql;
     Prompts.authentication := true;
     Prompts.swagger := true;
     Prompts.testing := true;
     Prompts.docker := true;
     Prompts.redis := true;
     Prompts.websockets := false;
     Prompts.backgroundJobs := true;
     Prompts.cors := true;
     Prompts.rateLimit := true;
     Prompts.monitoring := true |}.




(** What [processTemplateFile] writes for a file: the rendering of a
    template, the content of another file. *)
Definition leafContent (fileName content : string) (context : gmap string value)
  : Outcome string :=
  if Js.endsWith fileName ".mustache" then render content context
  else Returns content.

(** A name that [readdir] can give: not empty, not [.] and not [..]. *)
Definition plainName (s : string) : bool :=
  negb (String.eqb s "" || String.eqb s "." || String.eqb s "..").

(** A template tree as [readdir] gives it: every entry has a plain name. *)
Fixpoint plainTree (node : TemplateNode) : bool :=
  match node with
  | Leaf _ => true
  | Directory items =>
      forallb (fun entry => plainName entry.1 && plainTree entry.2) items
  end.

Definition plainItems (items : list (string * TemplateNode)) : bool :=
  forallb (fun entry => plainName entry.1 && plainTree entry.2) items.

(** The paths a run is to create for the entry [item] of a template
    directory copied to [targetDir], each with whether it is a directory:
    a directory keeps its name, a file gets its target name. *)
Fixpoint outputsOf (item : string) (node : TemplateNode) (targetDir : list string)
    (context : gmap string value) : list (list string * bool) :=
  match node with
  | Leaf _ => [(pathJoin targetDir (targetFileName item context), false)]
  | Directory subitems =>
      (pathJoin targetDir item, true)
      :: flat_map (fun entry => outputsOf entry.1 entry.2 (pathJoin targetDir item)
                                          context) subitems
  end.

Definition outputs (items : list (string * TemplateNode)) (targetDir : list string)
    (context : gmap string value) : list (list string * bool) :=
  flat_map (fun entry => outputsOf entry.1 entry.2 targetDir context) items.

(** The path [output.1] is there, as a directory or as a file. *)
Definition present (output : list string * bool) (w : World) : Prop :=
  if output.2 then Fs.isDirectory w output.1 = true
  else exists data, files w !! output.1 = Some (File data).

(** The directories [mkdirs] passes on its way from [base] down [rest]. *)
Fixpoint onPath (base rest q : list string) : Prop :=
  match rest with
  | [] => False
  | seg :: rest' => q = base ++ [seg] \/ onPath (base ++ [seg]) rest' q
  end.

(** Every directory on the way to [dir] is there. *)
Definition solid (dir : list string) (w : World) : Prop :=
  forall q, q `prefix_of` dir -> q <> [] -> files w !! q = Some Dir.

(** Directories stay directories and files stay files. *)
Definition keeps (w w' : World) : Prop :=
  forall q, (files w !! q = Some Dir -> files w' !! q = Some Dir)
            /\ (forall data, files w !! q = Some (File data) ->
                             exists data', files w' !! q = Some (File data')).

(** A step of the copy into [dir]: it changes nothing outside [dir], keeps
    the kind of every entry, and when it returns the paths [outs] are there. *)
Definition good (dir : list string) (outs : list (list string * bool))
    (m : M unit) : Prop :=
  forall w, solid dir w ->
    (forall q, ¬ dir `prefix_of` q -> files (m w).2 !! q = files w !! q)
    /\ keeps w (m w).2
    /\ ((m w).1 = Returns () -> Forall (fun output => present output (m w).2) outs).

(** Outside [target], [w'] is [w], but for the directories on the way to
    [target] that [w] lacks. *)
Definition sameOutside (target : list string) (w w' : World) : Prop :=
  forall q, ¬ target `prefix_of` q ->
    files w' !! q = files w !! q
    \/ (files w !! q = None /\ files w' !! q = Some Dir /\ q `prefix_of` target).

(** A line feed. *)
Definition newline : string := String "010" "".

(** A terminal without colours, in the directory [/home]. *)
Definition plainTerminal : Terminal :=
  mkTerminal ["home"] (fun text => text)
             (fun code path => code +:+ ": " +:+ showPath path).

Definition sampleTree : list (string * TemplateNode) :=
  [ ("README.md", Leaf (Some "hello"));
    ("src", Directory [ ("_env", Leaf (Some "PORT=3000"));
                        ("app.ts.mustache", Leaf (Some "run();")) ]) ].

(** The keys [generateProject] adds to the configuration. *)
Definition derivedKeys : list string :=
  [ "currentYear"; "kebabCase"; "camelCase"; "pascalCase";
    "postgresql"; "mysql"; "sqlite"; "mongodb" ].

(** * Properties *)

Local Arguments String.append !_ _ / : simpl nomatch.

(** ** Strings *)

Lemma append_empty_r s : s +:+ "" = s.
Proof. induction s; simpl; congruence. Qed.

Lemma drop_length n s : String.length (Js.drop n s) = String.length s - n.
Proof.
  revert s. induction n as [|n IH]; intros [|c s]; simpl; auto with lia.
Qed.

Lemma take_app f s : Js.take (String.length f) (f +:+ s) = f.
Proof. induction f as [|c f IH]; simpl; [destruct s|]; congruence. Qed.

Lemma drop_app f s : Js.drop (String.length f) (f +:+ s) = s.
Proof. induction f as [|c f IH]; simpl; [destruct s|]; congruence. Qed.

Lemma startsWith_app lit s : Js.startsWith (lit +:+ s) lit = true.
Proof.
  induction lit as [|c lit IH]; simpl; [reflexivity|].
  rewrite Ascii.eqb_refl. exact IH.
Qed.

Lemma eqb_empty_false s : String.eqb s "" = false -> s <> "".
Proof. intros H ->. discriminate. Qed.

(** An identifier character is no white space, no tag sigil, no brace and
    no dot. *)
Lemma identChar_plain c :
  identChar c = true ->
  Js.isSpace c = false /\ isTagKind c = false /\ c <> "}"%char /\ c <> "{"%char
  /\ c <> "."%char.
Proof.
  destruct c as [[] [] [] [] [] [] [] []]; vm_compute; intros H;
    try discriminate H; repeat split; discriminate.
Qed.

Lemma identifier_chars f :
  identifier f = true -> Js.allChars identChar f = true /\ f <> "".
Proof.
  unfold identifier. intros H. apply andb_true_iff in H as [H1 H2].
  split; [exact H2|]. intros ->. discriminate.
Qed.

Lemma flagName_chars f : flagName f = true -> Js.allChars identChar f = true.
Proof.
  unfold flagName. intros H. apply andb_true_iff in H as [Hid _].
  apply (identifier_chars f Hid).
Qed.

Lemma identChars_no_dot f :
  Js.allChars identChar f = true -> Js.includes f "." = false.
Proof.
  induction f as [|c f IH]; simpl; [reflexivity|].
  intros H. apply andb_true_iff in H as [Hc Hf].
  destruct (identChar_plain c Hc) as (_ & _ & _ & _ & Hd).
  apply Ascii.eqb_neq in Hd. rewrite Hd, (IH Hf). reflexivity.
Qed.

(** ** The tokenizer throws only its own three messages *)

Lemma registerToken_throws token p e :
  registerToken token p = Throws e -> tokenizerError e.
Proof.
  unfold registerToken. destruct (tkind token); try discriminate.
  simpl. destruct (sections p) as [|o s'].
  - intros [= <-]. eexists. reflexivity.
  - destruct (String.eqb _ _); [discriminate|]. intros [= <-]. eexists. reflexivity.
Qed.

Lemma parseTag_throws start p e :
  parseTag start p = Throws e -> tokenizerError e.
Proof.
  unfold parseTag.
  destruct (scan tagRe _) as [type sc].
  destruct (scan whiteRe sc) as [? sc1].
  destruct (String.eqb type "="); [discriminate|].
  destruct (String.eqb type "{").
  - destruct (scanUntil closingCurlyRe sc1) as [value sc2].
    destruct (scan curlyRe sc2) as [? sc3].
    destruct (scanUntil closingTagRe sc3) as [? sc4].
    destruct (scan closingTagRe sc4) as [closing sc5].
    destruct (String.eqb closing "").
    + intros [= <-]. eexists. reflexivity.
    + apply registerToken_throws.
  - destruct (scanUntil closingTagRe sc1) as [value sc2].
    destruct (scan closingTagRe sc2) as [closing sc5].
    destruct (String.eqb closing "").
    + intros [= <-]. eexists. reflexivity.
    + apply registerToken_throws.
Qed.

Lemma parseLoop_throws fuel p e :
  parseLoop fuel p = Some (Throws e) -> tokenizerError e.
Proof.
  revert p. induction fuel as [|fuel IH]; intros p; simpl.
  - destruct (eos (scanner p)); discriminate.
  - destruct (eos (scanner p)); [discriminate|].
    destruct (scanUntil openingTagRe (scanner p)) as [value sc].
    destruct (pushText value _ _) as [start p1].
    destruct (scan openingTagRe (scanner p1)) as [opening sc1].
    destruct (String.eqb opening ""); [discriminate|].
    destruct (parseTag start _) as [p'|e'|] eqn:E.
    + apply IH.
    + intros [= <-]. eapply parseTag_throws; eauto.
    + discriminate.
Qed.

Lemma parseTemplate_throws template e :
  parseTemplate template = Throws e -> tokenizerError e.
Proof.
  unfold parseTemplate. destruct (String.eqb template ""); [discriminate|].
  destruct (parseLoop _ _) as [[p|e'|]|] eqn:E; try discriminate.
  - destruct (sections (stripSpace p)); [discriminate|].
    intros [= <-]. eexists. reflexivity.
  - intros [= <-]. eapply parseLoop_throws; eauto.
Qed.

Lemma render_throws template view e :
  render template view = Throws e -> tokenizerError e.
Proof.
  unfold render. destruct (parseTemplate template) as [ts|e'|] eqn:E.
  - destruct (renderTokens ts _); discriminate.
  - intros [= <-]. eapply parseTemplate_throws; eauto.
  - discriminate.
Qed.

Lemma tokenizerError_library e : tokenizerError e -> libraryError e.
Proof. intros [m ->]. simpl. left. reflexivity. Qed.

(** ** The tokenizer loop terminates *)

Lemma scan_tail re sc :
  String.length (tail (scan re sc).2) <= String.length (tail sc).
Proof.
  unfold scan. destruct (exec re (tail sc)) as [[[|i] m]|]; simpl; try lia.
  rewrite drop_length. lia.
Qed.

Lemma scan_progress re sc :
  (scan re sc).1 <> "" -> tail sc <> "" ->
  String.length (tail (scan re sc).2) < String.length (tail sc).
Proof.
  unfold scan. destruct (exec re (tail sc)) as [[[|i] m]|]; simpl; try done.
  intros Hm Ht. rewrite drop_length.
  destruct m; [done|]. destruct (tail sc); [done|]. simpl. lia.
Qed.

Lemma scanUntil_tail re sc :
  String.length (tail (scanUntil re sc).2) <= String.length (tail sc).
Proof.
  unfold scanUntil.
  destruct (exec re (tail sc)) as [[[|i] m]|]; cbn [snd tail];
    rewrite ?drop_length; simpl; lia.
Qed.

Lemma pushText_scanner value start p :
  scanner (pushText value start p).2 = scanner p.
Proof.
  revert start p. induction value as [|c value IH]; intros start p; simpl;
    [reflexivity|].
  rewrite IH. destruct (Ascii.eqb c "010"), (Js.isSpace c); reflexivity.
Qed.

Lemma registerToken_scanner token p p' :
  registerToken token p = Returns p' -> scanner p' = scanner p.
Proof.
  unfold registerToken.
  destruct (tkind token); simpl; try (intros [= <-]; reflexivity).
  destruct (sections p); [discriminate|].
  destruct (String.eqb _ _); [|discriminate]. intros [= <-]. reflexivity.
Qed.

Lemma parseTag_tail start p p' :
  parseTag start p = Returns p' ->
  String.length (tail (scanner p')) <= String.length (tail (scanner p)).
Proof.
  unfold parseTag. simpl.
  pose proof (scan_tail tagRe (scanner p)) as H1.
  destruct (scan tagRe (scanner p)) as [type sc].
  pose proof (scan_tail whiteRe sc) as H2.
  destruct (scan whiteRe sc) as [? sc1].
  destruct (String.eqb type "="); [discriminate|].
  destruct (String.eqb type "{").
  - pose proof (scanUntil_tail closingCurlyRe sc1) as H3.
    destruct (scanUntil closingCurlyRe sc1) as [value sc2].
    pose proof (scan_tail curlyRe sc2) as H4.
    destruct (scan curlyRe sc2) as [? sc3].
    pose proof (scanUntil_tail closingTagRe sc3) as H5.
    destruct (scanUntil closingTagRe sc3) as [? sc4].
    pose proof (scan_tail closingTagRe sc4) as H6.
    destruct (scan closingTagRe sc4) as [closing sc5].
    destruct (String.eqb closing ""); [discriminate|].
    intros H. apply registerToken_scanner in H. rewrite H. simpl in *. lia.
  - pose proof (scanUntil_tail closingTagRe sc1) as H3.
    destruct (scanUntil closingTagRe sc1) as [value sc2].
    pose proof (scan_tail closingTagRe sc2) as H6.
    destruct (scan closingTagRe sc2) as [closing sc5].
    destruct (String.eqb closing ""); [discriminate|].
    intros H. apply registerToken_scanner in H. rewrite H. simpl in *. lia.
Qed.

(** A turn of the loop that goes on leaves strictly less input. *)
Lemma parseTag_progress p value sc start p1 opening sc1 p' :
  scanUntil openingTagRe (scanner p) = (value, sc) ->
  pushText value (pos (scanner p)) (setScanner sc p) = (start, p1) ->
  scan openingTagRe (scanner p1) = (opening, sc1) ->
  String.eqb opening "" = false ->
  parseTag start (setScanner sc1 p1) = Returns p' ->
  String.length (tail (scanner p')) < String.length (tail (scanner p)).
Proof.
  intros Huntil Hpush Hscan Hop Htag.
  pose proof (scanUntil_tail openingTagRe (scanner p)) as H1.
  rewrite Huntil in H1.
  pose proof (pushText_scanner value (pos (scanner p)) (setScanner sc p)) as H2.
  rewrite Hpush in H2. simpl in H1, H2.
  pose proof (scan_progress openingTagRe (scanner p1)) as H3.
  rewrite Hscan in H3. simpl in H3.
  apply eqb_empty_false in Hop.
  apply parseTag_tail in Htag. simpl in Htag.
  assert (Hne : tail (scanner p1) <> "").
  { intros Ht. apply Hop. revert Hscan. unfold scan. rewrite Ht. simpl.
    intros [= <- _]. reflexivity. }
  specialize (H3 Hop Hne). rewrite H2 in H3. lia.
Qed.

(** Any fuel above the length of the remaining input gives the same run. *)
Lemma parseLoop_fuel n m p :
  String.length (tail (scanner p)) < n ->
  String.length (tail (scanner p)) < m ->
  parseLoop n p = parseLoop m p.
Proof.
  revert m p. induction n as [|n IH]; intros m p Hn Hm; [lia|].
  destruct m as [|m]; [lia|]. simpl.
  destruct (eos (scanner p)) eqn:Heos; [reflexivity|].
  destruct (scanUntil openingTagRe (scanner p)) as [value sc] eqn:Huntil.
  destruct (pushText value _ _) as [start p1] eqn:Hpush.
  destruct (scan openingTagRe (scanner p1)) as [opening sc1] eqn:Hscan.
  destruct (String.eqb opening "") eqn:Hop; [reflexivity|].
  destruct (parseTag start (setScanner sc1 p1)) as [p'|e|] eqn:E; try reflexivity.
  pose proof (parseTag_progress _ _ _ _ _ _ _ _ Huntil Hpush Hscan Hop E).
  apply IH; lia.
Qed.

(** The fuel [parseTemplate] gives is enough: the loop never runs dry. *)
Lemma parseLoop_total n p :
  String.length (tail (scanner p)) < n -> parseLoop n p <> None.
Proof.
  revert p. induction n as [|n IH]; intros p Hn; [lia|]. simpl.
  destruct (eos (scanner p)) eqn:Heos; [discriminate|].
  destruct (scanUntil openingTagRe (scanner p)) as [value sc] eqn:Huntil.
  destruct (pushText value _ _) as [start p1] eqn:Hpush.
  destruct (scan openingTagRe (scanner p1)) as [opening sc1] eqn:Hscan.
  destruct (String.eqb opening "") eqn:Hop; [discriminate|].
  destruct (parseTag start (setScanner sc1 p1)) as [p'|e|] eqn:E; try discriminate.
  pose proof (parseTag_progress _ _ _ _ _ _ _ _ Huntil Hpush Hscan Hop E).
  apply IH; lia.
Qed.

Lemma parseTemplate_fuel template :
  parseLoop (S (String.length template)) (initialParser template) <> None.
Proof. apply parseLoop_total. simpl. lia. Qed.

(** The loop, unfolded once, whatever the fuel. *)
Lemma parseAll_unfold p :
  parseAll p =
  if eos (scanner p) then Some (Returns p)
  else
    let '(value, sc) := scanUntil openingTagRe (scanner p) in
    let '(start, p1) := pushText value (pos (scanner p)) (setScanner sc p) in
    let '(opening, sc) := scan openingTagRe (scanner p1) in
    if String.eqb opening "" then Some (Returns p1)
    else match parseTag start (setScanner sc p1) with
         | Returns p' => parseAll p'
         | Throws e => Some (Throws e)
         | Unmodelled => Some Unmodelled
         end.
Proof.
  unfold parseAll at 1. cbn [parseLoop].
  destruct (eos (scanner p)) eqn:Heos; [reflexivity|].
  destruct (scanUntil openingTagRe (scanner p)) as [value sc] eqn:Huntil.
  destruct (pushText value _ _) as [start p1] eqn:Hpush.
  destruct (scan openingTagRe (scanner p1)) as [opening sc1] eqn:Hscan.
  destruct (String.eqb opening "") eqn:Hop; [reflexivity|].
  destruct (parseTag start (setScanner sc1 p1)) as [p'|e|] eqn:E; try reflexivity.
  pose proof (parseTag_progress _ _ _ _ _ _ _ _ Huntil Hpush Hscan Hop E).
  apply parseLoop_fuel; lia.
Qed.

Lemma parseAll_eos p : tail (scanner p) = "" -> parseAll p = Some (Returns p).
Proof. intros H. rewrite parseAll_unfold. unfold eos. rewrite H. reflexivity. Qed.

(** ** Scanning a tag whose name is an identifier *)

Lemma scan_match re sc m :
  matchAt re (tail sc) = Some m ->
  scan re sc = (m, mkScanner (Js.drop (String.length m) (tail sc))
                             (pos sc + String.length m)).
Proof.
  intros H. unfold scan. destruct (tail sc); simpl; rewrite H; reflexivity.
Qed.

Lemma scan_nomatch re sc : matchAt re (tail sc) = None -> scan re sc = ("", sc).
Proof.
  intros H. unfold scan.
  destruct (tail sc) as [|c s]; simpl; rewrite H; [reflexivity|].
  destruct (exec re s) as [[i m]|]; reflexivity.
Qed.

Lemma exec_match re s m : matchAt re s = Some m -> exec re s = Some (0, m).
Proof. intros H. destruct s; simpl; rewrite H; reflexivity. Qed.

(** [exec] skips a prefix on whose characters no match can start. *)
Lemma exec_skip re ok f s :
  (forall c s', ok c = true -> matchAt re (String c s') = None) ->
  Js.allChars ok f = true ->
  exec re (f +:+ s) = prod_map (Nat.add (String.length f)) id <$> exec re s.
Proof.
  intros Hre. induction f as [|c f IH]; simpl; intros Hf.
  - destruct (exec re s) as [[i m]|]; reflexivity.
  - apply andb_true_iff in Hf as [Hc Hf]. rewrite (Hre c _ Hc), (IH Hf).
    destruct (exec re s) as [[i m]|]; reflexivity.
Qed.

Lemma scanUntil_skip re ok f s m pos0 :
  (forall c s', ok c = true -> matchAt re (String c s') = None) ->
  Js.allChars ok f = true ->
  matchAt re s = Some m ->
  scanUntil re (mkScanner (f +:+ s) pos0)
  = (f, mkScanner s (pos0 + String.length f)).
Proof.
  intros Hre Hf Hm. unfold scanUntil. cbn [tail pos].
  rewrite (exec_skip re ok f s Hre Hf), (exec_match _ _ _ Hm).
  cbn [fmap option_fmap option_map prod_map fst snd id].
  destruct f as [|c f].
  - simpl. rewrite Nat.add_0_r. reflexivity.
  - change (String.length (String c f) + 0) with (S (String.length f + 0)).
    rewrite Nat.add_0_r.
    change (S (String.length f)) with (String.length (String c f)).
    rewrite take_app, drop_app. reflexivity.
Qed.

Lemma closing_fails lit c s' :
  identChar c = true -> matchAt (SpacesLit (String "}" lit)) (String c s') = None.
Proof.
  intros Hc. destruct (identChar_plain c Hc) as (Hs & _ & Hb & _).
  simpl. rewrite Hs. simpl. apply Ascii.eqb_neq in Hb. rewrite Hb. reflexivity.
Qed.

Lemma closing_matches lit s :
  matchAt (SpacesLit (String "}" lit)) (String "}" lit +:+ s)
  = Some (String "}" lit).
Proof.
  unfold matchAt. change (spaceRun (String "}" lit +:+ s)) with "".
  cbn [String.length Js.drop]. rewrite startsWith_app. reflexivity.
Qed.

Lemma opening_fails c s' :
  noBrace c = true -> matchAt openingTagRe (String c s') = None.
Proof.
  unfold noBrace. intros Hc. simpl. apply negb_true_iff in Hc. rewrite Hc.
  reflexivity.
Qed.

(** A name made of identifier characters is scanned up to its closing tag. *)
Lemma scanUntil_name lit f s pos0 :
  Js.allChars identChar f = true ->
  scanUntil (SpacesLit (String "}" lit))
            (mkScanner (f +:+ String "}" lit +:+ s) pos0)
  = (f, mkScanner (String "}" lit +:+ s) (pos0 + String.length f)).
Proof.
  intros Hf. apply (scanUntil_skip _ identChar f _ (String "}" lit)); auto.
  - intros c s'. apply closing_fails.
  - apply closing_matches.
Qed.

Lemma spaceRun_name f lit s :
  Js.allChars identChar f = true -> spaceRun (f +:+ String "}" lit +:+ s) = "".
Proof.
  destruct f as [|c f]; simpl; [reflexivity|].
  intros H. apply andb_true_iff in H as [Hc _].
  destruct (identChar_plain c Hc) as (Hs & _). rewrite Hs. reflexivity.
Qed.

(** One turn of the loop: literal text without braces, then a tag. *)
Lemma parseAll_tag text body p :
  tail (scanner p) = text +:+ "{{" +:+ body ->
  Js.allChars noBrace text = true ->
  spaceRun body = "" ->
  parseAll p =
    let '(start, p1) :=
      pushText text (pos (scanner p))
               (setScanner (mkScanner ("{{" +:+ body)
                                      (pos (scanner p) + String.length text)) p) in
    match parseTag start
            (setScanner (mkScanner body (pos (scanner p) + String.length text + 2))
                        p1) with
    | Returns p' => parseAll p'
    | Throws e => Some (Throws e)
    | Unmodelled => Some Unmodelled
    end.
Proof.
  intros Hsc Htext Hbody. rewrite parseAll_unfold.
  destruct (scanner p) as [tl pos0] eqn:Escanner. cbn [tail pos] in *. subst tl.
  assert (Heos : eos (mkScanner (text +:+ "{{" +:+ body) pos0) = false).
  { unfold eos. cbn [tail]. destruct text; reflexivity. }
  rewrite Heos.
  assert (Hm : matchAt openingTagRe ("{{" +:+ body) = Some "{{").
  { simpl. rewrite Hbody. reflexivity. }
  rewrite (scanUntil_skip openingTagRe noBrace text _ "{{" pos0 opening_fails
             Htext Hm).
  pose proof (pushText_scanner text pos0
    (setScanner (mkScanner ("{{" +:+ body) (pos0 + String.length text)) p)) as H2.
  destruct (pushText text pos0 _) as [start p1]. simpl in H2.
  rewrite H2. rewrite (scan_match _ _ "{{") by exact Hm.
  reflexivity.
Qed.

(** A tag with a sigil ([#], [^], [/], [&], [>], [!]) and a bare name. *)
Lemma parseTag_sigil c kind f rest start p pos0 :
  isTagKind c = true -> c <> "="%char -> c <> "{"%char ->
  kindOf (String c "") = kind ->
  Js.allChars identChar f = true ->
  scanner p = mkScanner (String c (f +:+ "}}" +:+ rest)) pos0 ->
  parseTag start p =
    registerToken (mkToken kind f start (pos0 + String.length f + 3))
                  (setScanner (mkScanner rest (pos0 + String.length f + 3))
                              (tagged p)).
Proof.
  intros Hk Heq Hcurly <- Hf Hsc. unfold parseTag. cbn [scanner]. rewrite Hsc.
  rewrite (scan_match tagRe _ (String c "")) by (simpl; rewrite Hk; reflexivity).
  cbn [tail pos String.length Js.drop].
  rewrite (scan_match whiteRe _ "")
    by (simpl; f_equal; apply (spaceRun_name f "}" rest Hf)).
  cbn [tail pos String.length Js.drop].
  assert (E1 : String.eqb (String c "") "=" = false).
  { apply String.eqb_neq. congruence. }
  assert (E2 : String.eqb (String c "") "{" = false).
  { apply String.eqb_neq. congruence. }
  rewrite E1, E2.
  rewrite (scanUntil_name "}" f rest _ Hf).
  rewrite (scan_match closingTagRe _ "}}") by apply (closing_matches "}" rest).
  cbn [tail pos String.length Js.drop String.eqb Ascii.eqb].
  simpl (String.eqb "}}" "").
  cbv iota.
  replace (pos0 + 1 + 0 + String.length f + 2) with (pos0 + String.length f + 3)
    by lia.
  reflexivity.
Qed.



(** ** Looking a flag up *)

(** Below any number of pushed strings, a flag is read from the view. *)
Lemma lookup_flag (pushed : list string) (view : gmap string value) f :
  flagName f = true ->
  lookup (map ViewString pushed ++ [ViewObject view]) f = Some (get view f).
Proof.
  unfold flagName. intros H. apply andb_true_iff in H as [Hid Hin].
  apply negb_true_iff in Hin.
  destruct (identifier_chars f Hid) as [Hf Hne].
  unfold lookup.
  destruct f as [|c f]; [done|]. simpl in Hf. apply andb_true_iff in Hf as [Hc Hf].
  destruct (identChar_plain c Hc) as (_ & _ & _ & _ & Hd).
  assert (E : String.eqb (String c f) "." = false).
  { apply String.eqb_neq. intros [= -> _]. done. }
  rewrite E. cbn [dotted]. rewrite (identChars_no_dot f Hf).
  induction pushed as [|x pushed IH]; simpl.
  - unfold get. destruct (view !! String c f); [reflexivity|].
    rewrite Hin. reflexivity.
  - exact IH.
Qed.

Lemma lookup_flag0 (view : gmap string value) f :
  flagName f = true -> lookup [ViewObject view] f = Some (get view f).
Proof. apply (lookup_flag [] view f). Qed.

Lemma lookup_flag1 x (view : gmap string value) f :
  flagName f = true ->
  lookup [ViewString x; ViewObject view] f = Some (get view f).
Proof. apply (lookup_flag [x] view f). Qed.

(** A section whose body renders to a fixed text. *)
Lemma section_const (body : string) (v : value) :
  (if negb (truthy v) then Some ""
   else match v with
        | VList l =>
            (fix each (l0 : list string) : option string :=
               match l0 with
               | [] => Some ""
               | _ :: l' => each l' ≫= λ buffer, Some (body +:+ buffer)
               end) l
        | _ => Some body
        end) = Some (Js.repeat (sectionTimes v) body).
Proof.
  destruct v as [|[]|s|l]; simpl.
  - reflexivity.
  - rewrite append_empty_r. reflexivity.
  - reflexivity.
  - destruct (String.eqb s ""); simpl; rewrite ?append_empty_r; reflexivity.
  - induction l as [|x l IH]; [reflexivity|]. rewrite IH. reflexivity.
Qed.

(** ** Conditional expansion *)

Local Arguments parseAll : simpl never.
Local Arguments parseTag : simpl never.
Local Arguments Js.ofNat : simpl never.

(** The run of [render] on a template that is not empty, as [parseAll]. *)
Ltac start_render :=
  unfold render, parseTemplate;
  change (String.eqb _ "") with false; cbv iota;
  change (parseLoop _ ?p) with (parseAll p).

(** One turn of the loop over the literal [text] and the tag after it. *)
Ltac loop_tag text :=
  erewrite (parseAll_tag text); [ | simpl; reflexivity | reflexivity | reflexivity ];
  simpl.

(** The tag is the sigil [c] with the name [f]. *)
Ltac sigil_tag c kind f Hf :=
  erewrite (parseTag_sigil c kind f);
  [ | reflexivity | discriminate | discriminate | reflexivity | exact Hf
    | simpl; reflexivity ];
  unfold registerToken; simpl; rewrite ?String.eqb_refl; simpl.

(** The two branches on one flag: [B] when the section on it renders
    nothing, else [A] as often as the section renders. *)
Lemma branch_rendering (f : string) (context : gmap string value) :
  flagName f = true ->
  render ("{{#" +:+ f +:+ "}}A{{/" +:+ f +:+ "}}{{^" +:+ f +:+ "}}B{{/" +:+ f +:+ "}}")
         context
  = Returns (if sectionTimes (get context f) =? 0 then "B"
             else Js.repeat (sectionTimes (get context f)) "A").
Proof.
  intros Hflag. pose proof (flagName_chars f Hflag) as Hf.
  start_render.
  loop_tag "". sigil_tag "#"%char KSection f Hf.
  loop_tag "A". sigil_tag "/"%char KClose f Hf.
  loop_tag "". sigil_tag "^"%char KInverted f Hf.
  loop_tag "B". sigil_tag "/"%char KClose f Hf.
  rewrite (lookup_flag0 context f Hflag). simpl.
  pose proof (section_const "A" (get context f)) as HA. simpl in HA.
  destruct (get context f) as [|[]|s|l]; try reflexivity.
  - simpl. destruct (String.eqb s ""); reflexivity.
  - simpl in *. rewrite HA. destruct l as [|x l]; [reflexivity|].
    simpl. rewrite append_empty_r. reflexivity.
Qed.

(** C1 (as amended). For every flag name [f] and every context, the
    template [{{#f}}A{{/f}}{{^f}}B{{/f}}] renders to exactly [A] when
    [context[f]] is truthy and to exactly [B] when it is falsy or absent,
    unless [context[f]] is a list: an empty list renders to [B] and a list
    with elements to one [A] per element. No marker and nothing of the
    other branch is in the output. *)
Theorem branch_exclusivity (f : string) (context : gmap string value) :
  flagName f = true ->
  render ("{{#" +:+ f +:+ "}}A{{/" +:+ f +:+ "}}{{^" +:+ f +:+ "}}B{{/" +:+ f +:+ "}}")
         context
  = Returns (match get context f with
             | VList [] => "B"
             | VList l => Js.repeat (length l) "A"
             | v => if truthy v then "A" else "B"
             end).
Proof.
  intros Hflag. rewrite (branch_rendering f context Hflag).
  destruct (get context f) as [|[]|s|[|x l]]; try reflexivity.
  simpl. destruct (String.eqb s ""); reflexivity.
Qed.

Lemma branch_exclusivity_witness :
  flagName "typescript" = true
  /\ render "{{#typescript}}A{{/typescript}}{{^typescript}}B{{/typescript}}"
            (templateContext (defaultConfig "demo") 2026)
     = Returns "A".
Proof.
  split; [reflexivity|].
  exact (branch_exclusivity "typescript"
           (templateContext (defaultConfig "demo") 2026) eq_refl).
Defined.

(** C1 as stated fails: [features] is truthy in the context of the default
    configuration (an array of nine names), and the branch [A] is rendered
    nine times. *)
Lemma branch_exclusivity_list_counterexample :
  let context := templateContext (defaultConfig "demo") 2026 in
  truthy (get context "features") = true
  /\ render "{{#features}}A{{/features}}{{^features}}B{{/features}}" context
     = Returns "AAAAAAAAA"
  /\ render "{{#features}}A{{/features}}{{^features}}B{{/features}}" context
     <> Returns "A".
Proof. vm_compute. repeat split; discriminate. Qed.

(** A section inside a section: the outer body once per rendering of the
    outer section, the inner body once per rendering of the inner one. *)
Lemma nested_rendering (a b : string) (context : gmap string value) :
  flagName a = true -> flagName b = true ->
  render ("{{#" +:+ a +:+ "}}X{{#" +:+ b +:+ "}}Y{{/" +:+ b +:+ "}}Z{{/" +:+ a +:+ "}}")
         context
  = Returns (Js.repeat (sectionTimes (get context a))
               ("X" +:+ Js.repeat (sectionTimes (get context b)) "Y" +:+ "Z")).
Proof.
  intros Ha Hb.
  pose proof (flagName_chars a Ha) as Hca. pose proof (flagName_chars b Hb) as Hcb.
  start_render.
  loop_tag "". sigil_tag "#"%char KSection a Hca.
  loop_tag "X". sigil_tag "#"%char KSection b Hcb.
  loop_tag "Y". sigil_tag "/"%char KClose b Hcb.
  loop_tag "Z". sigil_tag "/"%char KClose a Hca.
  pose proof (section_const "Y") as HY. simpl in HY.
  rewrite (lookup_flag0 context a Ha). simpl.
  set (inner := "X" +:+ Js.repeat (sectionTimes (get context b)) "Y" +:+ "Z").
  destruct (get context a) as [|[]|s|l]; simpl.
  - reflexivity.
  - rewrite (lookup_flag0 context b Hb). simpl. rewrite HY. simpl.
    rewrite append_empty_r. reflexivity.
  - reflexivity.
  - destruct (String.eqb s ""); simpl; [reflexivity|].
    rewrite (lookup_flag1 s context b Hb). simpl. rewrite HY. simpl.
    rewrite append_empty_r. reflexivity.
  - match goal with
    | |- match ?e ≫= _ with _ => _ end = _ =>
        assert (E : e = Some (Js.repeat (length l) inner))
    end.
    { induction l as [|x l IH]; [reflexivity|].
      rewrite (lookup_flag1 x context b Hb). simpl. rewrite HY. simpl.
      rewrite IH. reflexivity. }
    rewrite E. simpl. rewrite append_empty_r. reflexivity.
Qed.

(** C2 (as amended). For all flag names [a] and [b] and every context, the
    template [{{#a}}X{{#b}}Y{{/b}}Z{{/a}}] renders to [XZ] when [a] is
    truthy and no list and [b] is falsy, and to the empty string when [a]
    is falsy, whatever [b] is. In general the outer body is rendered once
    per rendering of section [a] (once per element when [a] is a list) and
    is [X], then [Y] once per rendering of section [b], then [Z]. *)
Theorem nesting_correctness (a b : string) (context : gmap string value) :
  flagName a = true -> flagName b = true ->
  let output :=
    render ("{{#" +:+ a +:+ "}}X{{#" +:+ b +:+ "}}Y{{/" +:+ b +:+ "}}Z{{/" +:+ a +:+ "}}")
           context in
  (isList (get context a) = false -> truthy (get context a) = true ->
   truthy (get context b) = false -> output = Returns "XZ")
  /\ (truthy (get context a) = false -> output = Returns "")
  /\ output
     = Returns (Js.repeat (sectionTimes (get context a))
                  ("X" +:+ Js.repeat (sectionTimes (get context b)) "Y" +:+ "Z")).
Proof.
  intros Ha Hb output.
  assert (H : output
              = Returns (Js.repeat (sectionTimes (get context a))
                           ("X" +:+ Js.repeat (sectionTimes (get context b)) "Y"
                            +:+ "Z")))
    by apply (nested_rendering a b context Ha Hb).
  split; [|split]; [| |exact H].
  - intros Hl Hta Htb. rewrite H.
    destruct (get context a) as [|[]|s|l]; try discriminate;
      destruct (get context b) as [|[]|s'|l']; try discriminate;
      simpl in *; rewrite ?Hta, ?Htb; reflexivity.
  - intros Hta. rewrite H.
    destruct (get context a) as [|[]|s|l]; try discriminate; try reflexivity.
    simpl in *. rewrite Hta. reflexivity.
Qed.

Lemma nesting_correctness_witness :
  let context : gmap string value := {[ "a" := VBool true; "b" := VBool false ]} in
  flagName "a" = true /\ flagName "b" = true
  /\ isList (get context "a") = false /\ truthy (get context "a") = true
  /\ truthy (get context "b") = false
  /\ render "{{#a}}X{{#b}}Y{{/b}}Z{{/a}}" context = Returns "XZ".
Proof.
  intros context.
  destruct (nesting_correctness "a" "b" context eq_refl eq_refl) as (Hxz & _ & _).
  repeat (split; [reflexivity|]).
  exact (Hxz eq_refl eq_refl eq_refl).
Defined.

(** C2 as stated fails: with [a] a list of two elements (truthy) and [b]
    absent (falsy) the outer body is rendered twice. *)
Lemma nesting_correctness_list_counterexample :
  let context : gmap string value := {[ "a" := VList ["x"; "y"] ]} in
  truthy (get context "a") = true /\ truthy (get context "b") = false
  /\ render "{{#a}}X{{#b}}Y{{/b}}Z{{/a}}" context = Returns "XZXZ"
  /\ render "{{#a}}X{{#b}}Y{{/b}}Z{{/a}}" context <> Returns "XZ".
Proof. vm_compute. repeat split; discriminate. Qed.

(** ** Variable substitution *)

Lemma stripSpace_quiet p :
  quiet p -> tokens (stripSpace p) = tokens p /\ sections (stripSpace p) = sections p
             /\ quiet (stripSpace p).
Proof.
  intros [H|H]; unfold stripSpace; rewrite H; simpl.
  - repeat split. left. reflexivity.
  - rewrite andb_false_r. repeat split. left. reflexivity.
Qed.

Lemma pushText_quiet text : forall start p,
  quiet p ->
  tokens (pushText text start p).2 = tokens p ++ charTokens text start
  /\ sections (pushText text start p).2 = sections p
  /\ quiet (pushText text start p).2.
Proof.
  induction text as [|c text IH]; intros start p Hq; simpl.
  - rewrite app_nil_r. auto.
  - match goal with
    | |- context [pushText text (start + 1) ?q] =>
        assert (Hq' : quiet q /\ tokens q = tokens p ++ [Some (mkToken KText (String c "") start (start + 1))]
                      /\ sections q = sections p)
    end.
    { destruct (Ascii.eqb c "010").
      - match goal with |- quiet (stripSpace ?r) /\ _ => assert (Hr : quiet r) end.
        { destruct (Js.isSpace c); [exact Hq | right; reflexivity]. }
        destruct (stripSpace_quiet _ Hr) as (Ht & Hs & Hq2).
        split; [exact Hq2|]. rewrite Ht, Hs.
        destruct (Js.isSpace c); simpl; auto.
      - destruct (Js.isSpace c); simpl.
        + split; [exact Hq | auto].
        + split; [right; reflexivity | auto]. }
    destruct Hq' as (Hq1 & Ht & Hs).
    destruct (IH (start + 1) _ Hq1) as (IH1 & IH2 & IH3).
    rewrite IH1, IH2, Ht, Hs, <- app_assoc. auto.
Qed.

Lemma append_assoc (a b c : string) : (a +:+ b) +:+ c = a +:+ b +:+ c.
Proof. induction a; simpl; congruence. Qed.

(** The rest of the input holds no tag: it is pushed as text. *)
Lemma parseAll_rest post p :
  Js.allChars noBrace post = true -> quiet p -> tail (scanner p) = post ->
  exists p', parseAll p = Some (Returns p')
             /\ tokens p' = tokens p ++ charTokens post (pos (scanner p))
             /\ sections p' = sections p /\ quiet p'.
Proof.
  intros Hpost Hq Htail. rewrite parseAll_unfold.
  destruct (scanner p) as [tl pos0] eqn:Esc. cbn [tail pos] in *. subst tl.
  destruct post as [|c post].
  - exists p. rewrite app_nil_r. auto.
  - change (eos _) with false. cbv iota.
    assert (Hexec : exec openingTagRe (String c post) = None).
    { rewrite <- (append_empty_r (String c post)).
      rewrite (exec_skip openingTagRe noBrace _ "" opening_fails Hpost).
      reflexivity. }
    unfold scanUntil. cbn [tail pos]. rewrite Hexec.
    pose proof (pushText_scanner (String c post) pos0
      (setScanner (mkScanner "" (pos0 + String.length (String c post))) p)) as H2.
    pose proof (pushText_quiet (String c post) pos0
      (setScanner (mkScanner "" (pos0 + String.length (String c post))) p) Hq)
      as (Ht & Hs & Hq').
    destruct (pushText (String c post) pos0 _) as [start p1]. simpl in H2, Ht, Hs, Hq'.
    rewrite H2. change (scan openingTagRe _) with ("", mkScanner "" (pos0 + String.length (String c post))).
    change (String.eqb "" "") with true. cbv iota.
    exists p1. auto.
Qed.

Lemma fold_chars_text s : forall start v st en acc,
  exists en', fold_left squashStep (charTokens s start) (mkToken KText v st en :: acc)
              = mkToken KText (v +:+ s) st en' :: acc.
Proof.
  induction s as [|c s IH]; intros start v st en acc; simpl.
  - exists en. rewrite append_empty_r. reflexivity.
  - destruct (IH (start + 1) (v +:+ String c "") st (start + 1) acc) as [en' H].
    exists en'. rewrite H. rewrite append_assoc. reflexivity.
Qed.

Lemma fold_chars s start acc :
  headNotText acc ->
  exists ts, isText s ts
             /\ fold_left squashStep (charTokens s start) acc = ts ++ acc.
Proof.
  intros Hacc. destruct s as [|c s].
  - exists []. split; [left; auto | reflexivity].
  - cbn [charTokens fold_left].
    assert (E : squashStep acc (Some (mkToken KText (String c "") start (start + 1)))
                = mkToken KText (String c "") start (start + 1) :: acc).
    { destruct acc as [|t acc]; [reflexivity|]. simpl in *. rewrite Hacc. reflexivity. }
    rewrite E.
    destruct (fold_chars_text s (start + 1) (String c "") start (start + 1) acc)
      as [en' H].
    rewrite H. exists [mkToken KText (String c s) start en'].
    split; [right; eauto | reflexivity].
Qed.



Lemma nest_flat ts : forall c s,
  forallb flat ts = true ->
  fold_left nestStep ts (c, s) = (rev (map Plain ts) ++ c, s).
Proof.
  induction ts as [|t ts IH]; intros c s H; [reflexivity|].
  simpl in H. apply andb_true_iff in H as [Ht Hts].
  cbn [fold_left map rev].
  assert (E : nestStep (c, s) t = (Plain t :: c, s)).
  { unfold nestStep, flat in *. destruct (tkind t); try discriminate; reflexivity. }
  rewrite E, (IH _ _ Hts), <- app_assoc. reflexivity.
Qed.

Lemma nestTokens_flat ts : forallb flat ts = true -> nestTokens ts = map Plain ts.
Proof.
  intros H. unfold nestTokens. rewrite (nest_flat ts [] [] H).
  cbn [fold_left]. rewrite app_nil_r, rev_involutive. reflexivity.
Qed.

Lemma isText_render s ts context :
  isText s ts -> forallb flat ts = true /\ renderTokens (map Plain ts) context = Some s.
Proof.
  intros [[-> ->]|(a & b & ->)]; simpl; [auto|].
  rewrite append_empty_r. auto.
Qed.







(** ** Target-path derivation *)

(** C3. The target name is a function of the source name and the context:
    [app.ts.mustache] gives [app.ts] when [context.typescript] is truthy and
    [app.js] when it is falsy, and [_env.example], which has no template
    suffix, gives [.env.example] in every context. *)
Theorem target_path_derivation (context : gmap string value) :
  targetFileName "app.ts.mustache" context
    = (if truthy (get context "typescript") then "app.ts" else "app.js")
  /\ targetFileName "_env.example" context = ".env.example".
Proof.
  split.
  - unfold targetFileName. simpl Js.endsWith. cbv iota.
    destruct (truthy (get context "typescript")); reflexivity.
  - reflexivity.
Qed.

Example targetFileName_default_config :
  targetFileName "app.ts.mustache" (templateContext (defaultConfig "demo") 2026)
  = "app.ts".
Proof. reflexivity. Qed.

Example targetFileName_first_suffix_only :
  targetFileName "a.mustache.b.mustache" ∅ = "a.b.mustache".
Proof. reflexivity. Qed.

(** ** The template context *)

(** C8. For every configuration and each of the four engines, the context
    built by [generateProject] maps the name of the engine to the boolean
    that tells whether it is the selected one: the selected engine is true
    and the other three are false. *)
Theorem engine_exclusivity (config : ProjectConfig) (year : nat) :
  (forall engine : Database,
      templateContext config year !! databaseName engine
      = Some (VBool (bool_decide (engine = database config))))
  /\ (forall engine : Database,
         templateContext config year !! databaseName engine = Some (VBool true)
         <-> engine = database config).
Proof.
  assert (H : forall engine : Database,
             templateContext config year !! databaseName engine
             = Some (VBool (bool_decide (engine = database config)))).
  { intros engine. unfold templateContext.
    destruct engine, (database config); reflexivity. }
  split; [exact H|].
  intros engine. rewrite H. split.
  - intros [= Hb]. apply bool_decide_eq_true in Hb. exact Hb.
  - intros ->. rewrite bool_decide_eq_true_2; reflexivity.
Qed.

(** ** The file system *)

Lemma bind_run {A B} (m : M A) (k : A -> M B) (w : World) :
  (m ≫= k) w =
  match m w with
  | (Returns a, w') => k a w'
  | (Throws e, w') => (Throws e, w')
  | (Unmodelled, w') => (Unmodelled, w')
  end.
Proof. reflexivity. Qed.


(** What [Fs.remove] leaves: nothing at or below [p], the rest as it was. *)
Lemma without_below p w q :
  p `prefix_of` q -> files (Fs.without p w) !! q = None.
Proof.
  intros Hp. unfold Fs.without. simpl. apply map_lookup_filter_None.
  right. intros x _ Hn. apply Hn. exact Hp.
Qed.

Lemma without_elsewhere p w q :
  ¬ p `prefix_of` q -> files (Fs.without p w) !! q = files w !! q.
Proof.
  intros Hp. unfold Fs.without. simpl.
  destruct (files w !! q) as [x|] eqn:E.
  - apply map_lookup_filter_Some. split; [exact E | exact Hp].
  - apply map_lookup_filter_None. left. exact E.
Qed.

Lemma extends_refl w : extends w w.
Proof. intros q. split; auto. Qed.

Lemma extends_trans w1 w2 w3 : extends w1 w2 -> extends w2 w3 -> extends w1 w3.
Proof.
  intros H12 H23 q. destruct (H12 q) as [A B], (H23 q) as [C D]. split; auto.
Qed.


Lemma extends_isDirectory w w' q :
  extends w w' -> Fs.isDirectory w q = true -> Fs.isDirectory w' q = true.
Proof.
  intros H. unfold Fs.isDirectory. destruct q as [|s q]; simpl; [auto|].
  destruct (files w !! (s :: q)) as [[]|] eqn:E; try discriminate.
  intros _. destruct (H (s :: q)) as [_ HD]. rewrite (HD E). reflexivity.
Qed.

Lemma conservative_ret {A} (a : A) : conservative (mret a).
Proof. intros w. split; [apply extends_refl | discriminate]. Qed.

Lemma conservative_throw {A} e : libraryError e -> conservative (@throw A e).
Proof.
  intros He w. split; [apply extends_refl|]. simpl. intros ? [= <-]. exact He.
Qed.

Lemma conservative_bind {A B} (m : M A) (k : A -> M B) :
  conservative m -> (forall a, conservative (k a)) -> conservative (m ≫= k).
Proof.
  intros Hm Hk w. rewrite bind_run. destruct (Hm w) as [Hext Herr].
  destruct (m w) as [[a|e|] w'] eqn:E; simpl in *.
  - destruct (Hk a w') as [Hext' Herr']. split; [|exact Herr'].
    eapply extends_trans; eauto.
  - split; [exact Hext|]. intros e' [= <-]. apply Herr. reflexivity.
  - split; [exact Hext | discriminate].
Qed.

Lemma conservative_tryCatch {A} (m : M A) (handler : JsError -> M A) :
  conservative m -> (forall e, libraryError e -> conservative (handler e)) ->
  conservative (tryCatch m handler).
Proof.
  intros Hm Hh w. unfold tryCatch. destruct (Hm w) as [Hext Herr].
  destruct (m w) as [[a|e|] w'] eqn:E; simpl in *.
  - split; [exact Hext | discriminate].
  - destruct (Hh e (Herr e eq_refl) w') as [Hext' Herr']. split; [|exact Herr'].
    eapply extends_trans; eauto.
  - split; [exact Hext | discriminate].
Qed.

Lemma mkdirs_extends base rest fs fs' :
  Fs.mkdirs base rest fs = Returns fs' ->
  forall q x, fs !! q = Some x -> fs' !! q = Some x.
Proof.
  revert base fs. induction rest as [|seg rest IH]; intros base fs H q x Hq.
  - simpl in H. injection H as <-. exact Hq.
  - simpl in H.
    destruct (fs !! (base ++ [seg])) as [[data|]|] eqn:E; [discriminate|..];
      apply (IH _ _ H);
      (destruct (decide (base ++ [seg] = q)) as [<-|Hne];
       [rewrite lookup_insert_eq; congruence | rewrite lookup_insert_ne; auto]).
Qed.

Lemma mkdirs_throws base rest fs e :
  Fs.mkdirs base rest fs = Throws e -> libraryError e.
Proof.
  revert base fs. induction rest as [|seg rest IH]; intros base fs H.
  - discriminate.
  - simpl in H.
    destruct (fs !! (base ++ [seg])) as [[data|]|] eqn:E; eauto.
    injection H as <-. exact I.
Qed.

Lemma mkdirs_creates base rest fs fs' :
  Fs.mkdirs base rest fs = Returns fs' -> rest <> [] ->
  fs' !! (base ++ rest) = Some Dir.
Proof.
  revert base fs. induction rest as [|seg rest IH]; intros base fs H Hne; [done|].
  simpl in H.
  assert (Hgo : Fs.mkdirs (base ++ [seg]) rest (<[base ++ [seg] := Dir]> fs)
                = Returns fs').
  { destruct (fs !! (base ++ [seg])) as [[data|]|]; [discriminate|exact H..]. }
  destruct rest as [|seg' rest].
  - simpl in Hgo. injection Hgo as <-. apply lookup_insert_eq.
  - replace (base ++ seg :: seg' :: rest) with ((base ++ [seg]) ++ seg' :: rest)
      by (rewrite <- app_assoc; reflexivity).
    apply (IH _ _ Hgo). discriminate.
Qed.

Lemma ensureDir_conservative p : conservative (Fs.ensureDir p).
Proof.
  intros w. unfold Fs.ensureDir.
  destruct (Fs.mkdirs [] p (files w)) as [fs|e|] eqn:E; simpl.
  - split; [|discriminate]. intros q. split.
    + intros [x Hx]. exists x. eapply mkdirs_extends; eauto.
    + intros Hx. eapply mkdirs_extends; eauto.
  - split; [apply extends_refl|]. intros ? [= <-]. eapply mkdirs_throws; eauto.
  - split; [apply extends_refl | discriminate].
Qed.

Lemma ensureDir_isDirectory p w w' :
  Fs.ensureDir p w = (Returns (), w') -> Fs.isDirectory w' p = true.
Proof.
  unfold Fs.ensureDir.
  destruct (Fs.mkdirs [] p (files w)) as [fs|e|] eqn:E; try discriminate.
  intros [= <-]. unfold Fs.isDirectory. destruct p as [|s p]; [reflexivity|].
  pose proof (mkdirs_creates [] (s :: p) _ _ E) as H. simpl in *.
  rewrite H; [reflexivity | discriminate].
Qed.

Lemma openForWrite_error w p e :
  Fs.openForWrite w p = Some e -> libraryError e.
Proof.
  unfold Fs.openForWrite.
  destruct (Fs.entryAt w p) as [[d|]|]; [| intros [= <-]; exact I |];
    destruct (Fs.entryAt w (dirname p)) as [[d'|]|]; intros [= <-]; exact I.
Qed.

Lemma openForWrite_free w p :
  Fs.openForWrite w p = None -> files w !! p <> Some Dir.
Proof.
  unfold Fs.openForWrite. intros H Hd.
  destruct p as [|s p]; [discriminate|]. simpl in H. rewrite Hd in H.
  discriminate.
Qed.

Lemma writeFile_conservative p data : conservative (Fs.writeFile p data).
Proof.
  intros w. unfold Fs.writeFile.
  destruct (Fs.openForWrite w p) as [e|] eqn:E; simpl.
  - split; [apply extends_refl|]. intros ? [= <-].
    eapply openForWrite_error; eauto.
  - split; [|discriminate]. intros q. unfold Fs.setFiles. simpl.
    destruct (decide (p = q)) as [<-|Hne].
    + rewrite lookup_insert_eq. split; [eauto|].
      intros Hd. destruct (openForWrite_free _ _ E Hd).
    + rewrite lookup_insert_ne by exact Hne. auto.
Qed.

Lemma readFile_conservative src data : conservative (Fs.readFile src data).
Proof.
  destruct data; simpl.
  - apply (conservative_ret s).
  - apply conservative_throw. exact I.
Qed.

Lemma copy_conservative src data dest : conservative (Fs.copy src data dest).
Proof.
  intros w. unfold Fs.copy. destruct (Fs.isDirectory w dest).
  - simpl. split; [apply extends_refl|]. intros ? [= <-]. simpl. right.
    reflexivity.
  - apply conservative_bind.
    + destruct (bool_decide _);
        [apply (conservative_ret ()) | apply ensureDir_conservative].
    + intros _. apply conservative_bind; [apply readFile_conservative|].
      intros content. apply writeFile_conservative.
Qed.

(** ** The materializer *)

Lemma processTemplateFile_conservative sourceFile data targetDir context :
  conservative (processTemplateFile sourceFile data targetDir context).
Proof.
  unfold processTemplateFile. destruct (Js.endsWith _ _).
  - apply conservative_tryCatch.
    + apply conservative_bind; [apply readFile_conservative|]. intros content.
      apply conservative_bind; [|intros; apply writeFile_conservative].
      intros w. simpl. split; [apply extends_refl|].
      intros e He. apply tokenizerError_library. eapply render_throws; eauto.
    + intros e He.
      apply conservative_bind; [|intros; apply conservative_throw; exact He].
      intros w. simpl. split; [|discriminate]. intros q. auto.
  - apply copy_conservative.
Qed.

(** A directory entry is copied by [copyTemplate] on its own entries. *)
Lemma copyItem_Directory itemPath item subitems targetDir context :
  copyItem itemPath item (Directory subitems) targetDir context =
  (Fs.ensureDir (pathJoin targetDir item);;
   copyTemplate itemPath subitems (pathJoin targetDir item) context).
Proof.
  simpl. f_equal.
  generalize (pathJoin targetDir item) as td. generalize itemPath as tp.
  induction subitems as [|[i n] rest IH]; intros; [reflexivity|].
  simpl. rewrite IH. reflexivity.
Qed.


Lemma copyItem_conservative context node :
  forall itemPath item targetDir,
    conservative (copyItem itemPath item node targetDir context).
Proof.
  induction node as [data|items IH] using TemplateNode_nested_ind;
    intros itemPath item targetDir.
  - apply processTemplateFile_conservative.
  - intros w. rewrite copyItem_Directory. revert w.
    apply conservative_bind; [apply ensureDir_conservative|]. intros _.
    generalize (pathJoin targetDir item) as td. generalize itemPath as tp.
    induction IH as [|[i n] rest Hn Hrest IHrest]; intros tp td; simpl.
    + apply (conservative_ret ()).
    + apply conservative_bind; [apply Hn|]. intros _. apply IHrest.
Qed.

Lemma copyTemplate_conservative templatesDir items targetDir context :
  conservative (copyTemplate templatesDir items targetDir context).
Proof.
  induction items as [|[i n] rest IH]; simpl.
  - apply (conservative_ret ()).
  - apply conservative_bind; [apply copyItem_conservative|]. intros _. exact IH.
Qed.

(** A template whose rendering throws: the error is logged with the path of
    the source file and thrown again, and nothing is written. *)
Lemma processTemplateFile_rethrows sourceFile content targetDir context w e :
  Js.endsWith (basename sourceFile) ".mustache" = true ->
  render content context = Throws e ->
  processTemplateFile sourceFile (Some content) targetDir context w
  = (Throws e,
     mkWorld (files w)
             (stderr w ++ ["Error processing template: " +:+ showPath sourceFile])).
Proof.
  intros Hm Hr. unfold processTemplateFile. rewrite Hm.
  unfold tryCatch. rewrite bind_run. cbn [Fs.readFile ret].
  rewrite bind_run. rewrite Hr. reflexivity.
Qed.

(** ** The entry point *)

Lemma prepareTarget_existing p ov w :
  is_Some (Fs.entryAt w p) ->
  prepareTarget p ov w =
  if ov then Fs.ensureDir p (Fs.without p w) else (Throws (directoryExists p), w).
Proof.
  intros Hex. unfold prepareTarget.
  rewrite !bind_run. unfold Fs.pathExists.
  rewrite bool_decide_eq_true_2 by exact Hex.
  destruct ov; reflexivity.
Qed.

Lemma prepareTarget_fresh p ov w :
  Fs.entryAt w p = None -> prepareTarget p ov w = Fs.ensureDir p w.
Proof.
  intros Hex. unfold prepareTarget.
  rewrite !bind_run. unfold Fs.pathExists.
  rewrite bool_decide_eq_false_2; [reflexivity|].
  rewrite Hex. intros [x Hx]. discriminate.
Qed.


Lemma directoryExists_not_library p : ~ libraryError (directoryExists p).
Proof. unfold directoryExists. simpl. intros [H|H]; discriminate. Qed.

(** C4. When the target exists: without [overwrite], [generateProject]
    throws the directory-exists error and the world is the one it started
    in, nothing having been touched; with [overwrite], the target directory
    is created and the templates are materialized in the world from which
    the target and everything below it were removed, the rest of the file
    system being as it was. *)
Theorem overwrite_semantics
    (templatesDir : list string) (templates : list (string * TemplateNode))
    (year : nat) (options : GeneratorOptions) (w : World)
    (Hexists : is_Some (Fs.entryAt w (projectPath options))) :
  generateProject templatesDir templates year options w =
    (if default false (overwrite options)
     then (Fs.ensureDir (projectPath options);;
           copyTemplate templatesDir templates (projectPath options)
                        (templateContext (config options) year))
            (Fs.without (projectPath options) w)
     else (Throws (directoryExists (projectPath options)), w))
  /\ (forall q, projectPath options `prefix_of` q ->
                files (Fs.without (projectPath options) w) !! q = None)
  /\ (forall q, ¬ projectPath options `prefix_of` q ->
                files (Fs.without (projectPath options) w) !! q = files w !! q).
Proof.
  split; [|split].
  - unfold generateProject. rewrite bind_run.
    rewrite (prepareTarget_existing _ _ _ Hexists).
    destruct (default false (overwrite options)); [|reflexivity].
    rewrite bind_run. reflexivity.
  - intros q. apply without_below.
  - intros q. apply without_elsewhere.
Qed.

Lemma overwrite_semantics_witness :
  is_Some (Fs.entryAt homeWorld ["home"; "app"])
  /\ generateProject packageDir brokenTree 2026 (appOptions None) homeWorld
     = (Throws (directoryExists ["home"; "app"]), homeWorld)
  /\ files (Fs.without ["home"; "app"] homeWorld) !! ["home"; "app"; "notes.txt"]
     = None.
Proof.
  assert (Hexists : is_Some (Fs.entryAt homeWorld ["home"; "app"]))
    by (vm_compute; eauto).
  destruct (overwrite_semantics packageDir brokenTree 2026 (appOptions None)
              homeWorld Hexists) as (Hrun & Hbelow & _).
  split; [exact Hexists|]. split; [exact Hrun|].
  apply Hbelow. exists ["notes.txt"]. reflexivity.
Defined.

Example overwrite_replaces_contents :
  let '(outcome, w) :=
    generateProject packageDir [("README.md", Leaf (Some "hello"))] 2026
                    (appOptions (Some true)) homeWorld in
  outcome = Returns ()
  /\ files w !! ["home"; "app"; "notes.txt"] = None
  /\ files w !! ["home"; "app"; "README.md"] = Some (File "hello").
Proof. vm_compute. repeat split. Qed.




(** C9. For a source file whose name does not end in [.mustache], the
    target name is the source name with a leading underscore, if there is
    one, replaced by a dot (the typescript/javascript swap is not applied,
    whatever the context); and when the directory of the target exists and
    the target is not itself a directory, the materializer (the turn of
    the loop of [copyTemplate] for this file, which is
    [processTemplateFile]) returns after writing a file at the target whose
    content is the content of the source, nothing else being changed. *)
Theorem verbatim_copy
    (sourceFile : list string) (content : string) (targetDir : list string)
    (context : gmap string value) (w : World) :
  let fileName := basename sourceFile in
  let targetFile := pathJoin targetDir (targetFileName fileName context) in
  Js.endsWith fileName ".mustache" = false ->
  Fs.isDirectory w (dirname targetFile) = true ->
  Fs.isDirectory w targetFile = false ->
  targetFileName fileName context
    = match fileName with
      | String c rest => if Ascii.eqb c "_" then String "." rest else fileName
      | EmptyString => fileName
      end
  /\ copyItem sourceFile fileName (Leaf (Some content)) targetDir context w
    = (Returns (), Fs.setFiles (<[targetFile := File content]> (files w)) w).
Proof.
  intros fileName targetFile Hplain Hparent Hfree. split.
  - unfold targetFileName. rewrite Hplain.
    destruct fileName as [|c rest]; [reflexivity|]. simpl.
    destruct (Ascii.eqb c "_"); reflexivity.
  - cbn [copyItem]. unfold processTemplateFile. fold fileName. rewrite Hplain. fold targetFile.
    unfold Fs.copy. rewrite Hfree.
    assert (Hex : is_Some (Fs.entryAt w (dirname targetFile))).
    { unfold Fs.isDirectory in Hparent.
      destruct (Fs.entryAt w (dirname targetFile)); [eauto | discriminate]. }
    rewrite bool_decide_eq_true_2 by exact Hex.
    assert (Hopen : Fs.openForWrite w targetFile = None).
    { unfold Fs.openForWrite. unfold Fs.isDirectory in Hparent, Hfree.
      destruct (Fs.entryAt w targetFile) as [[d|]|]; try discriminate;
        destruct (Fs.entryAt w (dirname targetFile)) as [[d'|]|];
        try discriminate; reflexivity. }
    rewrite bind_run. cbn [ret]. rewrite bind_run. cbn [Fs.readFile ret].
    unfold Fs.writeFile. rewrite Hopen. reflexivity.
Qed.

Lemma verbatim_copy_witness :
  let context := templateContext (defaultConfig "demo") 2026 in
  let sourceFile := ["pkg"; "templates"; "_eslintrc.js"] in
  Js.endsWith (basename sourceFile) ".mustache" = false
  /\ Fs.isDirectory emptyDirWorld ["home"; "app"] = true
  /\ Fs.isDirectory emptyDirWorld ["home"; "app"; ".eslintrc.js"] = false
  /\ targetFileName "_eslintrc.js" context = ".eslintrc.js"
  /\ copyItem sourceFile "_eslintrc.js" (Leaf (Some "module.exports = {};"))
              ["home"; "app"] context emptyDirWorld
     = (Returns (),
        Fs.setFiles (<[ ["home"; "app"; ".eslintrc.js"]
                        := File "module.exports = {};" ]> (files emptyDirWorld))
                    emptyDirWorld).
Proof.
  intros context sourceFile.
  assert (H1 : Js.endsWith (basename sourceFile) ".mustache" = false)
    by reflexivity.
  assert (H2 : Fs.isDirectory emptyDirWorld ["home"; "app"] = true)
    by reflexivity.
  assert (H3 : Fs.isDirectory emptyDirWorld ["home"; "app"; ".eslintrc.js"] = false)
    by reflexivity.
  destruct (verbatim_copy sourceFile "module.exports = {};" ["home"; "app"]
              context emptyDirWorld H1 H2 H3) as (Hname & Hrun).
  split; [exact H1|]. split; [exact H2|]. split; [exact H3|].
  split; [exact Hname | exact Hrun].
Defined.

(** C10. Without [overwrite], [generateProject] throws the
    directory-exists error exactly when the target path exists, empty or
    not; [validateProjectPath] accepts an existing directory without
    entries, so such a target passes the validation and is still refused by
    the generator, which leaves the world as it is. *)
Theorem existing_target_rejected
    (templatesDir : list string) (templates : list (string * TemplateNode))
    (year : nat) (options : GeneratorOptions) (w : World) :
  let target := projectPath options in
  default false (overwrite options) = false ->
  ((generateProject templatesDir templates year options w).1
     = Throws (directoryExists target)
   <-> is_Some (Fs.entryAt w target))
  /\ (Fs.entryAt w target = Some Dir -> Fs.readdir w target = [] ->
      validateProjectPath target w = mkValidation true None
      /\ generateProject templatesDir templates year options w
         = (Throws (directoryExists target), w)).
Proof.
  intros target Hov.
  assert (Hrej : is_Some (Fs.entryAt w target) ->
                 generateProject templatesDir templates year options w
                 = (Throws (directoryExists target), w)).
  { intros Hex. unfold generateProject. rewrite bind_run. fold target.
    rewrite (prepareTarget_existing _ _ _ Hex), Hov. reflexivity. }
  split; [split|].
  - intros Hthrow. destruct (Fs.entryAt w target) as [x|] eqn:E; [eauto|].
    exfalso. apply (directoryExists_not_library target).
    unfold generateProject in Hthrow. rewrite bind_run in Hthrow.
    fold target in Hthrow.
    rewrite (prepareTarget_fresh _ _ _ E) in Hthrow.
    rewrite <- bind_run in Hthrow.
    revert Hthrow. apply conservative_bind.
    + apply ensureDir_conservative.
    + intros _. apply copyTemplate_conservative.
  - intros Hex. rewrite (Hrej Hex). reflexivity.
  - intros Hdir Hempty. split.
    + unfold validateProjectPath. rewrite Hdir, Hempty. reflexivity.
    + apply Hrej. rewrite Hdir. eauto.
Qed.

Lemma existing_target_rejected_witness :
  default false (overwrite (appOptions None)) = false
  /\ Fs.entryAt emptyDirWorld ["home"; "app"] = Some Dir
  /\ Fs.readdir emptyDirWorld ["home"; "app"] = []
  /\ validateProjectPath ["home"; "app"] emptyDirWorld = mkValidation true None
  /\ generateProject packageDir brokenTree 2026 (appOptions None) emptyDirWorld
     = (Throws (directoryExists ["home"; "app"]), emptyDirWorld).
Proof.
  assert (H1 : default false (overwrite (appOptions None)) = false)
    by reflexivity.
  assert (H2 : Fs.entryAt emptyDirWorld ["home"; "app"] = Some Dir)
    by reflexivity.
  assert (H3 : Fs.readdir emptyDirWorld ["home"; "app"] = [])
    by (vm_compute; reflexivity).
  destruct (existing_target_rejected packageDir brokenTree 2026 (appOptions None)
              emptyDirWorld H1) as (_ & Hvalid).
  destruct (Hvalid H2 H3) as (Hv & Hrun).
  split; [exact H1|]. split; [exact H2|]. split; [exact H3|].
  split; [exact Hv | exact Hrun].
Defined.

(** ** Unmatched tags *)

(** C6 (as amended). For flag names [a] and [b] that differ, rendering
    [{{#a}}X{{/b}}] throws a plain [Error] with the message
    [Unclosed section "a" at n], [n] being the offset of the closing tag:
    it names the open flag [a] and the offset, not [b] and not the file;
    rendering a template that ends after an unclosed [{{#a}}] throws the
    same kind of error, at the offset of the end of the input. For a
    template file, [processTemplateFile] writes the line
    [Error processing template: <path>] to the console, throws the error
    again unchanged, and writes no file. *)
Theorem unmatched_tag_detection
    (a b : string) (context : gmap string value)
    (sourceFile targetDir : list string) (w : World) :
  let logged :=
    mkWorld (files w)
            (stderr w ++ ["Error processing template: " +:+ showPath sourceFile]) in
  flagName a = true -> flagName b = true -> a <> b ->
  Js.endsWith (basename sourceFile) ".mustache" = true ->
  render ("{{#" +:+ a +:+ "}}X{{/" +:+ b +:+ "}}") context
    = Throws (unclosedSection a (String.length a + 6))
  /\ render ("{{#" +:+ a +:+ "}}") context
    = Throws (unclosedSection a (String.length a + 5))
  /\ processTemplateFile sourceFile (Some ("{{#" +:+ a +:+ "}}X{{/" +:+ b +:+ "}}"))
                         targetDir context w
    = (Throws (unclosedSection a (String.length a + 6)), logged)
  /\ processTemplateFile sourceFile (Some ("{{#" +:+ a +:+ "}}"))
                         targetDir context w
    = (Throws (unclosedSection a (String.length a + 5)), logged).
Proof.
  intros logged Ha Hb Hab Hsuffix.
  pose proof (flagName_chars a Ha) as Hca. pose proof (flagName_chars b Hb) as Hcb.
  apply String.eqb_neq in Hab.
  assert (Hmismatch : render ("{{#" +:+ a +:+ "}}X{{/" +:+ b +:+ "}}") context
                      = Throws (unclosedSection a (String.length a + 6))).
  { start_render.
    loop_tag "". sigil_tag "#"%char KSection a Hca.
    loop_tag "X".
    erewrite (parseTag_sigil "/" KClose b);
      [ | reflexivity | discriminate | discriminate | reflexivity | exact Hcb
        | simpl; reflexivity ].
    unfold registerToken. simpl. rewrite Hab.
    replace (S (S (String.length a + 3 + 1))) with (String.length a + 6) by lia.
    reflexivity. }
  assert (Hopen : render ("{{#" +:+ a +:+ "}}") context
                  = Throws (unclosedSection a (String.length a + 5))).
  { start_render.
    loop_tag "". sigil_tag "#"%char KSection a Hca.
    replace (S (S (String.length a + 3))) with (String.length a + 5) by lia.
    reflexivity. }
  split; [exact Hmismatch|]. split; [exact Hopen|]. split.
  - apply processTemplateFile_rethrows; assumption.
  - apply processTemplateFile_rethrows; assumption.
Qed.

Lemma unmatched_tag_detection_witness :
  let sourceFile := ["pkg"; "templates"; "bad.mustache"] in
  flagName "a" = true /\ flagName "b" = true /\ "a" <> "b"
  /\ Js.endsWith (basename sourceFile) ".mustache" = true
  /\ render "{{#a}}X{{/b}}" ∅ = Throws (unclosedSection "a" 7)
  /\ render "{{#a}}" ∅ = Throws (unclosedSection "a" 6)
  /\ processTemplateFile sourceFile (Some "{{#a}}X{{/b}}") ["home"; "app"] ∅
                         emptyDirWorld
     = (Throws (unclosedSection "a" 7),
        mkWorld (files emptyDirWorld)
                ["Error processing template: /pkg/templates/bad.mustache"]).
Proof.
  intros sourceFile.
  assert (H1 : flagName "a" = true) by reflexivity.
  assert (H2 : flagName "b" = true) by reflexivity.
  assert (H3 : "a" <> "b") by discriminate.
  assert (H4 : Js.endsWith (basename sourceFile) ".mustache" = true)
    by reflexivity.
  destruct (unmatched_tag_detection "a" "b" ∅ sourceFile ["home"; "app"]
              emptyDirWorld H1 H2 H3 H4) as (Hm & Ho & Hp & _).
  split; [exact H1|]. split; [exact H2|]. split; [exact H3|].
  split; [exact H4|]. split; [exact Hm|]. split; [exact Ho | exact Hp].
Defined.

(** C6 as stated fails: the error thrown for [{{#a}}X{{/b}}] is a plain
    [Error] whose message mentions neither the flag [b] nor the file. *)
Lemma unmatched_tag_detection_counterexample :
  let run := processTemplateFile ["pkg"; "templates"; "bad.mustache"]
               (Some "{{#a}}X{{/b}}") ["home"; "app"] ∅ emptyDirWorld in
  let message := "Unclosed section " +:+ quoted "a" +:+ " at 7" in
  run.1 = Throws (Error message)
  /\ Js.includes message "b" = false
  /\ Js.includes message "bad.mustache" = false
  /\ Js.includes message "TemplateSyntaxError" = false.
Proof. vm_compute. repeat split. Qed.

(** * Further properties *)

Lemma replaceAll_skip re rep k b s :
  S k <= String.length s ->
  replaceAll re rep (S k) b s = replaceAll re rep 0 false (Js.drop (S k) s).
Proof.
  revert k b. induction s as [|c s IH]; intros k b Hk; simpl in Hk; [lia|].
  destruct k as [|k]; [reflexivity|].
  cbn [replaceAll Js.drop]. apply IH. lia.
Qed.

(** One turn of the loop, on a pattern that matches no empty string. *)
Lemma replaceAll_step re rep b c s :
  (forall n, re b (String c s) = Some n -> 0 < n <= String.length (String c s)) ->
  replaceAll re rep 0 b (String c s) =
  match re b (String c s) with
  | Some n => rep +:+ replaceAll re rep 0 false (Js.drop n (String c s))
  | None => String c (replaceAll re rep 0 false s)
  end.
Proof.
  intros Hre. cbn [replaceAll].
  destruct (re b (String c s)) as [n|] eqn:E; [|reflexivity].
  destruct (Hre n eq_refl) as [Hpos Hlen]. destruct n as [|n]; [lia|].
  f_equal. destruct n as [|n]; [reflexivity|].
  cbn [Js.drop]. apply replaceAll_skip. simpl in Hlen. lia.
Qed.

Lemma runLength_le class s : runLength class s <= String.length s.
Proof. induction s as [|c s IH]; simpl; [lia|]. destruct (class c); simpl; lia. Qed.

(** *** The first replacement: a character outside the class becomes a hyphen *)

Lemma invalidChar_map b s :
  replaceAll invalidCharRe "-" 0 b s = mapChars hyphenated s.
Proof.
  revert b. induction s as [|c s IH]; intros b; [reflexivity|].
  cbn [replaceAll invalidCharRe mapChars]. unfold hyphenated.
  destruct (nameChar c); simpl; rewrite IH; reflexivity.
Qed.

(** *** The second replacement: the runs at both ends are deleted *)

Lemma runLength_all class s :
  (runLength class s =? String.length s) = Js.allChars class s.
Proof.
  induction s as [|c s IH]; [reflexivity|]. simpl.
  destruct (class c); simpl; [exact IH | reflexivity].
Qed.

Lemma drop_all s : Js.drop (String.length s) s = "".
Proof. induction s as [|c s IH]; [reflexivity | exact IH]. Qed.

Lemma edgeRun_bounds b s n :
  edgeRunRe b s = Some n -> 0 < n <= String.length s.
Proof.
  unfold edgeRunRe. pose proof (runLength_le dashOrDot s) as Hle.
  destruct (b && (0 <? runLength dashOrDot s)) eqn:E1.
  - intros [= <-]. apply andb_true_iff in E1 as [_ E1].
    apply Nat.ltb_lt in E1. lia.
  - destruct ((0 <? runLength dashOrDot s)
              && (runLength dashOrDot s =? String.length s)) eqn:E2;
      [|discriminate].
    intros [= <-]. apply andb_true_iff in E2 as [E2 _].
    apply Nat.ltb_lt in E2. lia.
Qed.

Lemma edgeRun_inside s :
  replaceAll edgeRunRe "" 0 false s = stripEnd s.
Proof.
  induction s as [|c s IH]; [reflexivity|].
  rewrite replaceAll_step by (intros n; apply edgeRun_bounds).
  unfold edgeRunRe. cbn [andb stripEnd]. rewrite runLength_all.
  destruct (Js.allChars dashOrDot (String c s)) eqn:Eall.
  - simpl in Eall. apply andb_true_iff in Eall as [Ec Es].
    cbn [runLength]. rewrite Ec. cbn [Nat.ltb Nat.leb andb].
    rewrite <- runLength_all in Es. apply Nat.eqb_eq in Es. rewrite Es.
    cbn [Js.drop]. rewrite drop_all. reflexivity.
  - rewrite andb_false_r. cbv iota. f_equal. exact IH.
Qed.

Lemma edgeRun_strip s :
  replaceAll edgeRunRe "" 0 true s = stripEnd (stripStart s).
Proof.
  destruct s as [|c s]; [reflexivity|].
  rewrite replaceAll_step by (intros n; apply edgeRun_bounds).
  unfold edgeRunRe, stripStart. cbn [andb runLength].
  destruct (dashOrDot c) eqn:Ec.
  - cbn [Nat.ltb Nat.leb]. simpl String.append. apply edgeRun_inside.
  - cbn [Nat.ltb Nat.leb andb Js.drop stripEnd Js.allChars]. rewrite Ec.
    cbn [andb]. f_equal. apply edgeRun_inside.
Qed.

Lemma firstSep_stripStart s : firstSep (stripStart s) = false.
Proof.
  unfold stripStart. induction s as [|c s IH]; [reflexivity|].
  cbn [runLength]. destruct (dashOrDot c) eqn:Ec; [exact IH|].
  simpl. exact Ec.
Qed.

Lemma stripStart_id s : firstSep s = false -> stripStart s = s.
Proof.
  unfold stripStart. destruct s as [|c s]; [reflexivity|]. simpl.
  intros ->. reflexivity.
Qed.

Lemma allChars_lastSep s :
  Js.allChars dashOrDot s = true -> s <> "" -> lastSep s = true.
Proof.
  induction s as [|c s IH]; [congruence|]. simpl.
  intros H _. apply andb_true_iff in H as [Hc Hs].
  destruct s as [|d s]; [exact Hc|]. apply IH; [exact Hs | discriminate].
Qed.

Lemma lastSep_stripEnd s : lastSep (stripEnd s) = false.
Proof.
  induction s as [|c s IH]; [reflexivity|]. cbn [stripEnd].
  destruct (Js.allChars dashOrDot (String c s)) eqn:Eall; [reflexivity|].
  cbn [lastSep]. destruct (stripEnd s) as [|d t] eqn:Es; [|exact IH].
  destruct (dashOrDot c) eqn:Ec; [|reflexivity].
  simpl in Eall. rewrite Ec in Eall. simpl in Eall.
  clear IH. exfalso. revert Es Eall. clear. induction s as [|d s IH]; [discriminate|].
  cbn [stripEnd]. destruct (Js.allChars dashOrDot (String d s)); [discriminate|].
  discriminate.
Qed.

Lemma stripEnd_id s : lastSep s = false -> stripEnd s = s.
Proof.
  induction s as [|c s IH]; [reflexivity|]. intros Hl. cbn [stripEnd].
  destruct (Js.allChars dashOrDot (String c s)) eqn:Eall.
  - rewrite (allChars_lastSep _ Eall) in Hl; [discriminate|discriminate].
  - f_equal. apply IH. destruct s as [|d s]; [reflexivity|]. exact Hl.
Qed.

Lemma firstSep_stripEnd s : firstSep s = false -> firstSep (stripEnd s) = false.
Proof.
  destruct s as [|c s]; [reflexivity|]. simpl. intros Hc. rewrite Hc. simpl.
  exact Hc.
Qed.

Lemma stripEnd_empty s : stripEnd s = "" <-> Js.allChars dashOrDot s = true.
Proof.
  destruct s as [|c s]; [split; reflexivity|]. cbn [stripEnd].
  destruct (Js.allChars dashOrDot (String c s)); split; congruence.
Qed.

Lemma allChars_drop class n s :
  Js.allChars class s = true -> Js.allChars class (Js.drop n s) = true.
Proof.
  revert n. induction s as [|c s IH]; intros n H; destruct n; try exact H.
  simpl in H. apply andb_true_iff in H as [_ H]. simpl. apply IH. exact H.
Qed.

Lemma allChars_stripEnd class s :
  Js.allChars class s = true -> Js.allChars class (stripEnd s) = true.
Proof.
  induction s as [|c s IH]; [reflexivity|]. intros H. cbn [stripEnd].
  destruct (Js.allChars dashOrDot (String c s)); [reflexivity|].
  simpl in *. apply andb_true_iff in H as [Hc Hs]. rewrite Hc, IH; auto.
Qed.

Lemma allChars_run_drop s :
  Js.allChars dashOrDot (stripStart s) = Js.allChars dashOrDot s.
Proof.
  unfold stripStart. induction s as [|c s IH]; [reflexivity|].
  cbn [runLength]. destruct (dashOrDot c) eqn:Ec.
  - cbn [Js.drop Js.allChars]. rewrite Ec. exact IH.
  - reflexivity.
Qed.

(** *** The third replacement: a run of two or more becomes one hyphen *)

Lemma longRun_bounds b s n : longRunRe b s = Some n -> 0 < n <= String.length s.
Proof.
  unfold longRunRe. pose proof (runLength_le dashOrDot s) as Hle.
  destruct (2 <=? runLength dashOrDot s) eqn:E; [|discriminate].
  intros [= <-]. apply Nat.leb_le in E. lia.
Qed.

Lemma firstSep_run s : firstSep s = (0 <? runLength dashOrDot s).
Proof. destruct s as [|c s]; [reflexivity|]. simpl. destruct (dashOrDot c); reflexivity. Qed.

Lemma longRun_step b c s :
  replaceAll longRunRe "-" 0 b (String c s) =
  if dashOrDot c && firstSep s
  then String "-" (replaceAll longRunRe "-" 0 false (stripStart s))
  else String c (replaceAll longRunRe "-" 0 false s).
Proof.
  rewrite replaceAll_step by (intros n; apply longRun_bounds).
  unfold longRunRe at 1. cbn [runLength]. rewrite firstSep_run.
  destruct (dashOrDot c); [|reflexivity].
  destruct (runLength dashOrDot s) as [|n] eqn:En; [reflexivity|].
  cbn [Nat.leb Nat.ltb andb Js.drop]. unfold stripStart. rewrite En. reflexivity.
Qed.

Lemma stripStart_length s : String.length (stripStart s) <= String.length s.
Proof.
  unfold stripStart. generalize (runLength dashOrDot s) as n.
  induction s as [|c s IH]; intros [|n]; simpl; try lia.
  specialize (IH n). lia.
Qed.

(** Induction on the input of the third replacement. *)
Lemma longRun_ind (P : string -> Prop) :
  P "" ->
  (forall c s, dashOrDot c && firstSep s = true -> P (stripStart s) -> P (String c s)) ->
  (forall c s, dashOrDot c && firstSep s = false -> P s -> P (String c s)) ->
  forall s, P s.
Proof.
  intros H0 Hrun Hone s.
  assert (H : forall n s, String.length s <= n -> P s); [|eapply H; eauto].
  clear s. induction n as [|n IH]; intros [|c s] Hlen; simpl in Hlen;
    try exact H0; try lia.
  destruct (dashOrDot c && firstSep s) eqn:E.
  - apply Hrun; [exact E|]. apply IH. pose proof (stripStart_length s). lia.
  - apply Hone; [exact E|]. apply IH. lia.
Qed.

Lemma longRun_flag b s :
  replaceAll longRunRe "-" 0 b s = replaceAll longRunRe "-" 0 false s.
Proof. destruct s as [|c s]; [reflexivity|]. rewrite !longRun_step. reflexivity. Qed.

Lemma allChars_stripStart class s :
  Js.allChars class s = true -> Js.allChars class (stripStart s) = true.
Proof. apply allChars_drop. Qed.

Lemma longRun_chars s :
  Js.allChars nameChar s = true ->
  Js.allChars nameChar (replaceAll longRunRe "-" 0 false s) = true.
Proof.
  induction s as [|c s E IH|c s E IH] using longRun_ind; [reflexivity|..];
    intros H; rewrite longRun_step, E; simpl in H;
    apply andb_true_iff in H as [Hc Hs]; simpl.
  - apply IH. apply allChars_stripStart. exact Hs.
  - rewrite Hc. apply IH. exact Hs.
Qed.

Lemma longRun_first s :
  firstSep s = false -> firstSep (replaceAll longRunRe "-" 0 false s) = false.
Proof.
  destruct s as [|c s]; [reflexivity|]. intros Hc. simpl in Hc.
  rewrite longRun_step, Hc. exact Hc.
Qed.

Lemma longRun_noDouble s : noDouble (replaceAll longRunRe "-" 0 false s) = true.
Proof.
  induction s as [|c s E IH|c s E IH] using longRun_ind; [reflexivity|..];
    rewrite longRun_step, E; cbn [noDouble]; rewrite IH, andb_true_r.
  - rewrite longRun_first by apply firstSep_stripStart.
    rewrite andb_false_r. reflexivity.
  - destruct (dashOrDot c); [|reflexivity]. simpl in E.
    rewrite longRun_first by exact E. reflexivity.
Qed.

Lemma longRun_empty s : replaceAll longRunRe "-" 0 false s = "" <-> s = "".
Proof.
  destruct s as [|c s]; [split; reflexivity|]. rewrite longRun_step.
  destruct (dashOrDot c && firstSep s); split; discriminate.
Qed.

Lemma lastSep_cons c s : s <> "" -> lastSep (String c s) = lastSep s.
Proof. destruct s; [congruence | reflexivity]. Qed.

Lemma lastSep_drop n s : lastSep (Js.drop n s) = true -> lastSep s = true.
Proof.
  revert n. induction s as [|c s IH]; intros [|n] H; try exact H.
  cbn [Js.drop] in H. destruct s as [|d s].
  - destruct n; discriminate.
  - rewrite lastSep_cons by discriminate. eapply IH. exact H.
Qed.

Lemma stripStart_all s : stripStart s = "" -> Js.allChars dashOrDot s = true.
Proof.
  unfold stripStart. induction s as [|c s IH]; [reflexivity|].
  cbn [runLength]. destruct (dashOrDot c) eqn:Ec; [|discriminate].
  cbn [Js.drop Js.allChars]. rewrite Ec. exact IH.
Qed.

Lemma longRun_last s :
  lastSep (replaceAll longRunRe "-" 0 false s) = true -> lastSep s = true.
Proof.
  induction s as [|c s E IH|c s E IH] using longRun_ind; [discriminate|..];
    rewrite longRun_step, E.
  - apply andb_true_iff in E as [Ec Es].
    assert (Hs : s <> "") by (destruct s; [discriminate | discriminate]).
    rewrite (lastSep_cons c s Hs).
    destruct (replaceAll longRunRe "-" 0 false (stripStart s)) as [|d t] eqn:Er.
    + intros _. apply (proj1 (longRun_empty _)) in Er.
      apply allChars_lastSep; [apply stripStart_all; exact Er | exact Hs].
    + rewrite lastSep_cons by discriminate. intros H.
      apply (lastSep_drop (runLength dashOrDot s)). apply IH. exact H.
  - destruct (replaceAll longRunRe "-" 0 false s) as [|d t] eqn:Er.
    + apply (proj1 (longRun_empty _)) in Er. subst s. exact id.
    + rewrite lastSep_cons by discriminate. intros H.
      assert (Hs : s <> "") by (intros ->; discriminate).
      rewrite lastSep_cons by exact Hs. apply IH. exact H.
Qed.

Lemma longRun_id s :
  noDouble s = true -> replaceAll longRunRe "-" 0 false s = s.
Proof.
  induction s as [|c s IH]; [reflexivity|]. cbn [noDouble]. intros H.
  apply andb_true_iff in H as [Hc Hs]. apply negb_true_iff in Hc.
  rewrite longRun_step, Hc, IH by exact Hs. reflexivity.
Qed.

(** *** The three replacements in a row *)

Lemma sanitize_steps name :
  sanitizeProjectName name =
  replaceAll longRunRe "-" 0 false
    (stripEnd (stripStart (mapChars hyphenated (toLowerCase name)))).
Proof.
  unfold sanitizeProjectName.
  rewrite longRun_flag, edgeRun_strip, invalidChar_map. reflexivity.
Qed.

Lemma hyphenated_chars s : Js.allChars nameChar (mapChars hyphenated s) = true.
Proof.
  induction s as [|c s IH]; [reflexivity|]. simpl. rewrite IH, andb_true_r.
  unfold hyphenated. destruct (nameChar c) eqn:E; [exact E | reflexivity].
Qed.

Lemma sanitize_clean name : cleanName (sanitizeProjectName name) = true.
Proof.
  rewrite sanitize_steps. unfold cleanName.
  set (s := stripEnd (stripStart (mapChars hyphenated (toLowerCase name)))).
  assert (Hchars : Js.allChars nameChar s = true).
  { apply allChars_stripEnd, allChars_stripStart, hyphenated_chars. }
  assert (Hfirst : firstSep s = false).
  { apply firstSep_stripEnd, firstSep_stripStart. }
  assert (Hlast : lastSep s = false) by apply lastSep_stripEnd.
  rewrite longRun_chars, longRun_first, longRun_noDouble by assumption.
  destruct (lastSep (replaceAll longRunRe "-" 0 false s)) eqn:E; [|reflexivity].
  apply longRun_last in E. congruence.
Qed.

Lemma nameChar_lower c : nameChar c = true -> lowerChar c = c.
Proof.
  unfold nameChar, lowerChar. intros H.
  destruct (andb (65 <=? nat_of_ascii c) (nat_of_ascii c <=? 90)) eqn:E;
    [|reflexivity].
  exfalso. apply andb_true_iff in E as [E1 E2].
  apply Nat.leb_le in E1, E2.
  repeat (apply orb_true_iff in H as [H|H]).
  - apply andb_true_iff in H as [H _]. apply Nat.leb_le in H. lia.
  - apply andb_true_iff in H as [_ H]. apply Nat.leb_le in H. lia.
  - apply Ascii.eqb_eq in H. subst c. vm_compute in E1, E2. lia.
  - apply Ascii.eqb_eq in H. subst c. vm_compute in E1, E2. lia.
  - apply Ascii.eqb_eq in H. subst c. vm_compute in E1, E2. lia.
Qed.

Lemma clean_lower s : Js.allChars nameChar s = true -> toLowerCase s = s.
Proof.
  induction s as [|c s IH]; [reflexivity|]. simpl. intros H.
  apply andb_true_iff in H as [Hc Hs]. rewrite nameChar_lower, IH; auto.
Qed.

Lemma clean_hyphenated s :
  Js.allChars nameChar s = true -> mapChars hyphenated s = s.
Proof.
  induction s as [|c s IH]; [reflexivity|]. simpl. intros H.
  apply andb_true_iff in H as [Hc Hs]. unfold hyphenated at 1.
  rewrite Hc, IH; auto.
Qed.

Lemma clean_fixed s : cleanName s = true -> sanitizeProjectName s = s.
Proof.
  unfold cleanName. intros H.
  apply andb_true_iff in H as [H Hd]. apply andb_true_iff in H as [H Hl].
  apply andb_true_iff in H as [Hc Hf].
  apply negb_true_iff in Hl, Hf.
  rewrite sanitize_steps, clean_lower, clean_hyphenated by exact Hc.
  rewrite stripStart_id, stripEnd_id by assumption.
  apply longRun_id. exact Hd.
Qed.

(** X1. Whatever the input, the name [sanitizeProjectName] returns is made
    of lower-case letters, digits, hyphens, underscores and dots only, has
    no hyphen or dot at either end, and has no two of them in a row. *)
Theorem sanitizeProjectName_clean (name : string) :
  let result := sanitizeProjectName name in
  Js.allChars nameChar result = true
  /\ firstSep result = false /\ lastSep result = false
  /\ noDouble result = true.
Proof.
  intros result. pose proof (sanitize_clean name) as H. fold result in H.
  unfold cleanName in H.
  apply andb_true_iff in H as [H Hd]. apply andb_true_iff in H as [H Hl].
  apply andb_true_iff in H as [Hc Hf]. apply negb_true_iff in Hl, Hf.
  auto.
Qed.

(** X2. [sanitizeProjectName] returns its argument exactly when the
    argument is such a name already; applying it a second time therefore
    changes nothing. *)
Theorem sanitizeProjectName_idempotent (name : string) :
  (sanitizeProjectName name = name <-> cleanName name = true)
  /\ sanitizeProjectName (sanitizeProjectName name) = sanitizeProjectName name.
Proof.
  split; [split|].
  - intros H. rewrite <- H. apply sanitize_clean.
  - apply clean_fixed.
  - apply clean_fixed, sanitize_clean.
Qed.

Lemma dashOrDot_lower c : dashOrDot (lowerChar c) = dashOrDot c.
Proof. destruct c as [[] [] [] [] [] [] [] []]; reflexivity. Qed.

Lemma hyphenated_sep c :
  dashOrDot (hyphenated (lowerChar c)) = negb (wordChar c).
Proof.
  unfold wordChar, hyphenated.
  destruct (nameChar (lowerChar c)) eqn:E.
  - simpl. rewrite negb_involutive. apply dashOrDot_lower.
  - reflexivity.
Qed.

Lemma hyphenated_all s :
  Js.allChars dashOrDot (mapChars hyphenated (toLowerCase s))
  = Js.allChars (fun c => negb (wordChar c)) s.
Proof.
  induction s as [|c s IH]; [reflexivity|]. simpl.
  rewrite hyphenated_sep, IH. reflexivity.
Qed.

(** X3. [sanitizeProjectName] returns the empty string exactly for the
    inputs that hold no letter, no digit and no underscore. *)
Theorem sanitizeProjectName_empty (name : string) :
  sanitizeProjectName name = ""
  <-> Js.allChars (fun c => negb (wordChar c)) name = true.
Proof.
  rewrite sanitize_steps, longRun_empty, stripEnd_empty, allChars_run_drop.
  rewrite hyphenated_all. reflexivity.
Qed.

Lemma pushIf_app cond item features :
  pushIf cond item features = features ++ (if cond then [item] else []).
Proof. destruct cond; [reflexivity | symmetry; apply app_nil_r]. Qed.

(** One step of [filter] on a name whose flag reads [b] in the context. *)
Lemma filter_flag (context : gmap string value) (b : bool) f l :
  get context f = VBool b ->
  filter (fun f => truthy (get context f) = true) (f :: l)
  = (if b then [f] else []) ++ filter (fun f => truthy (get context f) = true) l.
Proof.
  intros Hf. rewrite filter_cons. rewrite Hf. cbn [truthy].
  destruct b; [rewrite decide_True by reflexivity | rewrite decide_False by discriminate];
    reflexivity.
Qed.

(** X4. The list [features] that [collectProjectInfo] builds holds, in the
    order of the questions and without repetition, exactly the features
    whose flag is true in the template context made of the configuration;
    the version is 1.0.0 whatever the answers. *)
Theorem collectProjectInfo_features (answers : Prompts.Answers) (year : nat) :
  let config := collectProjectInfo answers in
  features config
  = filter (fun f => truthy (get (templateContext config year) f) = true)
           featureNames
  /\ NoDup (features config)
  /\ version config = "1.0.0".
Proof.
  intros config.
  assert (H : features config
              = filter (fun f => truthy (get (templateContext config year) f) = true)
                       featureNames).
  { subst config. destruct answers as [n d a l ts db f1 f2 f3 f4 f5 f6 f7 f8 f9 f10].
    unfold collectProjectInfo, featureNames.
    cbn [features Prompts.authentication Prompts.swagger Prompts.testing
         Prompts.docker Prompts.redis Prompts.websockets Prompts.backgroundJobs
         Prompts.cors Prompts.rateLimit Prompts.monitoring].
    rewrite !pushIf_app.
    repeat (erewrite filter_flag; [|reflexivity]).
    rewrite filter_nil, app_nil_r, <- !app_assoc. reflexivity. }
  split; [exact H|]. split; [|reflexivity].
  rewrite H. apply NoDup_filter.
  apply (bool_decide_unpack (NoDup featureNames)). vm_compute. exact I.
Qed.



(** ** The command line *)

Lemma validateProjectPath_files p w w' :
  files w' = files w -> validateProjectPath p w' = validateProjectPath p w.
Proof.
  intros H. unfold validateProjectPath, Fs.readdir, Fs.entryAt. rewrite H.
  reflexivity.
Qed.

Lemma generateProject_existing templatesDir templates year p config w :
  is_Some (Fs.entryAt w p) ->
  generateProject templatesDir templates year (mkGeneratorOptions p config None) w
  = (Throws (directoryExists p), w).
Proof.
  intros Hex. unfold generateProject. rewrite bind_run. simpl projectPath.
  rewrite (prepareTarget_existing _ _ _ Hex). reflexivity.
Qed.

(** Without [--force], on a target that exists. *)
Lemma action_existing terminal templatesDir templates year answers confirm
    projectName options w :
  let config := chosenConfig answers projectName options in
  let target := chosenPath terminal config options in
  force options = false -> is_Some (Fs.entryAt w target) ->
  action terminal templatesDir templates year answers confirm projectName options w
  = if negb (valid (validateProjectPath target w)) then
      (Returns (Exit 1),
       consoleError (red terminal ("Error: " +:+ default "undefined"
                       (error (validateProjectPath target w)))) w)
    else if negb (yes options) && negb confirm then (Returns (Exit 0), w)
    else (Returns (Exit 1),
          consoleError (red terminal (messageOf terminal (directoryExists target))) w).
Proof.
  intros config target Hforce Hex. unfold action. fold config. fold target.
  rewrite Hforce. cbn [negb andb].
  destruct (valid (validateProjectPath target w)); [|reflexivity]. cbn [negb].
  destruct (negb (yes options) && negb confirm); [reflexivity|].
  rewrite generateProject_existing by exact Hex. reflexivity.
Qed.

(** X6. Without [--force], a run whose target path exists, whatever is
    there, writes nothing: it ends by [process.exit], the files being as
    they were. The exit code is 1, unless the target is an empty directory
    and the user declines the confirmation, in which case it is 0; so an
    empty directory, which the validation accepts, is refused all the same
    by the generator. *)
Theorem cli_refuses_existing_target
    (terminal : Terminal) (templatesDir : list string)
    (templates : list (string * TemplateNode)) (year : nat)
    (answers : Prompts.Answers) (confirm : bool)
    (projectName : option string) (options : CliOptions) (w : World) :
  let config := chosenConfig answers projectName options in
  let target := chosenPath terminal config options in
  force options = false -> is_Some (Fs.entryAt w target) ->
  exists code w',
    action terminal templatesDir templates year answers confirm projectName
           options w = (Returns (Exit code), w')
    /\ files w' = files w
    /\ (code = 1
        \/ (code = 0 /\ yes options = false /\ confirm = false
            /\ validateProjectPath target w = mkValidation true None)).
Proof.
  intros config target Hforce Hex.
  pose proof (action_existing terminal templatesDir templates year answers
                confirm projectName options w Hforce Hex) as Hrun.
  fold config in Hrun. fold target in Hrun. rewrite Hrun.
  destruct (valid (validateProjectPath target w)) eqn:Ev; cbn [negb].
  - destruct (yes options) eqn:Ey, confirm eqn:Ec; cbn [negb andb];
      eexists _, _; (split; [reflexivity|]); (split; [reflexivity|]); auto.
    right. repeat (split; [reflexivity|]).
    revert Ev. unfold validateProjectPath.
    destruct (Fs.entryAt w target) as [[d|]|]; try discriminate;
      [destruct (0 <? _); [discriminate|]|]; reflexivity.
  - eexists _, _. split; [reflexivity|]. split; [reflexivity|]. auto.
Qed.

Lemma cli_refuses_existing_target_witness :
  let options := mkCliOptions None false true in
  force options = false
  /\ is_Some (Fs.entryAt emptyDirWorld ["home"; "app"])
  /\ exists code w',
       action plainTerminal packageDir brokenTree 2026 (defaultAnswers "app") true
              (Some "app") options emptyDirWorld = (Returns (Exit code), w')
       /\ files w' = files emptyDirWorld
       /\ (code = 1
           \/ (code = 0 /\ yes options = false /\ true = false
               /\ validateProjectPath ["home"; "app"] emptyDirWorld
                  = mkValidation true None)).
Proof.
  intros options.
  assert (H1 : force options = false) by reflexivity.
  assert (H2 : is_Some (Fs.entryAt emptyDirWorld ["home"; "app"]))
    by (vm_compute; eauto).
  split; [exact H1|]. split; [exact H2|].
  exact (cli_refuses_existing_target plainTerminal packageDir brokenTree 2026
           (defaultAnswers "app") true (Some "app") options emptyDirWorld H1 H2).
Defined.

(** X7. When the user declines the confirmation, nothing is generated: the
    process exits and the files are as they were. The exit code is 0 when
    [--force] is given or the validation of the target passes, and 1 when
    the validation fails. *)
Theorem cli_declined
    (terminal : Terminal) (templatesDir : list string)
    (templates : list (string * TemplateNode)) (year : nat)
    (answers : Prompts.Answers) (projectName : option string)
    (options : CliOptions) (w : World) :
  let config := chosenConfig answers projectName options in
  let target := chosenPath terminal config options in
  yes options = false ->
  exists code w',
    action terminal templatesDir templates year answers false projectName
           options w = (Returns (Exit code), w')
    /\ files w' = files w
    /\ (code = 0 /\ w' = w
        /\ (force options = true \/ valid (validateProjectPath target w) = true)
        \/ code = 1 /\ force options = false
           /\ valid (validateProjectPath target w) = false).
Proof.
  intros config target Hyes. unfold action. fold config. fold target.
  rewrite Hyes. cbn [negb andb].
  destruct (force options), (valid (validateProjectPath target w));
    cbn [negb andb]; eexists _, _; (split; [reflexivity|]);
    (split; [reflexivity|]); auto.
Qed.

Lemma cli_declined_witness :
  let options := mkCliOptions None true false in
  yes options = false
  /\ exists code w',
       action plainTerminal packageDir brokenTree 2026 (defaultAnswers "app") false
              None options homeWorld = (Returns (Exit code), w')
       /\ files w' = files homeWorld
       /\ (code = 0 /\ w' = homeWorld
           /\ (force options = true
               \/ valid (validateProjectPath ["home"; "app"] homeWorld) = true)
           \/ code = 1 /\ force options = false
              /\ valid (validateProjectPath ["home"; "app"] homeWorld) = false).
Proof.
  intros options. split; [reflexivity|].
  exact (cli_declined plainTerminal packageDir brokenTree 2026
           (defaultAnswers "app") None options homeWorld eq_refl).
Defined.

Lemma entryAt_files w w' p :
  files w' = files w -> Fs.entryAt w' p = Fs.entryAt w p.
Proof. intros H. unfold Fs.entryAt. rewrite H. reflexivity. Qed.

Lemma ensureDir_files p w w' :
  files w' = files w ->
  (Fs.ensureDir p w').1 = (Fs.ensureDir p w).1
  /\ files (Fs.ensureDir p w').2 = files (Fs.ensureDir p w).2.
Proof.
  intros H. unfold Fs.ensureDir. rewrite H.
  destruct (Fs.mkdirs [] p (files w)); simpl; auto.
Qed.

Lemma ensureDir_throws p w e w' :
  Fs.ensureDir p w = (Throws e, w') -> w' = w.
Proof.
  unfold Fs.ensureDir. destruct (Fs.mkdirs [] p (files w)); congruence.
Qed.

(** X8. Without [--force], a run that is not declined and exits with code 1
    is followed by the same failure: the same command, run again on the
    files the first run left, exits with code 1 again and changes no file.
    A target that a failed generation left behind is refused, so the
    command cannot succeed before the target is removed or [--force] is
    given. *)
Theorem cli_failure_repeats
    (terminal : Terminal) (templatesDir : list string)
    (templates : list (string * TemplateNode)) (year : nat)
    (answers : Prompts.Answers) (confirm : bool)
    (projectName : option string) (options : CliOptions) (w w1 : World) :
  force options = false ->
  yes options = true \/ confirm = true ->
  action terminal templatesDir templates year answers confirm projectName
         options w = (Returns (Exit 1), w1) ->
  exists w2,
    action terminal templatesDir templates year answers confirm projectName
           options w1 = (Returns (Exit 1), w2)
    /\ files w2 = files w1.
Proof.
  intros Hforce Hgo Hrun.
  set (cfg := chosenConfig answers projectName options) in *.
  set (target := chosenPath terminal cfg options) in *.
  assert (Hdecl : negb (yes options) && negb confirm = false).
  { destruct Hgo as [-> | ->]; [reflexivity | apply andb_false_r]. }
  (* the second run, when the target exists by then *)
  assert (Hthere : forall w', is_Some (Fs.entryAt w' target) ->
            exists w2,
              action terminal templatesDir templates year answers confirm
                     projectName options w' = (Returns (Exit 1), w2)
              /\ files w2 = files w').
  { intros w' Hex.
    pose proof (action_existing terminal templatesDir templates year answers
                  confirm projectName options w' Hforce Hex) as H.
    fold cfg in H. fold target in H. rewrite H, Hdecl.
    destruct (negb (valid (validateProjectPath target w')));
      eexists; split; reflexivity. }
  destruct (Fs.entryAt w target) as [x|] eqn:Eentry.
  - (* the target was there before the first run *)
    destruct (Hthere w ltac:(rewrite Eentry; eauto)) as (w2 & Hw2 & Hfiles).
    rewrite Hw2 in Hrun. injection Hrun as <-.
    apply Hthere. rewrite (entryAt_files w); [rewrite Eentry; eauto | exact Hfiles].
  - unfold action in Hrun. fold cfg in Hrun. fold target in Hrun.
    rewrite Hforce, Hdecl in Hrun. cbn [negb andb] in Hrun.
    assert (Hvalid : valid (validateProjectPath target w) = true).
    { unfold validateProjectPath. rewrite Eentry. reflexivity. }
    rewrite Hvalid in Hrun. cbv iota in Hrun. cbn [negb] in Hrun. cbv iota in Hrun.
    unfold generateProject in Hrun. rewrite bind_run in Hrun.
    cbn [projectPath overwrite config default] in Hrun.
    rewrite (prepareTarget_fresh _ _ _ Eentry) in Hrun.
    destruct (Fs.ensureDir target w) as [[[]|e|] w0] eqn:Edir.
    + (* the target was created, and a template failed *)
      pose proof (copyTemplate_conservative templatesDir templates target
                    (templateContext cfg year) w0) as [Hext _].
      destruct (copyTemplate templatesDir templates target
                  (templateContext cfg year) w0) as [[[]|e|] w'] eqn:Ecopy;
        try discriminate.
      injection Hrun as <-. apply Hthere.
      assert (Hd : Fs.isDirectory w' target = true).
      { eapply extends_isDirectory; [exact Hext|].
        eapply ensureDir_isDirectory. exact Edir. }
      unfold Fs.isDirectory in Hd.
      rewrite (entryAt_files w') by reflexivity.
      destruct (Fs.entryAt w' target); [eauto | discriminate].
    + (* the target could not be created: nor can it the second time *)
      injection Hrun as <-. apply ensureDir_throws in Edir as Hw0. subst w0.
      set (w1 := consoleError (red terminal (messageOf terminal e)) w).
      assert (Hfiles : files w1 = files w) by reflexivity.
      unfold action. fold cfg. fold target.
      rewrite Hforce, Hdecl. cbn [negb andb].
      rewrite (validateProjectPath_files target w w1 Hfiles), Hvalid.
      cbv iota. cbn [negb]. cbv iota.
      unfold generateProject. rewrite bind_run.
      cbn [projectPath overwrite config default].
      rewrite prepareTarget_fresh
        by (rewrite (entryAt_files w); [exact Eentry | exact Hfiles]).
      destruct (ensureDir_files target w w1 Hfiles) as [Ho Hf].
      rewrite Edir in Ho, Hf. simpl in Ho, Hf.
      destruct (Fs.ensureDir target w1) as [o1 w2] eqn:Edir1. simpl in Ho, Hf.
      subst o1. eexists. split; [reflexivity|]. simpl. exact Hf.
    + discriminate.
Qed.

Lemma cli_failure_repeats_witness :
  let options := mkCliOptions None false true in
  let run := action plainTerminal packageDir brokenTree 2026 (defaultAnswers "demo")
                    true (Some "demo") options in
  force options = false
  /\ run emptyWorld = (Returns (Exit 1), (run emptyWorld).2)
  /\ files (run emptyWorld).2 !! ["home"; "demo"; "README.md"] = Some (File "hello")
  /\ exists w2, run (run emptyWorld).2 = (Returns (Exit 1), w2)
                /\ files w2 = files (run emptyWorld).2.
Proof.
  intros options run.
  assert (H1 : force options = false) by reflexivity.
  assert (H2 : run emptyWorld = (Returns (Exit 1), (run emptyWorld).2))
    by reflexivity.
  split; [exact H1|]. split; [exact H2|]. split; [reflexivity|].
  exact (cli_failure_repeats plainTerminal packageDir brokenTree 2026
           (defaultAnswers "demo") true (Some "demo") options emptyWorld
           (run emptyWorld).2 H1 (or_introl eq_refl) H2).
Defined.

(** ** The template check *)

Lemma render_throws_parse template view e :
  render template view = Throws e -> parseTemplate template = Throws e.
Proof.
  unfold render. destruct (parseTemplate template) as [tokens|e'|];
    [|congruence|discriminate].
  destruct (renderTokens tokens [ViewObject view]); discriminate.
Qed.

(** X9. The verdict of [validateTemplate] on a template does not depend on
    the configuration it is rendered with: two checks of the same file that
    both come to a result agree on whether the template is valid and on the
    error message. *)
Theorem validateTemplate_any_config
    (message : JsError -> string) (templatePath : list string)
    (data : option string) (config1 config2 : gmap string value)
    (result1 result2 : ValidateTemplates.Result) :
  validateTemplate message templatePath data config1 = Returns result1 ->
  validateTemplate message templatePath data config2 = Returns result2 ->
  ValidateTemplates.valid result1 = ValidateTemplates.valid result2
  /\ ValidateTemplates.error result1 = ValidateTemplates.error result2
  /\ ValidateTemplates.position result1 = ValidateTemplates.position result2.
Proof.
  unfold validateTemplate. destruct data as [content|].
  - destruct (parseTemplate content) as [tokens|e|] eqn:Eparse.
    + destruct (render content config1) as [r1|e1|] eqn:E1;
        [|apply render_throws_parse in E1; congruence|discriminate].
      destruct (render content config2) as [r2|e2|] eqn:E2;
        [|apply render_throws_parse in E2; congruence|discriminate].
      intros [= <-] [= <-]. auto.
    + intros [= <-] [= <-]. auto.
    + discriminate.
  - intros [= <-] [= <-]. auto.
Qed.

Lemma validateTemplate_any_config_witness :
  let check := validateTemplate (messageOf plainTerminal)
                 ["templates"; "app.ts.mustache"]
                 (Some "{{#typescript}}: void{{/typescript}}") in
  let result1 := ValidateTemplates.mkResult true (Some 6) None None in
  let result2 := ValidateTemplates.mkResult true (Some 0) None None in
  check {[ "typescript" := VBool true ]} = Returns result1
  /\ check {[ "typescript" := VBool false ]} = Returns result2
  /\ ValidateTemplates.valid result1 = ValidateTemplates.valid result2
  /\ ValidateTemplates.error result1 = ValidateTemplates.error result2
  /\ ValidateTemplates.position result1 = ValidateTemplates.position result2.
Proof.
  intros check result1 result2.
  assert (H1 : check {[ "typescript" := VBool true ]} = Returns result1)
    by reflexivity.
  assert (H2 : check {[ "typescript" := VBool false ]} = Returns result2)
    by reflexivity.
  split; [exact H1|]. split; [exact H2|].
  exact (validateTemplate_any_config (messageOf plainTerminal)
           ["templates"; "app.ts.mustache"]
           (Some "{{#typescript}}: void{{/typescript}}")
           {[ "typescript" := VBool true ]} {[ "typescript" := VBool false ]}
           result1 result2 H1 H2).
Defined.

(** ** The derived names of the template context *)




Lemma hyphenate_id inRun s :
  Js.allChars (fun c => negb (Js.isSpace c)) s = true -> hyphenate inRun s = s.
Proof.
  revert inRun. induction s as [|c s IH]; intros inRun H; [reflexivity|].
  simpl in *. apply andb_true_iff in H as [Hc Hs]. apply negb_true_iff in Hc.
  rewrite Hc, IH by exact Hs. reflexivity.
Qed.







(** ** The extension of a rendered file *)

Lemma eqb_length a b : String.eqb a b = true -> String.length a = String.length b.
Proof. intros H. apply String.eqb_eq in H. subst. reflexivity. Qed.

Lemma append_length a b :
  String.length (a +:+ b) = String.length a + String.length b.
Proof. induction a as [|c a IH]; simpl; [reflexivity|]. rewrite IH. reflexivity. Qed.

Lemma endsWith_short s suf :
  String.length s < String.length suf -> Js.endsWith s suf = false.
Proof.
  induction s as [|c s IH]; intros H.
  - destruct suf; [simpl in H; lia | reflexivity].
  - cbn [Js.endsWith]. rewrite IH by (simpl in H; lia). rewrite orb_false_r.
    destruct (String.eqb (String c s) suf) eqn:E; [|reflexivity].
    apply eqb_length in E. lia.
Qed.

Lemma endsWith_app pre x suf :
  String.length x = String.length suf ->
  Js.endsWith (pre +:+ x) suf = String.eqb x suf.
Proof.
  intros Hlen. induction pre as [|c pre IH].
  - simpl. destruct x as [|d x].
    + destruct suf; [reflexivity | discriminate].
    + cbn [Js.endsWith]. rewrite endsWith_short by (simpl in Hlen; lia).
      apply orb_false_r.
  - cbn [String.append Js.endsWith]. rewrite IH.
    destruct (String.eqb (String c (pre +:+ x)) suf) eqn:E; [|reflexivity].
    apply eqb_length in E. simpl in E. rewrite append_length in E. lia.
Qed.

Lemma endsWith_split s suf :
  Js.endsWith s suf = true -> exists pre, s = pre +:+ suf.
Proof.
  induction s as [|c s IH]; cbn [Js.endsWith]; intros H.
  - rewrite orb_false_r in H. apply String.eqb_eq in H. subst. exists "". reflexivity.
  - apply orb_true_iff in H as [H|H].
    + apply String.eqb_eq in H. exists "". simpl. exact H.
    + destruct (IH H) as [pre ->]. exists (String c pre). reflexivity.
Qed.

Lemma startsWith_split s p :
  Js.startsWith s p = true -> s = p +:+ Js.drop (String.length p) s.
Proof.
  revert s. induction p as [|b p IH]; intros s H; [reflexivity|].
  destruct s as [|a s]; [discriminate|]. cbn [Js.startsWith] in H.
  apply andb_true_iff in H as [Hab Hs]. apply Ascii.eqb_eq in Hab. subst b.
  cbn [String.length Js.drop String.append]. f_equal. apply IH. exact Hs.
Qed.

Lemma endsWith_tail c s suf :
  Js.endsWith (String c s) suf = false -> Js.endsWith s suf = false.
Proof. cbn [Js.endsWith]. intros H. apply orb_false_iff in H. tauto. Qed.

Lemma replaceAtEnd_suffix pre lit rep :
  lit <> "" -> Js.replaceAtEnd (pre +:+ lit) lit rep = pre +:+ rep.
Proof.
  intros Hlit. induction pre as [|c pre IH]; cbn [String.append Js.replaceAtEnd].
  - destruct lit as [|d lit]; [congruence|]. cbn [Js.replaceAtEnd].
    rewrite String.eqb_refl. reflexivity.
  - rewrite IH.
    destruct (String.eqb (String c (pre +:+ lit)) lit) eqn:E; [|reflexivity].
    apply eqb_length in E. simpl in E. rewrite append_length in E. lia.
Qed.

Lemma replaceAtEnd_other s lit rep :
  Js.endsWith s lit = false -> Js.replaceAtEnd s lit rep = s.
Proof.
  induction s as [|c s IH]; cbn [Js.endsWith Js.replaceAtEnd]; intros H;
    apply orb_false_iff in H as [H1 H2]; rewrite H1; [reflexivity|].
  rewrite IH by exact H2. reflexivity.
Qed.

(** The name after the swap of the extension [from] for [to], both of the
    form of a dot and as many letters, and the rewriting of a leading
    underscore. *)
Lemma swapped_extension fileName from to bare :
  let u := Js.replaceAtEnd (Js.replace fileName ".mustache" "") from to in
  let t := if Js.startsWith u "_" then Js.replaceAtStart u "_" "." else u in
  from = String "." bare -> String.length to = String.length from ->
  String.eqb to from = false ->
  Js.endsWith (".mustache_" +:+ bare) ".mustache" = false ->
  Js.endsWith ("_" +:+ bare) to = false ->
  Js.endsWith fileName ".mustache" = true ->
  Js.startsWith fileName "_" = false ->
  Js.endsWith t from = false.
Proof.
  intros u t Hfrom Hlen Hne Hodd Hodd' Hsuffix Hstart.
  assert (Hfrom' : from <> "") by (subst from; discriminate).
  assert (Hu : Js.endsWith u from = false).
  { subst u. destruct (Js.endsWith (Js.replace fileName ".mustache" "") from) eqn:E.
    - apply endsWith_split in E as [pre ->].
      rewrite replaceAtEnd_suffix by exact Hfrom'.
      rewrite endsWith_app by exact Hlen. exact Hne.
    - rewrite replaceAtEnd_other by exact E. exact E. }
  subst t. destruct (Js.startsWith u "_") eqn:Eu; [|exact Hu].
  destruct u as [|c u'] eqn:Eu0; [discriminate|].
  simpl in Eu. rewrite andb_true_r in Eu. apply Ascii.eqb_eq in Eu. subst c.
  simpl Js.replaceAtStart.
  cbn [Js.endsWith]. rewrite (endsWith_tail _ _ _ Hu), orb_false_r.
  subst from. cbn [String.eqb]. cbn [Ascii.eqb Bool.eqb andb].
  destruct (String.eqb u' bare) eqn:Ebare; [|reflexivity].
  apply String.eqb_eq in Ebare. subst u'. exfalso.
  (* the swapped name is an underscore and the letters of the extension *)
  destruct (Js.endsWith (Js.replace fileName ".mustache" "") (String "." bare)) eqn:E.
  - apply endsWith_split in E as [pre Epre].
    subst u. rewrite Epre, replaceAtEnd_suffix in Eu0 by exact Hfrom'.
    assert (H : Js.endsWith (pre +:+ to) to = true).
    { rewrite endsWith_app by reflexivity. apply String.eqb_refl. }
    rewrite Eu0 in H. cbn [String.append] in Hodd'. congruence.
  - subst u. rewrite replaceAtEnd_other in Eu0 by exact E.
    destruct fileName as [|c rest]; [discriminate|].
    cbn [Js.replace] in Eu0.
    destruct (Js.startsWith (String c rest) ".mustache") eqn:Edot.
    + pose proof (startsWith_split _ _ Edot) as Hname.
      cbn [String.append] in Eu0. rewrite Eu0 in Hname.
      rewrite Hname in Hsuffix. cbn [String.append] in Hsuffix, Hodd. congruence.
    + injection Eu0 as -> _. discriminate.
Qed.

(** X12. A template file whose name does not start with an underscore
    never gets the extension of the other language: in a TypeScript
    project the target name does not end in [.js], in a JavaScript project
    it does not end in [.ts]. *)
Theorem extension_of_the_language (fileName : string) (context : gmap string value) :
  Js.endsWith fileName ".mustache" = true ->
  Js.startsWith fileName "_" = false ->
  Js.endsWith (targetFileName fileName context)
              (if truthy (get context "typescript") then ".js" else ".ts")
  = false.
Proof.
  intros Hsuffix Hstart. unfold targetFileName. rewrite Hsuffix.
  destruct (truthy (get context "typescript")).
  - apply (swapped_extension fileName ".js" ".ts" "js"); auto.
  - apply (swapped_extension fileName ".ts" ".js" "ts"); auto.
Qed.

Lemma extension_of_the_language_witness :
  Js.endsWith "app.ts.mustache" ".mustache" = true
  /\ Js.startsWith "app.ts.mustache" "_" = false
  /\ targetFileName "app.ts.mustache" ∅ = "app.js"
  /\ Js.endsWith (targetFileName "app.ts.mustache" ∅)
                 (if truthy (get (∅ : gmap string value) "typescript")
                  then ".js" else ".ts") = false.
Proof.
  split; [reflexivity|]. split; [reflexivity|]. split; [reflexivity|].
  exact (extension_of_the_language "app.ts.mustache" ∅ eq_refl eq_refl).
Defined.

(** ** What a file of the template tree becomes *)

(** A template without an opening brace holds no tag: it renders to itself. *)
Lemma render_text template context :
  Js.allChars noBrace template = true -> render template context = Returns template.
Proof.
  intros Htext. unfold render, parseTemplate.
  destruct (String.eqb template "") eqn:Eempty.
  - apply String.eqb_eq in Eempty. subst. reflexivity.
  - change (parseLoop _ ?p) with (parseAll p).
    destruct (parseAll_rest template (initialParser template) Htext
                (or_introl eq_refl) eq_refl) as (p & Hrun & Ht & Hs & Hq).
    rewrite Hrun. destruct (stripSpace_quiet p Hq) as (Ht' & Hs' & _).
    rewrite Hs', Hs, Ht', Ht. cbn [initialParser sections tokens scanner pos app].
    unfold squashTokens.
    destruct (fold_chars template 0 [] I) as (ts & Htext' & Hfold).
    rewrite Hfold, app_nil_r.
    assert (Hrev : rev ts = ts).
    { destruct Htext' as [[_ ->]|(a & b & ->)]; reflexivity. }
    rewrite Hrev.
    destruct (isText_render template ts [ViewObject context] Htext') as [Hflat Hr].
    rewrite nestTokens_flat by exact Hflat. rewrite Hr. reflexivity.
Qed.

(** A file that can be rendered and written: what [processTemplateFile]
    does. *)
Lemma processTemplateFile_writes sourceFile content targetDir context w out :
  let fileName := basename sourceFile in
  let targetFile := pathJoin targetDir (targetFileName fileName context) in
  Fs.isDirectory w (dirname targetFile) = true ->
  Fs.isDirectory w targetFile = false ->
  leafContent fileName content context = Returns out ->
  processTemplateFile sourceFile (Some content) targetDir context w
  = (Returns (), Fs.setFiles (<[targetFile := File out]> (files w)) w).
Proof.
  intros fileName targetFile Hparent Hfree Hout.
  assert (Hopen : Fs.openForWrite w targetFile = None).
  { unfold Fs.openForWrite. unfold Fs.isDirectory in Hparent, Hfree.
    destruct (Fs.entryAt w targetFile) as [[d|]|]; try discriminate;
      destruct (Fs.entryAt w (dirname targetFile)) as [[d'|]|];
      try discriminate; reflexivity. }
  unfold processTemplateFile. fold fileName. fold targetFile.
  unfold leafContent in Hout.
  destruct (Js.endsWith fileName ".mustache").
  - unfold tryCatch. rewrite bind_run. cbn [Fs.readFile ret].
    rewrite bind_run, Hout. unfold Fs.writeFile. rewrite Hopen. reflexivity.
  - injection Hout as <-. unfold Fs.copy. rewrite Hfree.
    assert (Hex : is_Some (Fs.entryAt w (dirname targetFile))).
    { unfold Fs.isDirectory in Hparent.
      destruct (Fs.entryAt w (dirname targetFile)); [eauto | discriminate]. }
    rewrite bool_decide_eq_true_2 by exact Hex.
    rewrite bind_run. cbn [ret]. rewrite bind_run. cbn [Fs.readFile ret].
    unfold Fs.writeFile. rewrite Hopen. reflexivity.
Qed.

(** X13. A template file without an opening brace holds no tag and is
    written as it is, whatever the context: when the directory of the
    target exists and the target is no directory, [processTemplateFile]
    returns after writing the content of the source under the target
    name. *)
Theorem template_without_tags
    (sourceFile : list string) (content : string) (targetDir : list string)
    (context : gmap string value) (w : World) :
  let fileName := basename sourceFile in
  let targetFile := pathJoin targetDir (targetFileName fileName context) in
  Js.endsWith fileName ".mustache" = true ->
  Js.allChars noBrace content = true ->
  Fs.isDirectory w (dirname targetFile) = true ->
  Fs.isDirectory w targetFile = false ->
  render content context = Returns content
  /\ processTemplateFile sourceFile (Some content) targetDir context w
     = (Returns (), Fs.setFiles (<[targetFile := File content]> (files w)) w).
Proof.
  intros fileName targetFile Hsuffix Htext Hparent Hfree.
  pose proof (render_text content context Htext) as Hrender.
  split; [exact Hrender|].
  apply processTemplateFile_writes; [exact Hparent | exact Hfree |].
  unfold leafContent. fold fileName. rewrite Hsuffix. exact Hrender.
Qed.

Lemma template_without_tags_witness :
  let sourceFile := ["pkg"; "templates"; "LICENSE.mustache"] in
  let context := templateContext (defaultConfig "demo") 2026 in
  Js.endsWith (basename sourceFile) ".mustache" = true
  /\ Js.allChars noBrace "MIT License" = true
  /\ Fs.isDirectory emptyDirWorld ["home"; "app"] = true
  /\ Fs.isDirectory emptyDirWorld ["home"; "app"; "LICENSE"] = false
  /\ render "MIT License" context = Returns "MIT License"
  /\ processTemplateFile sourceFile (Some "MIT License") ["home"; "app"] context
                         emptyDirWorld
     = (Returns (),
        Fs.setFiles (<[ ["home"; "app"; "LICENSE"] := File "MIT License" ]>
                       (files emptyDirWorld)) emptyDirWorld).
Proof.
  intros sourceFile context.
  assert (H1 : Js.endsWith (basename sourceFile) ".mustache" = true) by reflexivity.
  assert (H2 : Js.allChars noBrace "MIT License" = true) by reflexivity.
  assert (H3 : Fs.isDirectory emptyDirWorld ["home"; "app"] = true) by reflexivity.
  assert (H4 : Fs.isDirectory emptyDirWorld ["home"; "app"; "LICENSE"] = false)
    by reflexivity.
  split; [exact H1|]. split; [exact H2|]. split; [exact H3|]. split; [exact H4|].
  exact (template_without_tags sourceFile "MIT License" ["home"; "app"] context
           emptyDirWorld H1 H2 H3 H4).
Defined.

Lemma basename_join dir item :
  plainName item = true -> basename (pathJoin dir item) = item.
Proof.
  unfold plainName, pathJoin, basename. intros H. apply negb_true_iff in H.
  apply orb_false_iff in H as [H H3]. apply orb_false_iff in H as [H1 H2].
  rewrite H1, H2, H3. cbn [orb]. rewrite last_snoc. reflexivity.
Qed.

Lemma isDirectory_written w p data q :
  Fs.isDirectory w p = false ->
  Fs.isDirectory (Fs.setFiles (<[p := File data]> (files w)) w) q
  = if decide (p = q) then false else Fs.isDirectory w q.
Proof.
  intros Hp. unfold Fs.isDirectory, Fs.entryAt. cbn [Fs.setFiles files].
  destruct (decide (p = q)) as [<-|Hne].
  - destruct p as [|s p]; [discriminate|]. rewrite lookup_insert_eq. reflexivity.
  - destruct q as [|s q]; [reflexivity|]. rewrite lookup_insert_ne by exact Hne.
    reflexivity.
Qed.

(** X14. Two files of one directory whose target names are the same (for
    instance [_gitignore] and [.gitignore], or [app.ts.mustache] and
    [app.js.mustache]) are written to the same path without any error, and
    the one that [readdir] lists later wins: after both are processed the
    target holds what the second one gives. *)
Theorem last_writer_wins
    (templatesDir targetDir : list string) (context : gmap string value)
    (item1 item2 content1 content2 out1 out2 : string) (w : World) :
  let targetFile := pathJoin targetDir (targetFileName item2 context) in
  plainName item1 = true -> plainName item2 = true ->
  targetFileName item1 context = targetFileName item2 context ->
  Fs.isDirectory w (dirname targetFile) = true ->
  Fs.isDirectory w targetFile = false ->
  leafContent item1 content1 context = Returns out1 ->
  leafContent item2 content2 context = Returns out2 ->
  copyTemplate templatesDir
    [(item1, Leaf (Some content1)); (item2, Leaf (Some content2))]
    targetDir context w
  = (Returns (), Fs.setFiles (<[targetFile := File out2]> (files w)) w).
Proof.
  intros targetFile Hp1 Hp2 Hsame Hparent Hfree Hout1 Hout2.
  cbn [copyTemplate copyItem]. rewrite bind_run.
  rewrite (processTemplateFile_writes _ content1 targetDir context w out1);
    rewrite ?basename_join by assumption; rewrite ?Hsame; fold targetFile;
    try assumption.
  rewrite bind_run.
  assert (Hne : targetFile <> dirname targetFile).
  { intros Heq. rewrite <- Heq in Hparent. congruence. }
  rewrite (processTemplateFile_writes _ content2 targetDir context _ out2);
    rewrite ?basename_join by assumption; fold targetFile; try assumption.
  - cbn [mret M_ret ret]. f_equal. unfold Fs.setFiles. cbn [files stderr].
    rewrite insert_insert_eq. reflexivity.
  - rewrite isDirectory_written by exact Hfree.
    destruct (decide (targetFile = dirname targetFile)); [contradiction|exact Hparent].
  - rewrite isDirectory_written by exact Hfree.
    destruct (decide (targetFile = targetFile)); [reflexivity|contradiction].
Qed.

Lemma last_writer_wins_witness :
  let context := templateContext (defaultConfig "demo") 2026 in
  plainName "_gitignore" = true /\ plainName ".gitignore" = true
  /\ targetFileName "_gitignore" context = targetFileName ".gitignore" context
  /\ Fs.isDirectory emptyDirWorld ["home"; "app"] = true
  /\ Fs.isDirectory emptyDirWorld ["home"; "app"; ".gitignore"] = false
  /\ copyTemplate packageDir
       [("_gitignore", Leaf (Some "dist")); (".gitignore", Leaf (Some "node_modules"))]
       ["home"; "app"] context emptyDirWorld
     = (Returns (),
        Fs.setFiles (<[ ["home"; "app"; ".gitignore"] := File "node_modules" ]>
                       (files emptyDirWorld)) emptyDirWorld).
Proof.
  intros context.
  assert (H1 : plainName "_gitignore" = true) by reflexivity.
  assert (H2 : plainName ".gitignore" = true) by reflexivity.
  assert (H3 : targetFileName "_gitignore" context = targetFileName ".gitignore" context)
    by reflexivity.
  assert (H4 : Fs.isDirectory emptyDirWorld ["home"; "app"] = true) by reflexivity.
  assert (H5 : Fs.isDirectory emptyDirWorld ["home"; "app"; ".gitignore"] = false)
    by reflexivity.
  split; [exact H1|]. split; [exact H2|]. split; [exact H3|]. split; [exact H4|].
  split; [exact H5|].
  exact (last_writer_wins packageDir ["home"; "app"] context "_gitignore" ".gitignore"
           "dist" "node_modules" "dist" "node_modules" emptyDirWorld
           H1 H2 H3 H4 H5 eq_refl eq_refl).
Defined.

(** ** What [mkdirs] changes *)

Lemma mkdirs_onPath base rest fs fs' q :
  Fs.mkdirs base rest fs = Returns fs' -> onPath base rest q -> fs' !! q = Some Dir.
Proof.
  revert base fs. induction rest as [|seg rest IH]; intros base fs H Hq; [done|].
  simpl in H.
  assert (Hgo : Fs.mkdirs (base ++ [seg]) rest (<[base ++ [seg] := Dir]> fs)
                = Returns fs').
  { destruct (fs !! (base ++ [seg])) as [[data|]|]; [discriminate|exact H..]. }
  destruct Hq as [-> | Hq].
  - apply (mkdirs_extends _ _ _ _ Hgo). apply lookup_insert_eq.
  - apply (IH _ _ Hgo Hq).
Qed.

Lemma mkdirs_adds base rest fs fs' q :
  Fs.mkdirs base rest fs = Returns fs' ->
  fs' !! q = fs !! q
  \/ (onPath base rest q /\ fs !! q = None /\ fs' !! q = Some Dir).
Proof.
  revert base fs. induction rest as [|seg rest IH]; intros base fs H.
  - injection H as <-. auto.
  - pose proof H as H0. simpl in H.
    assert (Hgo : Fs.mkdirs (base ++ [seg]) rest (<[base ++ [seg] := Dir]> fs)
                  = Returns fs'
                  /\ (fs !! (base ++ [seg]) = Some Dir \/ fs !! (base ++ [seg]) = None)).
    { destruct (fs !! (base ++ [seg])) as [[data|]|]; [discriminate|auto..]. }
    destruct Hgo as [Hgo Hwas].
    destruct (decide (q = base ++ [seg])) as [->|Hne].
    + pose proof (mkdirs_onPath base (seg :: rest) _ _ (base ++ [seg]) H0
                    (or_introl eq_refl)) as Hd.
      destruct Hwas as [Hwas|Hwas]; [left; congruence|].
      right. split; [left; reflexivity | auto].
    + destruct (IH _ _ Hgo) as [Heq | (Hp & Hnone & Hd)].
      * left. rewrite Heq. apply lookup_insert_ne. congruence.
      * right. rewrite lookup_insert_ne in Hnone by congruence.
        split; [right; exact Hp | auto].
Qed.

Lemma onPath_prefix rest : forall base q,
  onPath base rest q -> exists q', q = base ++ q' /\ q' `prefix_of` rest /\ q' <> [].
Proof.
  induction rest as [|seg rest IH]; intros base q Hq; [done|].
  destruct Hq as [-> | Hq].
  - exists [seg]. split; [reflexivity|]. split; [exists rest; reflexivity | discriminate].
  - destruct (IH _ _ Hq) as (q' & -> & [k ->] & Hne).
    exists (seg :: q'). rewrite <- app_assoc. split; [reflexivity|].
    split; [exists k; reflexivity | discriminate].
Qed.

Lemma prefix_onPath rest : forall base q',
  q' `prefix_of` rest -> q' <> [] -> onPath base rest (base ++ q').
Proof.
  induction rest as [|seg rest IH]; intros base q' [k Hk] Hne.
  - destruct q'; [congruence | discriminate].
  - destruct q' as [|x q']; [congruence|]. injection Hk as -> ->.
    destruct q' as [|y q'].
    + left. reflexivity.
    + right. replace (base ++ x :: y :: q') with ((base ++ [x]) ++ y :: q')
        by (rewrite <- app_assoc; reflexivity).
      apply IH; [exists k; reflexivity | discriminate].
Qed.

(** [ensureDir] only adds directories, on the way to its argument. *)
Lemma ensureDir_adds p w q :
  files (Fs.ensureDir p w).2 !! q = files w !! q
  \/ (files w !! q = None /\ files (Fs.ensureDir p w).2 !! q = Some Dir
      /\ q `prefix_of` p /\ q <> []).
Proof.
  unfold Fs.ensureDir.
  destruct (Fs.mkdirs [] p (files w)) as [fs|e|] eqn:E; cbn [snd]; auto.
  destruct (mkdirs_adds _ _ _ _ q E) as [Heq | (Hp & Hnone & Hd)];
    [left; exact Heq|].
  right. destruct (onPath_prefix _ _ _ Hp) as (q' & -> & Hpre & Hne). auto.
Qed.

Lemma ensureDir_solid p w w' :
  Fs.ensureDir p w = (Returns (), w') -> solid p w'.
Proof.
  unfold Fs.ensureDir.
  destruct (Fs.mkdirs [] p (files w)) as [fs|e|] eqn:E; try discriminate.
  intros [= <-] q Hq Hne. cbn [Fs.setFiles files].
  apply (mkdirs_onPath _ _ _ _ q E). apply (prefix_onPath p [] q Hq Hne).
Qed.

(** ** The invariant of the copy *)

Lemma keeps_refl w : keeps w w.
Proof. intros q. split; eauto. Qed.

Lemma keeps_trans w1 w2 w3 : keeps w1 w2 -> keeps w2 w3 -> keeps w1 w3.
Proof.
  intros H12 H23 q. destruct (H12 q) as [A B], (H23 q) as [C D]. split; [auto|].
  intros data Hq. destruct (B data Hq) as [data' Hq']. eauto.
Qed.

Lemma keeps_files w w' : files w' = files w -> keeps w w'.
Proof. intros H q. rewrite H. split; eauto. Qed.

Lemma keeps_solid dir w w' : keeps w w' -> solid dir w -> solid dir w'.
Proof. intros Hk Hs q Hq Hne. apply Hk. apply Hs; assumption. Qed.

Lemma solid_isDirectory dir w q :
  solid dir w -> q `prefix_of` dir -> Fs.isDirectory w q = true.
Proof.
  intros Hs Hq. unfold Fs.isDirectory, Fs.entryAt. destruct q as [|s q]; [reflexivity|].
  rewrite (Hs (s :: q) Hq); [reflexivity | discriminate].
Qed.

Lemma keeps_present output w w' : keeps w w' -> present output w -> present output w'.
Proof.
  intros Hk. destruct output as [q []]; unfold present; cbn [fst snd].
  - unfold Fs.isDirectory, Fs.entryAt. destruct q as [|s q]; [auto|].
    destruct (files w !! (s :: q)) as [[d|]|] eqn:E; try discriminate.
    intros _. destruct (Hk (s :: q)) as [HD _]. rewrite (HD E). reflexivity.
  - intros [data Hq]. destruct (Hk q) as [_ HF]. eauto.
Qed.

Lemma ensureDir_keeps p w : keeps w (Fs.ensureDir p w).2.
Proof.
  intros q. destruct (ensureDir_adds p w q) as [-> | (Hnone & _)];
    [split; eauto|]. rewrite Hnone. split; [discriminate|]. intros; discriminate.
Qed.

Lemma good_ret dir : good dir [] (mret ()).
Proof.
  intros w _. split; [auto|]. split; [apply keeps_refl|]. intros _. constructor.
Qed.

Lemma good_seq dir outs1 outs2 (m1 m2 : M unit) :
  good dir outs1 m1 -> good dir outs2 m2 -> good dir (outs1 ++ outs2) (m1;; m2).
Proof.
  intros H1 H2 w Hs. rewrite bind_run.
  destruct (H1 w Hs) as (Hf1 & Hk1 & Ho1).
  destruct (m1 w) as [[[]|e|] w1]; cbn [fst snd] in *.
  - destruct (H2 w1 (keeps_solid _ _ _ Hk1 Hs)) as (Hf2 & Hk2 & Ho2).
    split; [|split].
    + intros q Hq. rewrite Hf2, Hf1 by exact Hq. reflexivity.
    + eapply keeps_trans; eauto.
    + intros Hr. apply Forall_app. split; [|exact (Ho2 Hr)].
      eapply Forall_impl; [exact (Ho1 eq_refl)|].
      intros output. apply keeps_present. exact Hk2.
  - split; [exact Hf1|]. split; [exact Hk1 | discriminate].
  - split; [exact Hf1|]. split; [exact Hk1 | discriminate].
Qed.

(** ** One file *)

Lemma openForWrite_none w p : Fs.openForWrite w p = None -> Fs.isDirectory w p = false.
Proof.
  unfold Fs.openForWrite, Fs.isDirectory.
  destruct (Fs.entryAt w p) as [[d|]|]; [reflexivity | discriminate | reflexivity].
Qed.

(** What [processTemplateFile] does to the files: it writes the target and
    returns, or it does not return and changes nothing. *)
Lemma processTemplateFile_effect sourceFile data targetDir context w :
  let targetFile :=
    pathJoin targetDir (targetFileName (basename sourceFile) context) in
  let run := processTemplateFile sourceFile data targetDir context w in
  Fs.isDirectory w targetFile = true \/ Fs.isDirectory w (dirname targetFile) = true ->
  (run.1 = Returns ()
   /\ Fs.isDirectory w targetFile = false
   /\ exists out, files run.2 = <[targetFile := File out]> (files w))
  \/ (run.1 <> Returns () /\ files run.2 = files w).
Proof.
  intros targetFile run Hdir. subst run. unfold processTemplateFile.
  fold targetFile. destruct (Js.endsWith (basename sourceFile) ".mustache").
  - unfold tryCatch. rewrite bind_run.
    destruct data as [content|]; cbn [Fs.readFile ret throw];
      [|right; split; [discriminate | reflexivity]].
    rewrite bind_run.
    destruct (render content context) as [out|e|];
      [|right; split; [discriminate | reflexivity]..].
    unfold Fs.writeFile. destruct (Fs.openForWrite w targetFile) as [e|] eqn:Eopen.
    + right. split; [discriminate | reflexivity].
    + left. split; [reflexivity|]. split; [apply openForWrite_none; exact Eopen|].
      exists out. reflexivity.
  - unfold Fs.copy. destruct (Fs.isDirectory w targetFile) eqn:Ed.
    + right. split; [discriminate | reflexivity].
    + destruct Hdir as [Hdir|Hdir]; [discriminate|].
      assert (Hex : is_Some (Fs.entryAt w (dirname targetFile))).
      { unfold Fs.isDirectory in Hdir.
        destruct (Fs.entryAt w (dirname targetFile)); [eauto | discriminate]. }
      rewrite bool_decide_eq_true_2 by exact Hex.
      rewrite bind_run. cbn [ret]. rewrite bind_run.
      destruct data as [content|]; cbn [Fs.readFile ret throw];
        [|right; split; [discriminate | reflexivity]].
      unfold Fs.writeFile. destruct (Fs.openForWrite w targetFile) as [e|] eqn:Eopen.
      * right. split; [discriminate | reflexivity].
      * left. split; [reflexivity|]. split; [reflexivity|]. exists content. reflexivity.
Qed.

Lemma pathJoin_plain dir item : plainName item = true -> pathJoin dir item = dir ++ [item].
Proof.
  unfold plainName, pathJoin. intros H. apply negb_true_iff in H.
  apply orb_false_iff in H as [H H3]. apply orb_false_iff in H as [H1 H2].
  rewrite H1, H2, H3. reflexivity.
Qed.

Lemma removelast_prefix {A} (l : list A) : removelast l `prefix_of` l.
Proof.
  destruct l as [|x l] using rev_ind; [exists []; reflexivity|].
  rewrite removelast_last. exists [x]. reflexivity.
Qed.

Lemma pathJoin_solid dir name w :
  solid dir w ->
  Fs.isDirectory w (pathJoin dir name) = true \/ pathJoin dir name = dir ++ [name].
Proof.
  intros Hs. unfold pathJoin.
  destruct (String.eqb name "" || String.eqb name ".").
  - left. apply (solid_isDirectory dir); [exact Hs | exists []; rewrite app_nil_r; reflexivity].
  - destruct (String.eqb name "..").
    + left. apply (solid_isDirectory dir); [exact Hs | apply removelast_prefix].
    + right. reflexivity.
Qed.

Lemma leaf_good itemPath item data dir context :
  basename itemPath = item ->
  good dir [(pathJoin dir (targetFileName item context), false)]
       (processTemplateFile itemPath data dir context).
Proof.
  intros Hbase w Hs.
  pose proof (processTemplateFile_effect itemPath data dir context w) as Heff.
  cbv zeta in Heff. rewrite Hbase in Heff.
  set (targetFile := pathJoin dir (targetFileName item context)) in *.
  set (run := processTemplateFile itemPath data dir context w) in *.
  destruct (pathJoin_solid dir (targetFileName item context) w Hs) as [Hd|Hd];
    fold targetFile in Hd.
  - destruct Heff as [(_ & Hfree & _) | (Hthrow & Hfiles)]; [auto | congruence|].
    split; [intros q _; rewrite Hfiles; reflexivity|].
    split; [apply keeps_files; exact Hfiles | contradiction].
  - assert (Hparent : Fs.isDirectory w (dirname targetFile) = true).
    { rewrite Hd. unfold dirname. rewrite removelast_last.
      apply (solid_isDirectory dir); [exact Hs | exists []; rewrite app_nil_r; reflexivity]. }
    destruct Heff as [(Hret & Hfree & out & Hfiles) | (Hthrow & Hfiles)]; [auto|..].
    + assert (Hwas : files w !! targetFile <> Some Dir).
      { intros Hwas. unfold Fs.isDirectory, Fs.entryAt in Hfree. rewrite Hd in Hfree, Hwas.
        destruct dir; simpl in *; rewrite Hwas in Hfree; discriminate. }
      split; [|split].
      * intros q Hq. rewrite Hfiles. apply lookup_insert_ne. intros <-.
        apply Hq. rewrite Hd. exists [targetFileName item context]. reflexivity.
      * intros q. rewrite Hfiles. destruct (decide (targetFile = q)) as [<-|Hne].
        -- rewrite lookup_insert_eq. split; [contradiction | eauto].
        -- rewrite lookup_insert_ne by exact Hne. split; eauto.
      * intros _. constructor; [|constructor]. exists out. cbn [fst].
        rewrite Hfiles. apply lookup_insert_eq.
    + split; [intros q _; rewrite Hfiles; reflexivity|].
      split; [apply keeps_files; exact Hfiles | contradiction].
Qed.

(** ** One directory *)

Lemma prefix_snoc_cases (q dir : list string) x :
  q `prefix_of` dir ++ [x] -> q `prefix_of` dir \/ q = dir ++ [x].
Proof.
  intros [k Hk]. destruct k as [|y k] using rev_ind.
  - right. rewrite app_nil_r in Hk. auto.
  - left. rewrite app_assoc in Hk. apply app_inj_tail in Hk as [-> _].
    exists k. reflexivity.
Qed.

Lemma prefix_snoc_trans (q dir : list string) x :
  (dir ++ [x]) `prefix_of` q -> dir `prefix_of` q.
Proof. intros [k ->]. exists (x :: k). rewrite <- app_assoc. reflexivity. Qed.

(** Creating the sub-directory changes nothing outside [dir]. *)
Lemma ensureDir_inside dir item w q :
  solid dir w -> ¬ dir `prefix_of` q ->
  files (Fs.ensureDir (dir ++ [item]) w).2 !! q = files w !! q.
Proof.
  intros Hs Hq.
  destruct (ensureDir_adds (dir ++ [item]) w q) as [Heq | (Hnone & _ & Hpre & Hne)];
    [exact Heq|]. exfalso.
  apply prefix_snoc_cases in Hpre as [Hpre | ->].
  - rewrite (Hs q Hpre Hne) in Hnone. discriminate.
  - apply Hq. exists [item]. reflexivity.
Qed.

Lemma directory_good dir item outs (inner : M unit) :
  good (dir ++ [item]) outs inner ->
  good dir ((dir ++ [item], true) :: outs) (Fs.ensureDir (dir ++ [item]);; inner).
Proof.
  intros Hinner w Hs. rewrite bind_run.
  pose proof (ensureDir_inside dir item w) as Hf1.
  pose proof (ensureDir_keeps (dir ++ [item]) w) as Hk1.
  destruct (Fs.ensureDir (dir ++ [item]) w) as [[[]|e|] w1] eqn:E; cbn [fst snd] in *.
  - destruct (Hinner w1 (ensureDir_solid _ _ _ E)) as (Hf2 & Hk2 & Ho2).
    split; [|split].
    + intros q Hq. rewrite Hf2, Hf1; auto.
      intros Hpre. apply Hq. eapply prefix_snoc_trans. exact Hpre.
    + eapply keeps_trans; eauto.
    + intros Hr. constructor; [|exact (Ho2 Hr)].
      apply (keeps_present (dir ++ [item], true) w1); [exact Hk2|].
      apply (ensureDir_isDirectory _ _ _ E).
  - split; [intros q Hq; apply Hf1; assumption|]. split; [exact Hk1 | discriminate].
  - split; [intros q Hq; apply Hf1; assumption|]. split; [exact Hk1 | discriminate].
Qed.

(** ** The tree *)

Lemma copyTemplate_good_from context items :
  Forall (fun entry =>
            forall itemPath item dir,
              plainTree entry.2 = true -> plainName item = true ->
              basename itemPath = item ->
              good dir (outputsOf item entry.2 dir context)
                   (copyItem itemPath item entry.2 dir context)) items ->
  plainItems items = true ->
  forall templatesDir dir,
    good dir (outputs items dir context)
         (copyTemplate templatesDir items dir context).
Proof.
  induction 1 as [|[item node] rest Hnode _ IH]; intros Hplain templatesDir dir.
  - apply good_ret.
  - cbn [plainItems forallb fst snd] in Hplain.
    apply andb_true_iff in Hplain as [Hhead Hrest].
    apply andb_true_iff in Hhead as [Hname Htree].
    cbn [copyTemplate outputs flat_map fst snd]. apply good_seq.
    + apply Hnode; [exact Htree | exact Hname | apply basename_join; exact Hname].
    + apply IH. exact Hrest.
Qed.

Lemma copyItem_good context node :
  forall itemPath item dir,
    plainTree node = true -> plainName item = true -> basename itemPath = item ->
    good dir (outputsOf item node dir context)
         (copyItem itemPath item node dir context).
Proof.
  induction node as [data|items IH] using TemplateNode_nested_ind;
    intros itemPath item dir Htree Hname Hbase.
  - apply leaf_good. exact Hbase.
  - rewrite copyItem_Directory. cbn [outputsOf]. rewrite (pathJoin_plain dir item Hname).
    apply directory_good.
    apply (copyTemplate_good_from context items IH Htree).
Qed.

Lemma copyTemplate_good context items templatesDir dir :
  plainItems items = true ->
  good dir (outputs items dir context) (copyTemplate templatesDir items dir context).
Proof.
  intros Hplain. apply copyTemplate_good_from; [|exact Hplain].
  apply Forall_forall. intros entry _. apply copyItem_good.
Qed.

(** ** The run *)

(** [prepareTarget] is [ensureDir] on a world that is the initial one
    outside the target, unless it refuses the target. *)
Lemma prepareTarget_cases p ov w :
  prepareTarget p ov w = (Throws (directoryExists p), w)
  \/ exists w0, prepareTarget p ov w = Fs.ensureDir p w0
                /\ forall q, ¬ p `prefix_of` q -> files w0 !! q = files w !! q.
Proof.
  destruct (Fs.entryAt w p) as [x|] eqn:E.
  - rewrite prepareTarget_existing by (rewrite E; eauto).
    destruct ov; [right | left; reflexivity].
    exists (Fs.without p w). split; [reflexivity|]. intros q. apply without_elsewhere.
  - right. exists w. split; [apply prepareTarget_fresh; exact E | reflexivity].
Qed.

(** X15. [generateProject] touches nothing outside the target: whatever
    the outcome of the run, every path that is not the target or below it
    holds afterwards what it held before, except that the directories on
    the way to the target that were missing have been created. *)
Theorem generateProject_outside
    (templatesDir : list string) (templates : list (string * TemplateNode))
    (year : nat) (options : GeneratorOptions) (w : World) :
  plainItems templates = true ->
  sameOutside (projectPath options) w
              (generateProject templatesDir templates year options w).2.
Proof.
  intros Hplain q Hq. unfold generateProject. rewrite bind_run.
  set (p := projectPath options) in *.
  destruct (prepareTarget_cases p (default false (overwrite options)) w)
    as [-> | (w0 & -> & Hw0)]; [left; reflexivity|].
  pose proof (ensureDir_adds p w0 q) as Hadds. rewrite (Hw0 q Hq) in Hadds.
  destruct (Fs.ensureDir p w0) as [[[]|e|] w1] eqn:E; cbn [snd] in *.
  - destruct (copyTemplate_good (templateContext (config options) year) templates
                templatesDir p Hplain w1 (ensureDir_solid _ _ _ E)) as (Hf & _ & _).
    rewrite (Hf q Hq). tauto.
  - tauto.
  - tauto.
Qed.

Lemma generateProject_outside_witness :
  plainItems sampleTree = true
  /\ sameOutside (projectPath (appOptions (Some true))) homeWorld
       (generateProject packageDir sampleTree 2026 (appOptions (Some true))
                        homeWorld).2.
Proof.
  split; [reflexivity|].
  exact (generateProject_outside packageDir sampleTree 2026 (appOptions (Some true))
           homeWorld eq_refl).
Defined.

(** X16. When [generateProject] returns, the target directory is there and
    so is everything the template tree calls for: a directory for each of
    its directories, under the same name, and a file for each of its files,
    under its target name. *)
Theorem generateProject_complete
    (templatesDir : list string) (templates : list (string * TemplateNode))
    (year : nat) (options : GeneratorOptions) (w w' : World) :
  plainItems templates = true ->
  generateProject templatesDir templates year options w = (Returns (), w') ->
  Forall (fun output => present output w')
         ((projectPath options, true)
          :: outputs templates (projectPath options)
                     (templateContext (config options) year)).
Proof.
  intros Hplain. unfold generateProject. rewrite bind_run.
  set (p := projectPath options) in *.
  destruct (prepareTarget_cases p (default false (overwrite options)) w)
    as [-> | (w0 & -> & _)]; [discriminate|].
  destruct (Fs.ensureDir p w0) as [[[]|e|] w1] eqn:E; try discriminate.
  intros Hrun.
  destruct (copyTemplate_good (templateContext (config options) year) templates
              templatesDir p Hplain w1 (ensureDir_solid _ _ _ E)) as (_ & Hk & Ho).
  rewrite Hrun in Hk, Ho. cbn [fst snd] in Hk, Ho.
  constructor; [|exact (Ho eq_refl)].
  apply (keeps_present (p, true) w1); [exact Hk|].
  apply (ensureDir_isDirectory _ _ _ E).
Qed.

Lemma generateProject_complete_witness :
  let options := appOptions None in
  let run := generateProject packageDir sampleTree 2026 options emptyWorld in
  plainItems sampleTree = true
  /\ run = (Returns (), run.2)
  /\ outputs sampleTree ["home"; "app"] (templateContext (defaultConfig "demo") 2026)
     = [ (["home"; "app"; "README.md"], false); (["home"; "app"; "src"], true);
         (["home"; "app"; "src"; ".env"], false);
         (["home"; "app"; "src"; "app.ts"], false) ]
  /\ Forall (fun output => present output run.2)
            ((projectPath options, true)
             :: outputs sampleTree (projectPath options)
                        (templateContext (config options) 2026)).
Proof.
  intros options run.
  assert (H1 : plainItems sampleTree = true) by reflexivity.
  assert (H2 : run = (Returns (), run.2)) by reflexivity.
  split; [exact H1|]. split; [exact H2|]. split; [reflexivity|].
  exact (generateProject_complete packageDir sampleTree 2026 options emptyWorld
           run.2 H1 H2).
Defined.

(** The state of the tokenizer in normal form, by value: the records are
    evaluated before they are copied into the fields of the next one. *)
Ltac tidy :=
  cbv beta iota zeta
      delta [pushText setScanner pushToken tagged initialParser stripSpace
             scanner tokens spaces hasTag nonSpace sections
             tkind tvalue tstart tend tail pos app foldr length
             insert list_insert Js.isSpace Ascii.eqb Bool.eqb andb negb orb
             fst snd].

(** One turn of the loop over the literal [text] and the tag after it. *)
Ltac text_then_tag text :=
  erewrite (parseAll_tag text); [ | simpl; reflexivity | reflexivity | reflexivity ];
  tidy.

(** The tag is the sigil [c] with the name [f]. *)
Ltac tag_of c kind f Hf :=
  erewrite (parseTag_sigil c kind f);
  [ | reflexivity | discriminate | discriminate | reflexivity | exact Hf
    | simpl; reflexivity ];
  unfold registerToken; tidy; rewrite ?String.eqb_refl; tidy.

(** X17. The tags of a section that stand alone on their lines leave no
    line behind: the template of the three lines [{{#f}}], [A] and
    [{{/f}}] renders to the line [A] alone, once per rendering of the
    section. A line feed that follows a tag on a line that holds text is
    kept. *)
Theorem standalone_section_lines (f : string) (context : gmap string value) :
  flagName f = true ->
  render ("{{#" +:+ f +:+ "}}" +:+ newline +:+ "A" +:+ newline
          +:+ "{{/" +:+ f +:+ "}}" +:+ newline) context
  = Returns (Js.repeat (sectionTimes (get context f)) ("A" +:+ newline))
  /\ render ("{{#" +:+ f +:+ "}}A{{/" +:+ f +:+ "}}" +:+ newline) context
     = Returns (Js.repeat (sectionTimes (get context f)) "A" +:+ newline).
Proof.
  intros Hflag. pose proof (flagName_chars f Hflag) as Hf.
  unfold newline. split.
  - start_render.
    text_then_tag "". tag_of "#"%char KSection f Hf.
    text_then_tag (String "010" (String "A" (String "010" ""))).
    tag_of "/"%char KClose f Hf.
    rewrite parseAll_unfold. simpl.
    rewrite (lookup_flag0 context f Hflag). cbn [mbind option_bind].
    pose proof (section_const (String "A" (String "010" "")) (get context f)) as HA.
    simpl in HA. simpl. rewrite HA. simpl. rewrite append_empty_r. reflexivity.
  - start_render.
    text_then_tag "". tag_of "#"%char KSection f Hf.
    text_then_tag "A". tag_of "/"%char KClose f Hf.
    rewrite parseAll_unfold. simpl.
    rewrite (lookup_flag0 context f Hflag). cbn [mbind option_bind].
    pose proof (section_const "A" (get context f)) as HA.
    simpl in HA. simpl. rewrite HA. reflexivity.
Qed.

Lemma standalone_section_lines_witness :
  let context := templateContext (defaultConfig "demo") 2026 in
  flagName "typescript" = true
  /\ render ("{{#" +:+ "typescript" +:+ "}}" +:+ newline +:+ "A" +:+ newline
             +:+ "{{/" +:+ "typescript" +:+ "}}" +:+ newline) context
     = Returns (Js.repeat (sectionTimes (get context "typescript")) ("A" +:+ newline))
  /\ render ("{{#" +:+ "typescript" +:+ "}}A{{/" +:+ "typescript" +:+ "}}" +:+ newline)
            context
     = Returns (Js.repeat (sectionTimes (get context "typescript")) "A" +:+ newline).
Proof.
  intros context. split; [reflexivity|].
  exact (standalone_section_lines "typescript" context eq_refl).
Defined.

(** ** Other errors of the tokenizer *)

Lemma spaceRun_identifier f : Js.allChars identChar f = true -> spaceRun f = "".
Proof.
  destruct f as [|c f]; [reflexivity|]. simpl. intros H.
  apply andb_true_iff in H as [Hc _].
  destruct (identChar_plain c Hc) as (Hs & _). rewrite Hs. reflexivity.
Qed.

(** A tag that the input ends in, its name being an identifier. *)
Lemma parseTag_unterminated f start p pos0 :
  identifier f = true ->
  scanner p = mkScanner f pos0 ->
  parseTag start p
  = Throws (Error ("Unclosed tag at " +:+ Js.ofNat (pos0 + String.length f))).
Proof.
  intros Hid Hsc. destruct (identifier_chars f Hid) as [Hf Hne].
  unfold parseTag. cbn [scanner]. rewrite Hsc.
  destruct f as [|c f]; [done|].
  assert (Hc : identChar c = true)
    by (simpl in Hf; apply andb_true_iff in Hf; tauto).
  destruct (identChar_plain c Hc) as (Hs & Hk & _).
  rewrite (scan_nomatch tagRe) by (simpl; rewrite Hk; reflexivity).
  rewrite (scan_match whiteRe _ "")
    by (simpl; f_equal; rewrite Hs; reflexivity).
  cbn [tail pos String.length Js.drop].
  change (String.eqb "" "=") with false. change (String.eqb "" "{") with false.
  cbv iota.
  assert (Hexec : exec closingTagRe (String c f) = None).
  { rewrite <- (append_empty_r (String c f)).
    rewrite (exec_skip closingTagRe identChar (String c f) ""
               (fun c s' => closing_fails "}" c s') Hf).
    reflexivity. }
  unfold scanUntil. cbn [tail pos]. rewrite Hexec.
  unfold scan. cbn [tail pos exec matchAt closingTagRe spaceRun String.length
                         Js.drop Js.startsWith].
  change (String.eqb "" "") with true. cbv iota.
  rewrite Nat.add_0_r. reflexivity.
Qed.

(** X18. A closing tag without a section open, and a tag that the input
    ends in, are errors of the template too: rendering [{{/f}}] throws
    [Unopened section "f" at 0] and rendering [{{f] throws
    [Unclosed tag at n], [n] being the length of the input. For a template
    file, [processTemplateFile] logs the path of the source, throws the
    error again and writes nothing. *)
Theorem stray_and_unterminated_tags
    (f : string) (context : gmap string value)
    (sourceFile targetDir : list string) (w : World) :
  let logged :=
    mkWorld (files w)
            (stderr w ++ ["Error processing template: " +:+ showPath sourceFile]) in
  let unopened := Error ("Unopened section " +:+ quoted f +:+ " at 0") in
  let unclosed := Error ("Unclosed tag at " +:+ Js.ofNat (String.length f + 2)) in
  flagName f = true ->
  Js.endsWith (basename sourceFile) ".mustache" = true ->
  render ("{{/" +:+ f +:+ "}}") context = Throws unopened
  /\ render ("{{" +:+ f) context = Throws unclosed
  /\ processTemplateFile sourceFile (Some ("{{/" +:+ f +:+ "}}")) targetDir context w
     = (Throws unopened, logged)
  /\ processTemplateFile sourceFile (Some ("{{" +:+ f)) targetDir context w
     = (Throws unclosed, logged).
Proof.
  intros logged unopened unclosed Hflag Hsuffix.
  pose proof (flagName_chars f Hflag) as Hf.
  assert (Hid : identifier f = true).
  { unfold flagName in Hflag. apply andb_true_iff in Hflag. tauto. }
  assert (Hstray : render ("{{/" +:+ f +:+ "}}") context = Throws unopened).
  { start_render. loop_tag "".
    erewrite (parseTag_sigil "/" KClose f);
      [ | reflexivity | discriminate | discriminate | reflexivity | exact Hf
        | simpl; reflexivity ].
    reflexivity. }
  assert (Hopen : render ("{{" +:+ f) context = Throws unclosed).
  { start_render.
    erewrite (parseAll_tag "" f);
      [ | simpl; reflexivity | reflexivity | apply spaceRun_identifier; exact Hf ].
    simpl.
    erewrite (parseTag_unterminated f); [ | exact Hid | simpl; reflexivity ].
    subst unclosed. rewrite (Nat.add_comm 2). reflexivity. }
  split; [exact Hstray|]. split; [exact Hopen|]. split.
  - apply processTemplateFile_rethrows; assumption.
  - apply processTemplateFile_rethrows; assumption.
Qed.

Lemma stray_and_unterminated_tags_witness :
  let sourceFile := ["pkg"; "templates"; "bad.mustache"] in
  let logged :=
    mkWorld (files emptyDirWorld)
            ["Error processing template: /pkg/templates/bad.mustache"] in
  flagName "a" = true
  /\ Js.endsWith (basename sourceFile) ".mustache" = true
  /\ render "{{/a}}" ∅ = Throws (Error ("Unopened section " +:+ quoted "a" +:+ " at 0"))
  /\ render "{{a" ∅ = Throws (Error "Unclosed tag at 3")
  /\ processTemplateFile sourceFile (Some "{{/a}}") ["home"; "app"] ∅ emptyDirWorld
     = (Throws (Error ("Unopened section " +:+ quoted "a" +:+ " at 0")), logged)
  /\ processTemplateFile sourceFile (Some "{{a") ["home"; "app"] ∅ emptyDirWorld
     = (Throws (Error "Unclosed tag at 3"), logged).
Proof.
  intros sourceFile logged.
  assert (H1 : flagName "a" = true) by reflexivity.
  assert (H2 : Js.endsWith (basename sourceFile) ".mustache" = true) by reflexivity.
  split; [exact H1|]. split; [exact H2|].
  exact (stray_and_unterminated_tags "a" ∅ sourceFile ["home"; "app"] emptyDirWorld
           H1 H2).
Defined.

(** ** The name the prompts give *)

Lemma nameChar_not_space c : nameChar c = true -> Js.isSpace c = false.
Proof.
  destruct c as [[] [] [] [] [] [] [] []]; vm_compute; intros H;
    try discriminate H; reflexivity.
Qed.

Lemma nameChars_no_space s :
  Js.allChars nameChar s = true ->
  Js.allChars (fun c => negb (Js.isSpace c)) s = true.
Proof.
  induction s as [|c s IH]; [reflexivity|]. simpl. intros H.
  apply andb_true_iff in H as [Hc Hs].
  rewrite (nameChar_not_space c Hc), IH by exact Hs. reflexivity.
Qed.

(** X19. For a project name that went through [sanitizeProjectName], as
    the one the prompt gives, the key [kebabCase] of the template context
    is the name itself. *)
Theorem sanitized_name_is_kebab (raw : string) (config : ProjectConfig) (year : nat) :
  name config = sanitizeProjectName raw ->
  templateContext config year !! "kebabCase" = Some (VStr (name config)).
Proof.
  intros Hname.
  assert (Hchars : Js.allChars nameChar (name config) = true).
  { pose proof (sanitize_clean raw) as H. rewrite <- Hname in H.
    unfold cleanName in H. repeat (apply andb_true_iff in H as [H _]). exact H. }
  change (templateContext config year !! "kebabCase")
    with (Some (VStr (hyphenate false (toLowerCase (name config))))).
  rewrite clean_lower by exact Hchars.
  rewrite hyphenate_id by (apply nameChars_no_space; exact Hchars).
  reflexivity.
Qed.

Lemma sanitized_name_is_kebab_witness :
  let config := collectProjectInfo (defaultAnswers (sanitizeProjectName "My API")) in
  name config = sanitizeProjectName "My API"
  /\ name config = "my-api"
  /\ templateContext config 2026 !! "kebabCase" = Some (VStr (name config)).
Proof.
  intros config. split; [reflexivity|]. split; [reflexivity|].
  exact (sanitized_name_is_kebab "My API" config 2026 eq_refl).
Defined.

(** ** The fields of the configuration in the template context *)

Lemma derived_is_new (config : ProjectConfig) (key : string) :
  key ∈ derivedKeys -> configObject config !! key = None.
Proof.
  unfold derivedKeys. intros Hin.
  repeat (apply elem_of_cons in Hin as [-> | Hin]; [reflexivity|]).
  apply elem_of_nil in Hin. contradiction.
Qed.

Lemma derived_is_set (config : ProjectConfig) (year : nat) (key : string) :
  key ∈ derivedKeys -> is_Some (templateContext config year !! key).
Proof.
  unfold derivedKeys, templateContext. intros Hin.
  repeat (apply elem_of_cons in Hin as [-> | Hin];
          [rewrite ?lookup_insert_ne by discriminate;
           rewrite lookup_insert_eq; eexists; reflexivity|]).
  apply elem_of_nil in Hin. contradiction.
Qed.

Lemma other_is_kept (config : ProjectConfig) (year : nat) (key : string) :
  key ∉ derivedKeys ->
  templateContext config year !! key = configObject config !! key.
Proof.
  unfold derivedKeys. intros Hout. unfold templateContext.
  repeat (rewrite lookup_insert_ne;
          [|intros <-; apply Hout; repeat constructor]).
  reflexivity.
Qed.

(** X20. Every field of the configuration reaches the templates as it is:
    the keys [generateProject] adds to the context are eight new ones, none
    of which is a field of the configuration, and every other key reads in
    the context as it reads in the configuration. *)
Theorem config_fields_kept (config : ProjectConfig) (year : nat) (key : string) :
  (key ∈ derivedKeys ->
   configObject config !! key = None
   /\ is_Some (templateContext config year !! key))
  /\ (key ∉ derivedKeys ->
      templateContext config year !! key = configObject config !! key)
  /\ (forall v, configObject config !! key = Some v ->
                templateContext config year !! key = Some v).
Proof.
  split; [intros Hin; split;
          [exact (derived_is_new config key Hin)
          |exact (derived_is_set config year key Hin)]|].
  split; [exact (other_is_kept config year key)|].
  intros v Hv. destruct (decide (key ∈ derivedKeys)) as [Hin|Hout].
  - rewrite (derived_is_new config key Hin) in Hv. discriminate Hv.
  - rewrite (other_is_kept config year key Hout). exact Hv.
Qed.
